(** * Trip planner of morethanamsterdam-web: the [get_trips] macro and its caller

    The repository plans multi-leg train day trips with one recursive SQL
    macro, [get_trips] (loaded by [src/data.js] from [create_macro.sql]),
    evaluated by an embedded DuckDB engine.  The tables are modelled as
    lists of records (a SQL bag in the order of a nested-loop evaluation;
    where a query leaves the order of rows open and a result depends on
    it, the statements range over the orders), each
    common table expression as a function from lists to lists, and the
    JavaScript caller [executeTripQuery] as a function returning either a
    result table or the thrown error.

    Timestamps are integers counting minutes from a midnight (the ETL
    rounds every timestamp to a 5-minute grid, so nothing finer is ever
    stored); station codes, municipality keys and province keys are
    strings.  The columns read by the macro are taken to be non-NULL: the
    ETL's own WHERE clause discards rows whose times or municipalities are
    NULL. *)

From Stdlib Require Import String Ascii.
From Stdlib Require Import List ZArith Lia Bool.
From Stdlib Require Import Sorted Permutation.
Import ListNotations.

Open Scope Z_scope.

Set Implicit Arguments.

(** ** The engine's scalar and list functions used by the macro *)

Module Sql.

(** A timestamp: minutes since a midnight. *)
Definition timestamp := Z.

(** [hour(t)] and [minute(t)]. *)
Definition hour (t : timestamp) : Z := (t / 60) mod 24.
Definition minute (t : timestamp) : Z := t mod 60.

(** [date_diff('minute', a, b)]. *)
Definition date_diff_minute (a b : timestamp) : Z := b - a.

(** [time_bucket(INTERVAL 'w minutes', t)]: [t] rounded down to the grid
    of width [w] anchored at a midnight. *)
Definition time_bucket (w : Z) (t : timestamp) : timestamp := w * (t / w).

(** [t + INTERVAL (n) HOUR]. *)
Definition add_hours (t : timestamp) (n : Z) : timestamp := t + 60 * n.

(** [(b)::int]. *)
Definition int_of_bool (b : bool) : Z := if b then 1 else 0.

(** [max(x) OVER (rows between unbounded preceding and unbounded
    following)] on a column of casts of booleans. *)
Definition window_max (col : list Z) : Z := fold_right Z.max 0 col.

(** [list_position(l, x) IS NULL]. *)
Definition list_position_is_null (l : list string) (x : string) : bool :=
  negb (existsb (String.eqb x) l).

(** [array_append(l, x)]. *)
Definition array_append {A} (l : list A) (x : A) : list A := l ++ [x].

(** [list_distinct(l)]: the first occurrence of every element. *)
Fixpoint list_distinct (l : list string) : list string :=
  match l with
  | [] => []
  | x :: r => x :: filter (fun y => negb (String.eqb x y)) (list_distinct r)
  end.

(** [list_sort(l)]: ascending, by insertion. *)
Fixpoint insert_sorted (x : string) (l : list string) : list string :=
  match l with
  | [] => [x]
  | y :: r => if String.leb x y then x :: l else y :: insert_sorted x r
  end.

Definition list_sort (l : list string) : list string :=
  fold_right insert_sorted [] l.

(** [flatten(ll)]; NULL in, NULL out. *)
Definition flatten (ll : option (list (list string))) : option (list string) :=
  option_map (@List.concat string) ll.

(** [list_contains(l, x)], NULL when the list is NULL. *)
Definition list_contains (l : option (list string)) (x : string) : option bool :=
  option_map (existsb (String.eqb x)) l.

(** [list_filter(l, f)] keeps the elements on which [f] is true (a NULL
    verdict drops the element). *)
Definition list_filter (l : list string) (f : string -> option bool) : list string :=
  filter (fun x => match f x with Some true => true | _ => false end) l.

(** [list_intersect(l1, l2)], the engine's macro
    [list_filter(list_distinct(l1), x -> list_contains(l2, x))]. *)
Definition list_intersect (l1 : list string) (l2 : option (list string)) : list string :=
  list_filter (list_distinct l1) (list_contains l2).

(** [len(l)]. *)
Definition len {A} (l : list A) : Z := Z.of_nat (List.length l).

(** [FROM l JOIN r ON on]. *)
Definition inner_join {A B} (on : A -> B -> bool) (l : list A) (r : list B)
  : list (A * B) :=
  flat_map (fun a => map (pair a) (filter (on a) r)) l.

(** [ORDER BY]: a stable sort for a "comes no later than" test. *)
Fixpoint insert_by {A} (leb : A -> A -> bool) (x : A) (l : list A) : list A :=
  match l with
  | [] => [x]
  | y :: r => if leb x y then x :: l else y :: insert_by leb x r
  end.

Definition order_by {A} (leb : A -> A -> bool) (l : list A) : list A :=
  fold_right (insert_by leb) [] l.

End Sql.

(** ** The two datasets *)

(** A row of [data/train_services.parquet]. *)
Module Services.
Record row := {
  service_id : Z;
  departure_time_tb : Sql.timestamp;
  from_station_code : string;
  from_municipality_sk : string;
  from_province_sk : string;
  to_station_code : string;
  arrival_time_tb : Sql.timestamp;
  to_municipality_sk : string;
  to_province_sk : string
}.
End Services.

(** A row of [data/train_stations.csv] (the columns the macro reads). *)
Module Stations.
Record row := {
  station_code : string;
  municipality_sk : string;
  province_sk : string;
  number_of_monuments : Z
}.
End Stations.

(** ** [etl/download_data.sql]: what reaches the parquet partitions *)

Module Etl.

(** A row of the CTE [exploded_raw_data]. *)
Record exploded := {
  day_of_week : Z;
  leg : Services.row
}.

(** The final [WHERE] of the [COPY] query. *)
Definition kept (r : Services.row) : bool :=
  negb (Services.from_municipality_sk r =? Services.to_municipality_sk r)%string
  && (Sql.date_diff_minute (Services.departure_time_tb r)
                           (Services.arrival_time_tb r) <=? 60).

(** [partition_by (day_of_week)]: the rows written to the file of day [d]. *)
Definition partition (d : Z) (rows : list exploded) : list Services.row :=
  map leg (filter (fun r => (day_of_week r =? d) && kept (leg r)) rows).

End Etl.

(** ** The macro [get_trips] *)

(** The macro's parameters, in the order of its declaration. *)
Record query := {
  input_day_of_week : Z;
  input_station_code : string;
  input_hour_departure : Z;
  input_minute_departure : Z;
  input_to_station_code : string;
  input_hour_arrival : Z;
  input_layover_time : Z;
  input_to_municipality_sk : string
}.

(** What the engine can read: one parquet file per day of the week that
    has one, and the station file. *)
Record database := {
  train_services : Z -> option (list Services.row);
  train_stations : list Stations.row
}.

(** A row of the CTE [train_schedule]: [src.*] and [travel_time]. *)
Module Schedule.
Record row := {
  src : Services.row;
  travel_time : Z
}.
Definition from_station_code r := Services.from_station_code (src r).
Definition to_station_code r := Services.to_station_code (src r).
Definition departure_time_tb r := Services.departure_time_tb (src r).
Definition arrival_time_tb r := Services.arrival_time_tb (src r).
Definition to_municipality_sk r := Services.to_municipality_sk (src r).
Definition from_municipality_sk r := Services.from_municipality_sk (src r).
Definition to_province_sk r := Services.to_province_sk (src r).
Definition from_province_sk r := Services.from_province_sk (src r).
End Schedule.

(** A row of the recursive CTE [planning]. *)
Module Planning.
Record row := {
  from_station_code : string;
  to_station_code : string;
  path : list string;
  time_schedule : list Sql.timestamp;
  municipalities : list string;
  provinces : list string;
  travel_time : Z;
  departure_time_tb : Sql.timestamp;
  arrival_time_tb : Sql.timestamp;
  end_reached : Z;
  to_municipality_sk : string;
  number_of_monuments : Z
}.
End Planning.

Section Macro.

Variable q : query.

(** *** [train_schedule] *)

Definition with_travel_time (s : Services.row) : Schedule.row :=
  {| Schedule.src := s;
     Schedule.travel_time :=
       Sql.date_diff_minute (Services.departure_time_tb s)
                            (Services.arrival_time_tb s) |}.

Definition legal (r : Schedule.row) : bool :=
  negb ((Schedule.to_municipality_sk r =? input_to_municipality_sk q)%string
        && negb (Schedule.to_station_code r =? input_to_station_code q)%string)
  && ((15 <=? Schedule.travel_time r) && (Schedule.travel_time r <=? 60)).

Definition train_schedule (parquet : list Services.row) : list Schedule.row :=
  filter legal (map with_travel_time parquet).

(** *** [planning]: the non-recursive member *)

Definition seed_on (ts : Schedule.row) (tss : Stations.row) : bool :=
  (Schedule.to_station_code ts =? Stations.station_code tss)%string.

Definition seed_where (j : Schedule.row * Stations.row) : bool :=
  let ts := fst j in
  (Schedule.from_station_code ts =? input_station_code q)%string
  && (Sql.hour (Schedule.departure_time_tb ts) =? input_hour_departure q)
  && (Sql.minute (Schedule.departure_time_tb ts) =? input_minute_departure q)
  && negb (Schedule.to_station_code ts =? input_to_station_code q)%string.

Definition seed_row (j : Schedule.row * Stations.row) : Planning.row :=
  let ts := fst j in
  let tss := snd j in
  {| Planning.from_station_code := Schedule.from_station_code ts;
     Planning.to_station_code := Schedule.to_station_code ts;
     Planning.path := [Schedule.from_station_code ts; Schedule.to_station_code ts];
     Planning.time_schedule :=
       [Schedule.departure_time_tb ts; Schedule.arrival_time_tb ts];
     Planning.municipalities :=
       [Schedule.from_municipality_sk ts; Schedule.to_municipality_sk ts];
     Planning.provinces :=
       [Schedule.from_province_sk ts; Schedule.to_province_sk ts];
     Planning.travel_time := Schedule.travel_time ts;
     Planning.departure_time_tb := Schedule.departure_time_tb ts;
     Planning.arrival_time_tb := Schedule.arrival_time_tb ts;
     Planning.end_reached := 0;
     Planning.to_municipality_sk := Schedule.to_municipality_sk ts;
     Planning.number_of_monuments := Stations.number_of_monuments tss |}.

Definition planning_seed (sched : list Schedule.row) (stations : list Stations.row)
  : list Planning.row :=
  map seed_row (filter seed_where (Sql.inner_join seed_on sched stations)).

(** *** [planning]: the recursive member *)

(** The second conjunct of the first [ON]. *)
Definition time_compatible (p : Planning.row) (ts : Schedule.row) : bool :=
  Sql.time_bucket 15 (Sql.add_hours (Planning.arrival_time_tb p) (input_layover_time q))
  =? Sql.time_bucket 15 (Schedule.departure_time_tb ts).

Definition planning_on (p : Planning.row) (ts : Schedule.row) : bool :=
  (Planning.to_station_code p =? Schedule.from_station_code ts)%string
  && time_compatible p ts.

Definition station_on (j : Planning.row * Schedule.row) (tss : Stations.row) : bool :=
  (Schedule.to_station_code (snd j) =? Stations.station_code tss)%string.

(** The predicate under [max(...)], also the second branch of the [WHERE]. *)
Definition reaches (ts : Schedule.row) : bool :=
  (Schedule.to_station_code ts =? input_to_station_code q)%string
  && (Sql.hour (Schedule.arrival_time_tb ts) =? input_hour_arrival q).

(** The first branch of the [WHERE]. *)
Definition explores (p : Planning.row) (ts : Schedule.row) : bool :=
  Sql.list_position_is_null (Planning.municipalities p) (Schedule.to_municipality_sk ts)
  && negb (Schedule.to_municipality_sk ts =? input_to_municipality_sk q)%string.

Definition planning_where (j : Planning.row * Schedule.row * Stations.row) : bool :=
  let p := fst (fst j) in
  let ts := snd (fst j) in
  (explores p ts || reaches ts) && (Planning.end_reached p =? 0).

(** [FROM planning JOIN train_schedule ts ON ... JOIN stations tss ON ...
    WHERE ...]: the rows the recursive [SELECT] is evaluated on. *)
Definition planning_join (sched : list Schedule.row) (stations : list Stations.row)
           (working : list Planning.row)
  : list (Planning.row * Schedule.row * Stations.row) :=
  filter planning_where
         (Sql.inner_join station_on (Sql.inner_join planning_on working sched) stations).

(** The [SELECT] list on one joined row; [flag] is the value of the
    window aggregate. *)
Definition extend (flag : Z) (j : Planning.row * Schedule.row * Stations.row)
  : Planning.row :=
  let p := fst (fst j) in
  let ts := snd (fst j) in
  let tss := snd j in
  {| Planning.from_station_code := Schedule.from_station_code ts;
     Planning.to_station_code := Schedule.to_station_code ts;
     Planning.path := Sql.array_append (Planning.path p) (Schedule.to_station_code ts);
     Planning.time_schedule :=
       Sql.array_append
         (Sql.array_append (Planning.time_schedule p) (Schedule.departure_time_tb ts))
         (Schedule.arrival_time_tb ts);
     Planning.municipalities :=
       Sql.array_append (Planning.municipalities p) (Schedule.to_municipality_sk ts);
     Planning.provinces :=
       Sql.array_append (Planning.provinces p) (Schedule.to_province_sk ts);
     Planning.travel_time := Planning.travel_time p + Schedule.travel_time ts;
     Planning.departure_time_tb := Schedule.departure_time_tb ts;
     Planning.arrival_time_tb := Schedule.arrival_time_tb ts;
     Planning.end_reached := flag;
     Planning.to_municipality_sk := Planning.to_municipality_sk p;
     Planning.number_of_monuments :=
       Planning.number_of_monuments p + Stations.number_of_monuments tss |}.

(** The window aggregate: one value for the whole batch. *)
Definition batch_flag (batch : list (Planning.row * Schedule.row * Stations.row)) : Z :=
  Sql.window_max (map (fun j => Sql.int_of_bool (reaches (snd (fst j)))) batch).

(** One evaluation of the recursive member on the working table. *)
Definition planning_step (sched : list Schedule.row) (stations : list Stations.row)
           (working : list Planning.row) : list Planning.row :=
  let batch := planning_join sched stations working in
  map (extend (batch_flag batch)) batch.

(** The working table of iteration [n]. *)
Fixpoint planning_layer (sched : list Schedule.row) (stations : list Stations.row)
         (n : nat) : list Planning.row :=
  match n with
  | O => planning_seed sched stations
  | S k => planning_step sched stations (planning_layer sched stations k)
  end.

(** [UNION ALL] of the working tables.  The engine iterates until a
    working table is empty; [planning_layer_empty] below shows that this
    happens after at most [length sched] iterations. *)
Definition planning (sched : list Schedule.row) (stations : list Stations.row)
  : list Planning.row :=
  flat_map (planning_layer sched stations) (seq 0 (S (List.length sched))).

(** *** [distinct_paths] *)

Definition arrived (p : Planning.row) : bool :=
  (Planning.to_station_code p =? input_to_station_code q)%string
  && (Sql.hour (Planning.arrival_time_tb p) =? input_hour_arrival q).

(** [PARTITION BY list_sort(path)]. *)
Definition same_partition (a b : Planning.row) : bool :=
  if list_eq_dec string_dec (Sql.list_sort (Planning.path a))
                            (Sql.list_sort (Planning.path b))
  then true else false.

(** [row_number() OVER (PARTITION BY list_sort(path) ORDER BY travel_time)]
    of the row [r] standing between [before] and [after] in the order in
    which the rows reach the window: one more than the number of rows of
    its partition that are faster, or as fast and ahead of it.  The window
    names no other key, so among rows as fast that order decides; it is
    the argument of [qualify]. *)
Definition row_number (before : list Planning.row) (r : Planning.row)
           (after : list Planning.row) : Z :=
  1
  + Sql.len (filter (fun r' => same_partition r r'
                               && (Planning.travel_time r' <=? Planning.travel_time r))
                    before)
  + Sql.len (filter (fun r' => same_partition r r'
                               && (Planning.travel_time r' <? Planning.travel_time r))
                    after).

(** [QUALIFY row_number() OVER (...) = 1]. *)
Fixpoint qualify (before rows : list Planning.row) : list Planning.row :=
  match rows with
  | [] => []
  | r :: after =>
      if row_number before r after =? 1
      then r :: qualify (before ++ [r]) after
      else qualify (before ++ [r]) after
  end.

End Macro.

(** A row of the CTE [distinct_paths]. *)
Module DistinctPaths.
Record row := {
  path : list string;
  travel_time : Z;
  time_schedule : list Sql.timestamp;
  municipalities : list string;
  provinces : list string;
  number_of_monuments : Z
}.
End DistinctPaths.

(** A row of the CTE [optimal_paths]. *)
Module OptimalPaths.
Record row := {
  path : list string;
  municipalities : list string;
  time_schedule : list Sql.timestamp;
  travel_time : Z;
  m_p : Z;
  m_m : option (list (list string));
  number_of_monuments : Z
}.
End OptimalPaths.

(** A row of the macro's result. *)
Module Trips.
Record row := {
  path : list string;
  time_schedule : list Sql.timestamp;
  no_overlaps : Z
}.
End Trips.

Section Ranking.

Variable q : query.

Definition distinct_row (p : Planning.row) : DistinctPaths.row :=
  {| DistinctPaths.path := Planning.path p;
     DistinctPaths.travel_time := Planning.travel_time p;
     DistinctPaths.time_schedule := Planning.time_schedule p;
     DistinctPaths.municipalities := Planning.municipalities p;
     DistinctPaths.provinces := Sql.list_distinct (Planning.provinces p);
     DistinctPaths.number_of_monuments := Planning.number_of_monuments p |}.

Definition distinct_paths (plan : list Planning.row) : list DistinctPaths.row :=
  map distinct_row (qualify [] (filter (arrived q) plan)).

(** *** [optimal_paths] *)

(** [ORDER BY m_p desc], [m_p] being [len(provinces)]. *)
Definition more_provinces (a b : DistinctPaths.row) : bool :=
  Sql.len (DistinctPaths.provinces b) <=? Sql.len (DistinctPaths.provinces a).

(** [array_agg(x) OVER (... rows between unbounded preceding and 1
    preceding)]: NULL on an empty frame. *)
Definition array_agg {A} (frame : list A) : option (list A) :=
  match frame with
  | [] => None
  | _ => Some frame
  end.

Definition optimal_row (preceding : list DistinctPaths.row) (d : DistinctPaths.row)
  : OptimalPaths.row :=
  {| OptimalPaths.path := DistinctPaths.path d;
     OptimalPaths.municipalities := DistinctPaths.municipalities d;
     OptimalPaths.time_schedule := DistinctPaths.time_schedule d;
     OptimalPaths.travel_time := DistinctPaths.travel_time d;
     OptimalPaths.m_p := Sql.len (DistinctPaths.provinces d);
     OptimalPaths.m_m := array_agg (map DistinctPaths.municipalities preceding);
     OptimalPaths.number_of_monuments := DistinctPaths.number_of_monuments d |}.

(** The window scan: every row sees the rows that stand before it. *)
Fixpoint scan (preceding rows : list DistinctPaths.row) : list OptimalPaths.row :=
  match rows with
  | [] => []
  | d :: following => optimal_row preceding d :: scan (preceding ++ [d]) following
  end.

Definition optimal_paths (dp : list DistinctPaths.row) : list OptimalPaths.row :=
  scan [] (Sql.order_by more_provinces dp).

(** *** The final [SELECT] *)

Definition no_overlaps (o : OptimalPaths.row) : Z :=
  Sql.len (Sql.list_intersect (OptimalPaths.municipalities o)
                              (Sql.flatten (OptimalPaths.m_m o))).

(** [ORDER BY no_overlaps ASC, number_of_monuments DESC, travel_time]. *)
Definition final_order (a b : OptimalPaths.row) : bool :=
  (no_overlaps a <? no_overlaps b)
  || ((no_overlaps a =? no_overlaps b)
      && ((OptimalPaths.number_of_monuments b <? OptimalPaths.number_of_monuments a)
          || ((OptimalPaths.number_of_monuments a =? OptimalPaths.number_of_monuments b)
              && (OptimalPaths.travel_time a <=? OptimalPaths.travel_time b)))).

Definition ranked (op : list OptimalPaths.row) : list OptimalPaths.row :=
  Sql.order_by final_order op.

Definition trip_row (o : OptimalPaths.row) : Trips.row :=
  {| Trips.path := OptimalPaths.path o;
     Trips.time_schedule := OptimalPaths.time_schedule o;
     Trips.no_overlaps := no_overlaps o |}.

(** The body of the macro on the content of the two files. *)
Definition ranking (parquet : list Services.row) (stations : list Stations.row)
  : list OptimalPaths.row :=
  let sched := train_schedule q parquet in
  ranked (optimal_paths (distinct_paths (planning q sched stations))).

Definition trips (parquet : list Services.row) (stations : list Stations.row)
  : list Trips.row :=
  map trip_row (ranking parquet stations).

(** [get_trips(...)]: fails when [read_parquet] finds no file for the day. *)
Definition get_trips (db : database) : option (list Trips.row) :=
  match train_services db (input_day_of_week q) with
  | None => None
  | Some parquet => Some (trips parquet (train_stations db))
  end.

End Ranking.

(** ** Scenario fixtures *)

Module Fixture.

Definition at_ (h m : Z) : Sql.timestamp := 60 * h + m.

Definition service (from to_ : string) (fm tm fp tp : string)
           (dep arr : Sql.timestamp) : Services.row :=
  {| Services.service_id := 1;
     Services.departure_time_tb := dep;
     Services.from_station_code := from;
     Services.from_municipality_sk := fm;
     Services.from_province_sk := fp;
     Services.to_station_code := to_;
     Services.arrival_time_tb := arr;
     Services.to_municipality_sk := tm;
     Services.to_province_sk := tp |}.

Definition station (code mun prov : string) (monuments : Z) : Stations.row :=
  {| Stations.station_code := code;
     Stations.municipality_sk := mun;
     Stations.province_sk := prov;
     Stations.number_of_monuments := monuments |}.

(** Scenario A of the specification. *)
Definition stations_abc : list Stations.row :=
  [station "A" "mA" "p1" 3; station "B" "mB" "p1" 5; station "C" "mC" "p2" 7].

Definition scenario_a : list Services.row :=
  [service "A" "B" "mA" "mB" "p1" "p1" (at_ 8 0) (at_ 8 30);
   service "B" "C" "mB" "mC" "p1" "p2" (at_ 9 0) (at_ 9 30)].

(** The same, the second leg leaving in the quarter the first arrives in. *)
Definition scenario_a_tight : list Services.row :=
  [service "A" "B" "mA" "mB" "p1" "p1" (at_ 8 0) (at_ 8 30);
   service "B" "C" "mB" "mC" "p1" "p2" (at_ 8 30) (at_ 9 0)].

Definition query_a : query :=
  {| input_day_of_week := 1;
     input_station_code := "A";
     input_hour_departure := 8;
     input_minute_departure := 0;
     input_to_station_code := "C";
     input_hour_arrival := 9;
     input_layover_time := 0;
     input_to_municipality_sk := "mC" |}.

(** Two routes from A to D that visit one province each. *)
Definition stations_abcd : list Stations.row :=
  [station "A" "mA" "p1" 3; station "B" "mB" "p1" 5;
   station "C" "mC" "p1" 7; station "D" "mD" "p1" 2].

Definition two_routes : list Services.row :=
  [service "A" "B" "mA" "mB" "p1" "p1" (at_ 8 0) (at_ 8 30);
   service "A" "C" "mA" "mC" "p1" "p1" (at_ 8 0) (at_ 8 30);
   service "B" "D" "mB" "mD" "p1" "p1" (at_ 8 30) (at_ 9 0);
   service "C" "D" "mC" "mD" "p1" "p1" (at_ 8 30) (at_ 9 0)].

Definition query_d : query :=
  {| input_day_of_week := 1;
     input_station_code := "A";
     input_hour_departure := 8;
     input_minute_departure := 0;
     input_to_station_code := "D";
     input_hour_arrival := 9;
     input_layover_time := 0;
     input_to_municipality_sk := "mD" |}.

Definition via (mid : string) (monuments : Z) : DistinctPaths.row :=
  {| DistinctPaths.path := ["A"; mid; "D"]%string;
     DistinctPaths.travel_time := 60;
     DistinctPaths.time_schedule := [at_ 8 0; at_ 8 30; at_ 8 30; at_ 9 0];
     DistinctPaths.municipalities := ["mA"; ("m" ++ mid); "mD"]%string;
     DistinctPaths.provinces := ["p1"%string];
     DistinctPaths.number_of_monuments := monuments |}.

(** A terminated row of [planning] from A to D through two stations. *)
Definition through (mid1 mid2 : string) (minutes : Z) : Planning.row :=
  {| Planning.from_station_code := mid2;
     Planning.to_station_code := "D";
     Planning.path := ["A"; mid1; mid2; "D"]%string;
     Planning.time_schedule := [];
     Planning.municipalities := ["mA"; ("m" ++ mid1); ("m" ++ mid2); "mD"]%string;
     Planning.provinces := ["p1"; "p1"; "p1"; "p1"]%string;
     Planning.travel_time := minutes;
     Planning.departure_time_tb := at_ 8 45;
     Planning.arrival_time_tb := at_ 9 0;
     Planning.end_reached := 1;
     Planning.to_municipality_sk := ("m" ++ mid1)%string;
     Planning.number_of_monuments := 14 |}.

End Fixture.

(** ** [src/data.js]: the caller of the macro *)

Module Js.

(** What an [async] call gives its caller. *)
Inductive outcome (A : Type) : Type :=
| Returned (value : A)
| Thrown (message : string).
Arguments Returned {A} value.
Arguments Thrown {A} message.

Definition bind {A B} (o : outcome A) (k : A -> outcome B) : outcome B :=
  match o with
  | Returned v => k v
  | Thrown m => Thrown m
  end.

(** [try { body } catch (e) { handler }]. *)
Definition try_catch {A} (body : outcome A) (handler : string -> outcome A) : outcome A :=
  match body with
  | Returned v => Returned v
  | Thrown m => handler m
  end.

(** A step that returns nothing and may throw. *)
Definition step (failure : option string) : outcome unit :=
  match failure with
  | None => Returned tt
  | Some m => Thrown m
  end.

(** A promise, by the way it ends: after how many milliseconds and how,
    or never. *)
Inductive promise (A : Type) : Type :=
| Fulfils (elapsed : Z) (value : A)
| Rejects (elapsed : Z) (message : string)
| Pends.
Arguments Fulfils {A} elapsed value.
Arguments Rejects {A} elapsed message.
Arguments Pends {A}.

End Js.

Declare Scope js_scope.
Delimit Scope js_scope with js.
Notation "x <- e ;; k" := (Js.bind e (fun x => k))
  (at level 61, e at next level, right associativity) : js_scope.
Notation "e ;;; k" := (Js.bind e (fun _ => k))
  (at level 61, right associativity) : js_scope.

(** *** The SQL the caller sends *)

Module SqlText.

(** An argument of a macro call: a named placeholder of a prepared
    statement, or a literal written into the text. *)
Inductive argument :=
| Placeholder (name : string)
| Number (z : Z)
| Quoted (s : string).

(** [SELECT * FROM callee(arguments)]. *)
Record select_from := {
  callee : string;
  arguments : list argument
}.

(** [CREATE OR REPLACE MACRO macro_name(parameters) AS TABLE ...]. *)
Record create_macro := {
  macro_name : string;
  parameters : list string
}.

(** The engine binds a call to a macro of that name with as many
    parameters as the call has arguments. *)
Definition binds (catalog : list create_macro) (c : select_from) : bool :=
  existsb (fun m => (macro_name m =? callee c)%string
                    && (List.length (parameters m) =? List.length (arguments c))%nat)
          catalog.

End SqlText.

(** The declaration in [create_macro.sql]. *)
Definition get_trips_macro : SqlText.create_macro :=
  {| SqlText.macro_name := "get_trips";
     SqlText.parameters :=
       ["input_day_of_week"; "input_station_code"; "input_hour_departure";
        "input_minute_departure"; "input_to_station_code"; "input_hour_arrival";
        "input_layover_time"; "input_to_municipality_sk"]%string |}.

Section Caller.

Import Js.
Local Open Scope js_scope.

Definition table := list Trips.row.

(** The argument of [executeTripQuery]. *)
Record params := {
  dayOfWeek : Z;
  stationCode : string;
  hourDeparture : Z;
  minuteDeparture : Z;
  toStationCode : string;
  hourArrival : Z;
  minuteArrival : Z;
  layoverTime : Z;
  toMunicipalitySk : string
}.

Inductive js_value :=
| JsNumber (z : Z)
| JsString (s : string).

(** The connection [duckdbConn], by what its methods do. *)
Record connection := {
  prepare : SqlText.select_from -> outcome unit;
  stmt_query : SqlText.select_from -> list (string * js_value) -> promise table;
  stmt_close : option string;
  conn_query : SqlText.select_from -> promise table
}.

(** The surroundings of a call: whether the three [ensure...] steps
    fail (the module remembers their success between calls). *)
Record environment := {
  duckdb_failure : option string;
  macro_failure : option string;
  fetch_failure : Z -> option string
}.

Variable env : environment.
Variable duckdbConn : connection.

Definition ensureDuckDB : outcome unit := step (duckdb_failure env).

Definition ensureMacroExecuted : outcome unit := step (macro_failure env).

Definition ensureServicesFileRegistered (dow : Z) : outcome unit :=
  if negb ((1 <=? dow) && (dow <=? 7))
  then Thrown "Invalid day of week parameter"
  else step (fetch_failure env dow).

Definition sqlQuery : SqlText.select_from :=
  {| SqlText.callee := "get_trips";
     SqlText.arguments :=
       [SqlText.Placeholder "input_day_of_week";
        SqlText.Placeholder "input_station_code";
        SqlText.Placeholder "input_hour_departure";
        SqlText.Placeholder "input_minute_departure";
        SqlText.Placeholder "input_to_station_code";
        SqlText.Placeholder "input_hour_arrival";
        SqlText.Placeholder "input_minute_arrival";
        SqlText.Placeholder "input_layover_time";
        SqlText.Placeholder "input_to_municipality_sk"] |}.

Definition timeout_message : string :=
  "unable to plan trip, increase the layover time".

(** [executeQueryWithTimeout(queryPromise, timeoutMs = 15000)]: the
    promise against a timer. *)
Definition executeQueryWithTimeout (queryPromise : promise table) (timeoutMs : Z)
  : outcome table :=
  match queryPromise with
  | Fulfils t v => if t <? timeoutMs then Returned v else Thrown timeout_message
  | Rejects t m => if t <? timeoutMs then Thrown m else Thrown timeout_message
  | Pends => Thrown timeout_message
  end.

Definition default_timeout : Z := 15000.

(** [s.replace(/'/g, "''")]. *)
Fixpoint double_quotes (s : string) : string :=
  match s with
  | EmptyString => EmptyString
  | String c r =>
      if Ascii.eqb c "'"%char
      then String c (String c (double_quotes r))
      else String c (double_quotes r)
  end.

Definition bindings (p : params) : list (string * js_value) :=
  [("input_day_of_week", JsNumber (dayOfWeek p));
   ("input_station_code", JsString (stationCode p));
   ("input_hour_departure", JsNumber (hourDeparture p));
   ("input_minute_departure", JsNumber (minuteDeparture p));
   ("input_hour_arrival", JsNumber (hourArrival p));
   ("input_minute_arrival", JsNumber (minuteArrival p));
   ("input_to_station_code", JsString (toStationCode p));
   ("input_layover_time", JsNumber (layoverTime p));
   ("input_to_municipality_sk", JsString (toMunicipalitySk p))]%string.

Definition sqlInline (p : params) : SqlText.select_from :=
  {| SqlText.callee := "get_trips";
     SqlText.arguments :=
       [SqlText.Number (dayOfWeek p);
        SqlText.Quoted (double_quotes (stationCode p));
        SqlText.Number (hourDeparture p);
        SqlText.Number (minuteDeparture p);
        SqlText.Quoted (double_quotes (toStationCode p));
        SqlText.Number (hourArrival p);
        SqlText.Number (minuteArrival p);
        SqlText.Number (layoverTime p);
        SqlText.Quoted (double_quotes (toMunicipalitySk p))] |}.

Definition executeTripQuery (p : params) : outcome table :=
  ensureDuckDB ;;;
  ensureMacroExecuted ;;;
  ensureServicesFileRegistered (dayOfWeek p) ;;;
  try_catch
    (prepare duckdbConn sqlQuery ;;;
     result <- executeQueryWithTimeout
                 (stmt_query duckdbConn sqlQuery (bindings p)) default_timeout ;;
     step (stmt_close duckdbConn) ;;;
     Returned result)
    (fun message =>
       if (message =? "Unable to plan trip, increase the layover time")%string
       then Thrown message
       else if negb ((1 <=? dayOfWeek p) && (dayOfWeek p <=? 7))
       then Thrown "Invalid day of week parameter"
       else executeQueryWithTimeout (conn_query duckdbConn (sqlInline p))
                                    default_timeout).

End Caller.

(** *** The engine behind the connection *)

(** How long the engine takes: to report a call it cannot bind, and to
    evaluate one it can (or that it never finishes). *)
Record clock := {
  bind_error_after : Z;
  evaluation : SqlText.select_from -> Js.promise table
}.

Definition binder_error : string :=
  "Binder Error: macro arguments do not match the parameters".

(** A connection to an engine whose catalog holds the macros of [catalog]. *)
Definition duckdb (catalog : list SqlText.create_macro) (c : clock) : connection :=
  {| prepare := fun s =>
       if SqlText.binds catalog s then Js.Returned tt else Js.Thrown binder_error;
     stmt_query := fun s _ => evaluation c s;
     stmt_close := None;
     conn_query := fun s =>
       if SqlText.binds catalog s then evaluation c s
       else Js.Rejects (bind_error_after c) binder_error |}.

(** ** Vocabulary of the statements *)

Definition sum_Z (l : list Z) : Z := fold_right Z.add 0 l.

(** The two timestamps a leg contributes to [time_schedule]. *)
Definition leg_times (l : Schedule.row) : list Sql.timestamp :=
  [Schedule.departure_time_tb l; Schedule.arrival_time_tb l].

(** A leg joined to a station row stands at its arrival station. *)
Definition lands (sched : list Schedule.row) (stations : list Stations.row)
           (j : Schedule.row * Stations.row) : Prop :=
  In (fst j) sched /\ In (snd j) stations
  /\ Schedule.to_station_code (fst j) = Stations.station_code (snd j).

(** The row [r] of [planning] is what the chain [c] of legs, each with the
    station row joined to it, adds up to. *)
Definition built_from (sched : list Schedule.row) (stations : list Stations.row)
           (r : Planning.row) (c : list (Schedule.row * Stations.row)) : Prop :=
  let legs := map fst c in
  c <> []
  /\ Forall (lands sched stations) c
  /\ Planning.path r
     = hd EmptyString (map Schedule.from_station_code legs)
       :: map Schedule.to_station_code legs
  /\ map Schedule.from_station_code legs = removelast (Planning.path r)
  /\ Planning.time_schedule r = flat_map leg_times legs
  /\ Planning.municipalities r
     = hd EmptyString (map Schedule.from_municipality_sk legs)
       :: map Schedule.to_municipality_sk legs
  /\ Planning.travel_time r = sum_Z (map Schedule.travel_time legs)
  /\ Planning.number_of_monuments r
     = sum_Z (map Stations.number_of_monuments (map snd c))
  /\ Planning.to_station_code r
     = last (map Schedule.to_station_code legs) EmptyString
  /\ Planning.arrival_time_tb r = last (map Schedule.arrival_time_tb legs) 0.

(** The quarter of an hour a timestamp falls in. *)
Definition quarter (t : Sql.timestamp) : Sql.timestamp := 15 * (t / 15).

(** The grouping key of [distinct_paths]. *)
Definition station_key (p : Planning.row) : list string :=
  Sql.list_sort (Planning.path p).

(** The rows of [planning] that [distinct_paths] chooses from: those that
    end at the destination station in the requested hour of arrival. *)
Definition terminated (q : query) (parquet : list Services.row)
           (stations : list Stations.row) : list Planning.row :=
  filter (arrived q) (planning q (train_schedule q parquet) stations).

(** The number of distinct municipalities of [muns] that occur in one of
    the lists of [footprint]. *)
Definition overlap_count (muns : list string) (footprint : list (list string)) : Z :=
  Z.of_nat (List.length
              (filter (fun m => existsb (String.eqb m) (List.concat footprint))
                      (Sql.list_distinct muns))).

(** The order of the result: fewer overlaps first, then more monuments,
    then less travel. *)
Definition ranks_before (a b : OptimalPaths.row) : Prop :=
  no_overlaps a < no_overlaps b
  \/ (no_overlaps a = no_overlaps b
      /\ (OptimalPaths.number_of_monuments a > OptimalPaths.number_of_monuments b
          \/ (OptimalPaths.number_of_monuments a = OptimalPaths.number_of_monuments b
              /\ OptimalPaths.travel_time a <= OptimalPaths.travel_time b))).

(** A call of [executeTripQuery] on a Monday. *)
Definition monday : params :=
  {| dayOfWeek := 1;
     stationCode := "A";
     hourDeparture := 8;
     minuteDeparture := 0;
     toStationCode := "D";
     hourArrival := 9;
     minuteArrival := 0;
     layoverTime := 0;
     toMunicipalitySk := "mD" |}.

Definition all_reachable : environment :=
  {| duckdb_failure := None;
     macro_failure := None;
     fetch_failure := fun _ => None |}.

Definition one_trip : table :=
  [{| Trips.path := ["A"; "B"; "D"]%string;
      Trips.time_schedule := [480; 510; 510; 540];
      Trips.no_overlaps := 0 |}].

(** A connection whose prepared statement is still running after 20
    seconds, and which answers the same call written inline in 2. *)
Definition slow_then_fast : connection :=
  {| prepare := fun _ => Js.Returned tt;
     stmt_query := fun _ _ => Js.Fulfils 20000 one_trip;
     stmt_close := None;
     conn_query := fun _ => Js.Fulfils 2000 one_trip |}.

(** A macro declared with the nine parameters the caller supplies. *)
Definition nine_parameter_macro : SqlText.create_macro :=
  {| SqlText.macro_name := "get_trips";
     SqlText.parameters :=
       ["input_day_of_week"; "input_station_code"; "input_hour_departure";
        "input_minute_departure"; "input_to_station_code"; "input_hour_arrival";
        "input_minute_arrival"; "input_layover_time";
        "input_to_municipality_sk"]%string |}.

Definition two_seconds : clock :=
  {| bind_error_after := 5;
     evaluation := fun _ => Js.Fulfils 2000 one_trip |}.

(** ** Vocabulary of the statements on whole trips *)

(** The minutes spent on trains, read off a [time_schedule]: departure and
    arrival alternate. *)
Fixpoint durations (times : list Sql.timestamp) : Z :=
  match times with
  | d :: a :: rest => (a - d) + durations rest
  | _ => 0
  end.

(** The minutes between reaching a station, the layover added, and leaving
    it again, for every change of train of a [time_schedule]. *)
Fixpoint waits (layover : Z) (times : list Sql.timestamp) : list Z :=
  match times with
  | _ :: a :: rest =>
      match rest with
      | d :: _ => (d - (a + 60 * layover)) :: waits layover rest
      | [] => []
      end
  | _ => []
  end.

(** Consecutive legs: the next one leaves the station the last one
    reached, in the quarter of its arrival plus the layover. *)
Fixpoint connected (q : query) (legs : list Schedule.row) : Prop :=
  match legs with
  | l1 :: rest =>
      match rest with
      | l2 :: _ =>
          Schedule.to_station_code l1 = Schedule.from_station_code l2
          /\ quarter (Schedule.arrival_time_tb l1 + 60 * input_layover_time q)
             = quarter (Schedule.departure_time_tb l2)
          /\ connected q rest
      | [] => True
      end
  | [] => True
  end.

(** The first leg of a chain leaves the origin at the requested time for
    a station that is not the destination. *)
Definition starts_as_asked (q : query) (legs : list Schedule.row) : Prop :=
  match legs with
  | l :: _ =>
      Schedule.from_station_code l = input_station_code q
      /\ Sql.hour (Schedule.departure_time_tb l) = input_hour_departure q
      /\ Sql.minute (Schedule.departure_time_tb l) = input_minute_departure q
      /\ Schedule.to_station_code l <> input_to_station_code q
  | [] => False
  end.

(** A query for Scenario B: nothing leaves A at 07:10. *)
Definition query_early : query :=
  {| input_day_of_week := 1;
     input_station_code := "A";
     input_hour_departure := 7;
     input_minute_departure := 10;
     input_to_station_code := "C";
     input_hour_arrival := 9;
     input_layover_time := 0;
     input_to_municipality_sk := "mC" |}.


(** ** [src/data.js]: strings, day names, station input, the station file *)

(** A JavaScript string that the code inspects character by character: its
    UTF-16 code units. *)
Module JsStr.

Definition t := list N.

(** The code units of a literal of the source (ASCII). *)
Definition lit (s : string) : t := map N_of_ascii (list_ascii_of_string s).

Fixpoint eqb (a b : t) : bool :=
  match a, b with
  | [], [] => true
  | x :: a', y :: b' => (x =? y)%N && eqb a' b'
  | _, _ => false
  end.

(** White space and line terminators of the language, what [trim] strips. *)
Definition is_space (c : N) : bool :=
  ((9 <=? c) && (c <=? 13)
   || (c =? 32) || (c =? 160) || (c =? 5760)
   || (8192 <=? c) && (c <=? 8202)
   || (c =? 8232) || (c =? 8233) || (c =? 8239) || (c =? 8287)
   || (c =? 12288) || (c =? 65279))%N.

Fixpoint trim_start (s : t) : t :=
  match s with
  | c :: r => if is_space c then trim_start r else s
  | [] => []
  end.

Definition trim_end (s : t) : t := rev (trim_start (rev s)).

(** [s.trim()]. *)
Definition trim (s : t) : t := trim_end (trim_start s).

(** [s.startsWith(c)] for a one-character [c]. *)
Definition starts_with (s : t) (c : N) : bool :=
  match s with
  | x :: _ => (x =? c)%N
  | [] => false
  end.

(** The five characters of the class the sanitizing [replace] deletes:
    the angle brackets, the two quotes and the ampersand. *)
Definition is_markup (c : N) : bool :=
  ((c =? 60) || (c =? 62) || (c =? 39) || (c =? 34) || (c =? 38))%N.

(** [s.replace(..., '')] with that class, everywhere. *)
Definition strip_markup (s : t) : t := filter (fun c => negb (is_markup c)) s.

(** [s.substring(0, n)]. *)
Definition substring0 (n : nat) (s : t) : t := firstn n s.

(** Put [c] in front of the first piece. *)
Definition grow (c : N) (pieces : list t) : list t :=
  match pieces with
  | cur :: rest => (c :: cur) :: rest
  | [] => [[c]]
  end.

(** [s.split(',')]. *)
Fixpoint split_commas (s : t) : list t :=
  match s with
  | [] => [[]]
  | c :: r => if (c =? 44)%N then [] :: split_commas r else grow c (split_commas r)
  end.

(** [s.split(/\r?\n/)]: a line feed, with the carriage return before it
    if there is one. *)
Fixpoint split_lines (s : t) : list t :=
  match s with
  | [] => [[]]
  | c :: r =>
      if (c =? 10)%N then [] :: split_lines r
      else
        match r with
        | c2 :: r' =>
            if ((c =? 13) && (c2 =? 10))%N then [] :: split_lines r'
            else grow c (split_lines r)
        | [] => grow c (split_lines r)
        end
  end.

(** [a.includes(x)] on an array of strings. *)
Definition includes (a : list t) (x : t) : bool := existsb (eqb x) a.

Fixpoint indexOf_from (i : Z) (a : list t) (x : t) : Z :=
  match a with
  | [] => -1
  | y :: r => if eqb y x then i else indexOf_from (i + 1) r x
  end.

(** [a.indexOf(x)]. *)
Definition indexOf (a : list t) (x : t) : Z := indexOf_from 0 a x.

(** [a[i]]: [undefined] outside the array. *)
Definition at_index {A} (a : list A) (i : Z) : option A :=
  if i <? 0 then None else nth_error a (Z.to_nat i).

End JsStr.

Definition validDays : list JsStr.t :=
  map JsStr.lit
      ["Monday"; "Tuesday"; "Wednesday"; "Thursday"; "Friday"; "Saturday";
       "Sunday"]%string.

(** [dayNameToIsoDow(name)] on a string ([String(name || '')] is then
    [name]); the warning it logs is not modelled. *)
Definition dayNameToIsoDow (name : JsStr.t) : Z :=
  let sanitizedName := JsStr.trim name in
  let idx := JsStr.indexOf validDays sanitizedName in
  if idx <? 0 then 1 else idx + 1.

(** [validateStationInput(input)]; [None] is an argument that is not a
    string. *)
Definition validateStationInput (input : option JsStr.t) : JsStr.t :=
  match input with
  | None => []
  | Some [] => []
  | Some s =>
      let sanitized := JsStr.trim s in
      if (100 <? List.length sanitized)%nat
      then JsStr.substring0 100 sanitized
      else JsStr.strip_markup sanitized
  end.

(** An element of the array [parseCSV] returns. *)
Record station_entry (number : Type) := {
  entry_name : JsStr.t;
  entry_code : JsStr.t;
  entry_lat : number;
  entry_lon : number;
  entry_municipalitySk : JsStr.t
}.

Section ParseCSV.

Import Js.
Local Open Scope js_scope.

(** The numbers of the language and what [parseCSV] does with them are
    taken as given: [parseFloat], [Number.isNaN], [<] and the four
    literals. *)
Variable number : Type.
Variable parseFloat : JsStr.t -> number.
Variable NaN : number.
Variable isNaN : number -> bool.
Variable less : number -> number -> bool.
Variable literal : Z -> number.

Definition requiredHeaders : list JsStr.t :=
  map JsStr.lit
      ["station_name"; "lon"; "lat"; "station_code"; "municipality_sk"]%string.

(** The object [idx]. *)
Record columns := {
  idx_station_code : Z;
  idx_station_name : Z;
  idx_lat : Z;
  idx_lon : Z;
  idx_municipality_sk : Z
}.

Definition columns_of (header : list JsStr.t) : columns :=
  {| idx_station_code := JsStr.indexOf header (JsStr.lit "station_code");
     idx_station_name := JsStr.indexOf header (JsStr.lit "station_name");
     idx_lat := JsStr.indexOf header (JsStr.lit "lat");
     idx_lon := JsStr.indexOf header (JsStr.lit "lon");
     idx_municipality_sk := JsStr.indexOf header (JsStr.lit "municipality_sk") |}.

(** [parseFloat(x)] on a field that may be [undefined]. *)
Definition parseFloat_field (x : option JsStr.t) : number :=
  match x with
  | Some s => parseFloat s
  | None => NaN
  end.

(** [!name]: [undefined] or the empty string. *)
Definition falsy (x : option JsStr.t) : bool :=
  match x with
  | None | Some [] => true
  | Some _ => false
  end.

(** [x ? x.replace(..., '') : ''] with that class. *)
Definition strip_or_empty (x : option JsStr.t) : JsStr.t :=
  match x with
  | None | Some [] => []
  | Some s => JsStr.strip_markup s
  end.

(** The callback of [lines.map]: a station, or [null]; the warnings it
    logs are not modelled. *)
Definition parse_line (header : list JsStr.t) (idx : columns) (line : JsStr.t)
  : option (station_entry number) :=
  if JsStr.starts_with line 61 || JsStr.starts_with line 43
     || JsStr.starts_with line 45 || JsStr.starts_with line 64
  then None
  else
    let parts := JsStr.split_commas line in
    if negb (List.length parts =? List.length header)%nat then None
    else
      let name := option_map JsStr.trim (JsStr.at_index parts (idx_station_name idx)) in
      let code := option_map JsStr.trim (JsStr.at_index parts (idx_station_code idx)) in
      let lon := parseFloat_field (JsStr.at_index parts (idx_lon idx)) in
      let lat := parseFloat_field (JsStr.at_index parts (idx_lat idx)) in
      let municipalitySk :=
        option_map JsStr.trim (JsStr.at_index parts (idx_municipality_sk idx)) in
      if falsy name
         || (100 <? List.length (match name with Some s => s | None => [] end))%nat
         || isNaN lat || isNaN lon
      then None
      else if less lat (literal 50) || less (literal 54) lat
              || less lon (literal 3) || less (literal 8) lon
      then None
      else
        Some {| entry_name := JsStr.strip_markup
                                (match name with Some s => s | None => [] end);
                entry_code := strip_or_empty code;
                entry_lat := lat;
                entry_lon := lon;
                entry_municipalitySk := strip_or_empty municipalitySk |}.

(** [a.map(f).filter(Boolean)]. *)
Fixpoint map_filter {A B} (f : A -> option B) (a : list A) : list B :=
  match a with
  | [] => []
  | x :: r =>
      match f x with
      | Some y => y :: map_filter f r
      | None => map_filter f r
      end
  end.

(** The non-blank lines of the text, the byte order mark removed. *)
Definition csv_lines (text : JsStr.t) : list JsStr.t :=
  let text := match text with
              | c :: r => if (c =? 65279)%N then r else text
              | [] => text
              end in
  filter (fun l => negb (Nat.eqb (List.length (JsStr.trim l)) 0))
         (JsStr.split_lines text).

(** [parseCSV(text)]; [None] is an argument that is not a string. *)
Definition parseCSV (text : option JsStr.t) : outcome (list (station_entry number)) :=
  match text with
  | None | Some [] => Thrown "Invalid CSV input"
  | Some text =>
      if 1000000 <? Z.of_nat (List.length text) then Thrown "CSV file too large"
      else
        match csv_lines text with
        | [] | [_] => Thrown "Invalid CSV structure"
        | first :: lines =>
            let header := JsStr.split_commas first in
            if negb (forallb (JsStr.includes header) requiredHeaders)
            then Thrown "CSV missing required headers"
            else Returned (map_filter (parse_line header (columns_of header)) lines)
        end
  end.

End ParseCSV.

(** Numbers for the examples: whole numbers, [None] for NaN.  The reading
    of a field agrees with [parseFloat] on strings of decimal digits, which
    is all the examples hold. *)
Module WholeNumbers.

Fixpoint digits (acc : Z) (s : JsStr.t) : option Z :=
  match s with
  | [] => Some acc
  | c :: r =>
      if ((48 <=? c) && (c <=? 57))%N
      then digits (10 * acc + Z.of_N (c - 48)) r
      else None
  end.

Definition parseFloat (s : JsStr.t) : option Z :=
  match s with
  | [] => None
  | _ => digits 0 s
  end.

Definition isNaN (x : option Z) : bool :=
  match x with None => true | Some _ => false end.

Definition less (a b : option Z) : bool :=
  match a, b with
  | Some x, Some y => x <? y
  | _, _ => false
  end.

Definition parseCSV := parseCSV parseFloat None isNaN less (fun z => Some z).

End WholeNumbers.

(** A station file of one station, with Unix and with DOS line ends. *)
Definition one_station_csv : JsStr.t :=
  JsStr.lit "station_name,lon,lat,station_code,municipality_sk"
  ++ [10%N] ++ JsStr.lit "Utrecht <Centraal>,5,52,UT,m344" ++ [10%N].


(** The station of [one_station_csv], as [parseCSV] returns it. *)
Definition utrecht : station_entry (option Z) :=
  {| entry_name := JsStr.lit "Utrecht Centraal";
     entry_code := JsStr.lit "UT";
     entry_lat := Some 52;
     entry_lon := Some 5;
     entry_municipalitySk := JsStr.lit "m344" |}.

(** What the engine reads between the quotes of a string literal: two
    quotes stand for one, and a quote alone would end the literal. *)
Fixpoint read_quoted (s : string) : option string :=
  match s with
  | EmptyString => Some EmptyString
  | String c r =>
      if Ascii.eqb c "'"%char
      then match r with
           | String c2 r' =>
               if Ascii.eqb c2 "'"%char
               then option_map (String c) (read_quoted r')
               else None
           | EmptyString => None
           end
      else option_map (String c) (read_quoted r)
  end.


(** [lines.join(sep)]: how a file of these lines is written. *)
Fixpoint join (sep : JsStr.t) (lines : list JsStr.t) : JsStr.t :=
  match lines with
  | [] => []
  | l :: rest =>
      match rest with
      | [] => l
      | _ :: _ => l ++ sep ++ join sep rest
      end
  end.

(** A line holds neither a carriage return nor a line feed. *)
Definition one_line (l : JsStr.t) : Prop := ~ In 13%N l /\ ~ In 10%N l.

(** The two lines of [one_station_csv]. *)
Definition one_station_lines : list JsStr.t :=
  [JsStr.lit "station_name,lon,lat,station_code,municipality_sk";
   JsStr.lit "Utrecht <Centraal>,5,52,UT,m344"].


(** ** [src/data.js]: what the module remembers between calls *)

Module Session.

Import Js.

(** The files the module fetches. *)
Inductive file :=
| ParquetOfDay (day : Z)
| StationsCsv
| CreateMacroSql.

Definition file_eqb (a b : file) : bool :=
  match a, b with
  | ParquetOfDay d, ParquetOfDay e => d =? e
  | StationsCsv, StationsCsv => true
  | CreateMacroSql, CreateMacroSql => true
  | _, _ => false
  end.

(** A response: its [ok] flag and its body (as text, or as the buffer that
    is registered). *)
Record response := {
  ok : bool;
  body : JsStr.t
}.

(** What a call does to the outside. *)
Inductive effect :=
| Fetched (f : file)
| Queried (sql : JsStr.t)
| Registered (f : file).

(** The variables of the module, the files registered with the engine, and
    the effects so far, latest first. *)
Record state := {
  macroSqlCache : option JsStr.t;
  macroExecuted : bool;
  servicesRegistered : option Z;
  buffers : list (file * JsStr.t);
  effects : list effect
}.

(** The outside: what a fetch gives (it may reject) and whether the engine
    accepts the text of the macro. *)
Record world := {
  fetch : file -> outcome response;
  query_failure : JsStr.t -> option string
}.

Definition initial : state :=
  {| macroSqlCache := None;
     macroExecuted := false;
     servicesRegistered := None;
     buffers := [];
     effects := [] |}.

Definition log (e : effect) (st : state) : state :=
  {| macroSqlCache := macroSqlCache st;
     macroExecuted := macroExecuted st;
     servicesRegistered := servicesRegistered st;
     buffers := buffers st;
     effects := e :: effects st |}.

Definition set_cache (text : JsStr.t) (st : state) : state :=
  {| macroSqlCache := Some text;
     macroExecuted := macroExecuted st;
     servicesRegistered := servicesRegistered st;
     buffers := buffers st;
     effects := effects st |}.

Definition set_executed (st : state) : state :=
  {| macroSqlCache := macroSqlCache st;
     macroExecuted := true;
     servicesRegistered := servicesRegistered st;
     buffers := buffers st;
     effects := effects st |}.

Definition set_registered (day : Z) (st : state) : state :=
  {| macroSqlCache := macroSqlCache st;
     macroExecuted := macroExecuted st;
     servicesRegistered := Some day;
     buffers := buffers st;
     effects := effects st |}.

(** [duckdbDb.registerFileBuffer(f, buf)], taken to succeed. *)
Definition registerFileBuffer (f : file) (buf : JsStr.t) (st : state) : state :=
  {| macroSqlCache := macroSqlCache st;
     macroExecuted := macroExecuted st;
     servicesRegistered := servicesRegistered st;
     buffers := (f, buf) :: buffers st;
     effects := Registered f :: effects st |}.

(** The buffer the engine reads for a file: the one registered last. *)
Fixpoint buffer_of (f : file) (bs : list (file * JsStr.t)) : option JsStr.t :=
  match bs with
  | [] => None
  | (g, b) :: rest => if file_eqb f g then Some b else buffer_of f rest
  end.

(** [!macroSqlCache]: [null] or the empty string. *)
Definition no_cache (st : state) : bool :=
  match macroSqlCache st with
  | None | Some [] => true
  | Some _ => false
  end.

Section Calls.

Variable w : world.

(** [ensureMacroExecuted()]. *)
Definition ensureMacroExecuted (st : state) : outcome unit * state :=
  if macroExecuted st then (Returned tt, st)
  else
    let fetched :=
      if no_cache st
      then
        let st1 := log (Fetched CreateMacroSql) st in
        match fetch w CreateMacroSql with
        | Thrown m => (Thrown m, st1)
        | Returned macroResp =>
            if negb (ok macroResp)
            then (Thrown "Failed to load create_macro.sql", st1)
            else (Returned tt, set_cache (body macroResp) st1)
        end
      else (Returned tt, st) in
    match fetched with
    | (Thrown m, st1) => (Thrown m, st1)
    | (Returned _, st1) =>
        let sql := match macroSqlCache st1 with Some t => t | None => [] end in
        let st2 := log (Queried sql) st1 in
        match query_failure w sql with
        | Some m => (Thrown m, st2)
        | None => (Returned tt, set_executed st2)
        end
    end.

(** The key [services_dow_N] of a day is kept as the day; the variable
    starts as [false], here [None]. *)
Definition already_registered (dayOfWeek : Z) (st : state) : bool :=
  match servicesRegistered st with
  | Some key => key =? dayOfWeek
  | None => false
  end.

(** The path of the file of a day between 1 and 7. *)
Definition filePath (dayOfWeek : Z) : string :=
  ("./data/train_services.parquet/day_of_week="
   ++ String (ascii_of_N (48 + Z.to_N dayOfWeek)) "/data_0.parquet")%string.

(** [ensureServicesFileRegistered(dayOfWeek)], the day an integer. *)
Definition ensureServicesFileRegistered (dayOfWeek : Z) (st : state)
  : outcome unit * state :=
  if negb ((1 <=? dayOfWeek) && (dayOfWeek <=? 7))
  then (Thrown "Invalid day of week parameter", st)
  else if already_registered dayOfWeek st then (Returned tt, st)
  else
    let st1 := log (Fetched (ParquetOfDay dayOfWeek)) st in
    match fetch w (ParquetOfDay dayOfWeek) with
    | Thrown m => (Thrown m, st1)
    | Returned resp =>
        if negb (ok resp)
        then (Thrown ("Failed to fetch " ++ filePath dayOfWeek)%string, st1)
        else
          let st2 := registerFileBuffer (ParquetOfDay dayOfWeek) (body resp) st1 in
          let st3 := log (Fetched StationsCsv) st2 in
          match fetch w StationsCsv with
          | Thrown m => (Thrown m, st3)
          | Returned res =>
              (* the source tests [resp.ok] here, the first response *)
              if negb (ok resp)
              then (Thrown "Failed to fetch stations data", st3)
              else
                (Returned tt,
                 set_registered dayOfWeek
                   (registerFileBuffer StationsCsv (body res) st3))
          end
    end.

End Calls.

End Session.

(** ** [src/data.js]: the check of a worker URL *)

(** [host.includes(part)]. *)
Fixpoint includes (host part : string) : bool :=
  String.prefix part host
  || match host with
     | EmptyString => false
     | String _ rest => includes rest part
     end.

Section WorkerUrl.

Import Js.

(** [new URL(url).hostname], [None] when the constructor throws. *)
Variable hostname : string -> option string.

(** [validateWorkerUrl(url)] of [ensureDuckDB]: what is thrown inside the
    [try] is caught by its own [catch]. *)
Definition validateWorkerUrl (url : string) : outcome bool :=
  try_catch
    (match hostname url with
     | None => Thrown "Invalid URL"
     | Some host =>
         if negb (includes host "cdn.jsdelivr.net")
         then Thrown ("Untrusted worker URL: " ++ url)%string
         else Returned true
     end)
    (fun _ => Thrown ("Invalid worker URL: " ++ url)%string).

End WorkerUrl.

(** A world in which every file is served. *)
Definition served : Session.world :=
  {| Session.fetch := fun f =>
       Js.Returned {| Session.ok := true; Session.body := JsStr.lit "bytes" |};
     Session.query_failure := fun _ => None |}.

(** A reading of URLs for the examples: the host is what stands between
    the two slashes after the scheme and the next slash. *)
Fixpoint until_slash (s : string) : string :=
  match s with
  | EmptyString => EmptyString
  | String c r => if Ascii.eqb c "/"%char then EmptyString else String c (until_slash r)
  end.

Definition host_of_https (url : string) : option string :=
  if String.prefix "https://" url
  then Some (until_slash (String.substring 8 (String.length url - 8) url))
  else None.


(** ** [etl/download_data.sql]: from the stops of the services to the legs *)

Module EtlSource.

(** A date: days since 1 January 1970.  A raw timestamp: microseconds since
    that midnight, [None] for NULL. *)
Definition date := Z.

(** [isodow(d)]: Monday is 1; 1 January 1970 was a Thursday. *)
Definition isodow (d : date) : Z := (d + 3) mod 7 + 1.

(** The CTE [calendar_dates] for the execution date [x]:
    [generate_series(x - 12 days, x - 6 days, 1 day)] with its [isodow]. *)
Definition calendar_dates (x : date) : list (date * Z) :=
  map (fun k => (x - 12 + k, isodow (x - 12 + k))) [0; 1; 2; 3; 4; 5; 6].

(** A row of the services file: a stop of a service. *)
Record stop := {
  service_id : Z;
  station_code : string;
  arrival_time : option Z;
  departure_time : option Z;
  service_date : date
}.

(** A row of the CTE [raw_data]. *)
Record raw := {
  at_stop : stop;
  stop_number : Z;
  day_of_week : Z;
  municipality_sk : string;
  province_sk : string
}.

(** [ORDER BY departure_time NULLS LAST]: strictly before, and tied. *)
Definition departs_before (a b : option Z) : bool :=
  match a, b with
  | Some x, Some y => x <? y
  | Some _, None => true
  | None, _ => false
  end.

Definition departs_with (a b : option Z) : bool :=
  match a, b with
  | Some x, Some y => x =? y
  | None, None => true
  | _, _ => false
  end.

(** The rows of [raw_data] before the window function: a stop, its
    calendar date and its station. *)
Definition joined := (stop * (date * Z) * Stations.row)%type.

Definition stop_of (j : joined) : stop := fst (fst j).

Definition join_stops (x : date) (csv : list stop) (stations : list Stations.row)
  : list joined :=
  Sql.inner_join
    (fun j sm => (station_code (fst j) =? Stations.station_code sm)%string)
    (Sql.inner_join (fun s cal => service_date s =? fst cal) csv (calendar_dates x))
    stations.

(** The rows with their place in the list. *)
Definition indexed {A} (l : list A) : list (nat * A) :=
  combine (seq 0 (List.length l)) l.

(** A row that the window order of its service puts ahead of the row [r]
    at place [k]: it leaves earlier, or at the same time and stands
    earlier. *)
Definition ahead_of (k : nat) (r : joined) (other : nat * joined) : bool :=
  (service_id (stop_of (snd other)) =? service_id (stop_of r))
  && (departs_before (departure_time (stop_of (snd other))) (departure_time (stop_of r))
      || (departs_with (departure_time (stop_of (snd other))) (departure_time (stop_of r))
          && (fst other <? k)%nat)).

(** [row_number() OVER (PARTITION BY service_id ORDER BY departure_time
    NULLS LAST)]. *)
Definition row_number (rows : list joined) (k : nat) (r : joined) : Z :=
  1 + Sql.len (filter (ahead_of k r) (indexed rows)).

Definition raw_row (rows : list joined) (kr : nat * joined) : raw :=
  {| at_stop := stop_of (snd kr);
     stop_number := row_number rows (fst kr) (snd kr);
     day_of_week := snd (snd (fst (snd kr)));
     municipality_sk := Stations.municipality_sk (snd (snd kr));
     province_sk := Stations.province_sk (snd (snd kr)) |}.

Definition raw_data (x : date) (csv : list stop) (stations : list Stations.row)
  : list raw :=
  let rows := join_stops x csv stations in
  map (raw_row rows) (indexed rows).

(** [time_bucket(INTERVAL '5 minutes', t)] of a raw timestamp, in minutes. *)
Definition bucket_5_minutes (t : Z) : Sql.timestamp := 5 * (t / 300000000).

Definition exploded_on (from_ to_ : raw) : bool :=
  (service_id (at_stop from_) =? service_id (at_stop to_))
  && (stop_number from_ <? stop_number to_).

(** The CTE [exploded_raw_data].  A pair whose departure or arrival is
    NULL gives a row with a NULL time, which the final WHERE drops; such
    pairs are left out here. *)
Definition exploded_row (j : raw * raw) : list Etl.exploded :=
  let from_ := fst j in
  let to_ := snd j in
  match departure_time (at_stop from_), arrival_time (at_stop to_) with
  | Some dep, Some arr =>
      [{| Etl.day_of_week := day_of_week from_;
          Etl.leg :=
            {| Services.service_id := service_id (at_stop from_);
               Services.departure_time_tb := bucket_5_minutes dep;
               Services.from_station_code := station_code (at_stop from_);
               Services.from_municipality_sk := municipality_sk from_;
               Services.from_province_sk := province_sk from_;
               Services.to_station_code := station_code (at_stop to_);
               Services.arrival_time_tb := bucket_5_minutes arr;
               Services.to_municipality_sk := municipality_sk to_;
               Services.to_province_sk := province_sk to_ |} |}]
  | _, _ => []
  end.

Definition exploded_raw_data (rd : list raw) : list Etl.exploded :=
  flat_map exploded_row (Sql.inner_join exploded_on rd rd).

(** The file the statement writes for the day [d]. *)
Definition download_data (x : date) (csv : list stop) (stations : list Stations.row)
           (d : Z) : list Services.row :=
  Etl.partition d (exploded_raw_data (raw_data x csv stations)).

(** A service of three stops on Thursday 1 January 1970, run for the
    execution date twelve days later. *)
Definition minutes (h m : Z) : option Z := Some ((60 * h + m) * 60000000).

Definition three_stops : list stop :=
  [{| service_id := 7; station_code := "A"; arrival_time := None;
      departure_time := minutes 8 2; service_date := 0 |};
   {| service_id := 7; station_code := "B"; arrival_time := minutes 8 31;
      departure_time := minutes 8 33; service_date := 0 |};
   {| service_id := 7; station_code := "C"; arrival_time := minutes 9 4;
      departure_time := None; service_date := 0 |}].

End EtlSource.


(** ** More scenarios of the macro *)

(** A day file whose first leg stays within one municipality: the stations
    A and A2 both lie in mA. *)
Definition stations_a_a2_d : list Stations.row :=
  [Fixture.station "A" "mA" "p1" 3; Fixture.station "A2" "mA" "p1" 4;
   Fixture.station "D" "mD" "p1" 2].

Definition within_a_municipality : list Services.row :=
  [Fixture.service "A" "A2" "mA" "mA" "p1" "p1" (Fixture.at_ 8 0) (Fixture.at_ 8 30);
   Fixture.service "A2" "D" "mA" "mD" "p1" "p1" (Fixture.at_ 8 30) (Fixture.at_ 9 0)].

(** From B one train reaches D in the requested hour; another goes on to
    C, from where a train reaches D in the requested hour as well. *)
Definition siblings : list Services.row :=
  [Fixture.service "A" "B" "mA" "mB" "p1" "p1" (Fixture.at_ 8 0) (Fixture.at_ 8 30);
   Fixture.service "B" "D" "mB" "mD" "p1" "p1" (Fixture.at_ 8 30) (Fixture.at_ 9 0);
   Fixture.service "B" "C" "mB" "mC" "p1" "p1" (Fixture.at_ 8 30) (Fixture.at_ 9 0);
   Fixture.service "C" "D" "mC" "mD" "p1" "p1" (Fixture.at_ 9 0) (Fixture.at_ 9 30)].

(** The joined row of the leg from B to C in the first evaluation of the
    recursive member on [siblings]. *)
Definition sibling_to_c : Planning.row * Schedule.row * Stations.row :=
  (seed_row
     (with_travel_time
        (Fixture.service "A" "B" "mA" "mB" "p1" "p1" (Fixture.at_ 8 0) (Fixture.at_ 8 30)),
      Fixture.station "B" "mB" "p1" 5),
   with_travel_time
     (Fixture.service "B" "C" "mB" "mC" "p1" "p1" (Fixture.at_ 8 30) (Fixture.at_ 9 0)),
   Fixture.station "C" "mC" "p1" 7).

(** The same stations in two orders, A B C D and A C B D, both of 60
    minutes. *)
Definition two_orders : list Services.row :=
  [Fixture.service "A" "B" "mA" "mB" "p1" "p1" (Fixture.at_ 8 0) (Fixture.at_ 8 15);
   Fixture.service "A" "C" "mA" "mC" "p1" "p1" (Fixture.at_ 8 0) (Fixture.at_ 8 15);
   Fixture.service "B" "C" "mB" "mC" "p1" "p1" (Fixture.at_ 8 15) (Fixture.at_ 8 30);
   Fixture.service "C" "B" "mC" "mB" "p1" "p1" (Fixture.at_ 8 15) (Fixture.at_ 8 30);
   Fixture.service "C" "D" "mC" "mD" "p1" "p1" (Fixture.at_ 8 30) (Fixture.at_ 9 0);
   Fixture.service "B" "D" "mB" "mD" "p1" "p1" (Fixture.at_ 8 30) (Fixture.at_ 9 0)].

(** The train from B to C leaves at 08:30, ten minutes before the train
    from A arrives at B: both moments lie in the quarter of 08:30. *)
Definition leaves_before_arrival : list Services.row :=
  [Fixture.service "A" "B" "mA" "mB" "p1" "p1" (Fixture.at_ 8 10) (Fixture.at_ 8 40);
   Fixture.service "B" "C" "mB" "mC" "p1" "p2" (Fixture.at_ 8 30) (Fixture.at_ 9 0)].

Definition query_ten_past : query :=
  {| input_day_of_week := 1;
     input_station_code := "A";
     input_hour_departure := 8;
     input_minute_departure := 10;
     input_to_station_code := "C";
     input_hour_arrival := 9;
     input_layover_time := 0;
     input_to_municipality_sk := "mC" |}.

(** The changes of train of a [time_schedule]: the arrival at a station
    with the departure from it that follows. *)
Fixpoint changes (times : list Sql.timestamp) : list (Sql.timestamp * Sql.timestamp) :=
  match times with
  | _ :: a :: rest =>
      match rest with
      | d :: _ => (a, d) :: changes rest
      | [] => []
      end
  | _ => []
  end.

(** ** [executeTripQuery] with the queries it has the engine evaluate *)

(** A query handed to the engine for evaluation: by [stmt.query] in the
    [try] block, or by [duckdbConn.query] in the [catch] block. *)
Inductive evaluated :=
| PreparedStatement (s : SqlText.select_from) (b : list (string * js_value))
| InlineQuery (s : SqlText.select_from).

Section CallerLog.

Import Js.
Local Open Scope js_scope.

Variable env : environment.
Variable duckdbConn : connection.

(** The [try] block: its outcome and the queries it has had evaluated. *)
Definition try_block (p : params) : outcome table * list evaluated :=
  match prepare duckdbConn sqlQuery with
  | Thrown m => (Thrown m, [])
  | Returned _ =>
      (result <- executeQueryWithTimeout
                   (stmt_query duckdbConn sqlQuery (bindings p)) default_timeout ;;
       step (stmt_close duckdbConn) ;;;
       Returned result,
       [PreparedStatement sqlQuery (bindings p)])
  end.

(** [executeTripQuery] once more, logging the evaluations. *)
Definition executeTripQuery_log (p : params) : outcome table * list evaluated :=
  match ensureDuckDB env ;;;
        ensureMacroExecuted env ;;;
        ensureServicesFileRegistered env (dayOfWeek p) with
  | Thrown m => (Thrown m, [])
  | Returned _ =>
      match fst (try_block p) with
      | Returned result => (Returned result, snd (try_block p))
      | Thrown message =>
          if (message =? "Unable to plan trip, increase the layover time")%string
          then (Thrown message, snd (try_block p))
          else if negb ((1 <=? dayOfWeek p) && (dayOfWeek p <=? 7))
          then (Thrown "Invalid day of week parameter", snd (try_block p))
          else (executeQueryWithTimeout (conn_query duckdbConn (sqlInline p))
                                        default_timeout,
                snd (try_block p) ++ [InlineQuery (sqlInline p)])
      end
  end.

End CallerLog.



(** * Facts about the engine's functions *)

Module SqlFacts.

Lemma in_inner_join {A B} (on : A -> B -> bool) (l : list A) (r : list B) a b :
  In (a, b) (Sql.inner_join on l r) <-> In a l /\ In b r /\ on a b = true.
Proof.
  unfold Sql.inner_join. rewrite in_flat_map. split.
  - intros [a' [Ha Hin]]. apply in_map_iff in Hin.
    destruct Hin as [b' [Heq Hb]]. inversion Heq; subst.
    apply filter_In in Hb. tauto.
  - intros (Ha & Hb & Hon). exists a. split; [assumption|].
    apply in_map. apply filter_In. tauto.
Qed.

Lemma window_max_flags (col : list bool) :
  Sql.window_max (map Sql.int_of_bool col) = Sql.int_of_bool (existsb (fun b => b) col).
Proof.
  unfold Sql.window_max. induction col as [|b col IH]; simpl; [reflexivity|].
  rewrite IH. destruct b, (existsb (fun b => b) col); reflexivity.
Qed.

Lemma in_insert_by {A} (leb : A -> A -> bool) x y l :
  In y (Sql.insert_by leb x l) <-> y = x \/ In y l.
Proof.
  induction l as [|z l IH]; simpl.
  - intuition congruence.
  - destruct (leb x z); simpl; [intuition congruence|].
    rewrite IH. intuition congruence.
Qed.

Lemma insert_by_perm {A} (leb : A -> A -> bool) x l :
  Permutation (x :: l) (Sql.insert_by leb x l).
Proof.
  induction l as [|z l IH]; simpl; [reflexivity|].
  destruct (leb x z); [reflexivity|].
  rewrite perm_swap. now constructor.
Qed.

Lemma order_by_perm {A} (leb : A -> A -> bool) l :
  Permutation l (Sql.order_by leb l).
Proof.
  unfold Sql.order_by. induction l as [|x l IH]; simpl; [constructor|].
  rewrite <- insert_by_perm. now constructor.
Qed.

Lemma in_order_by {A} (leb : A -> A -> bool) l x :
  In x (Sql.order_by leb l) <-> In x l.
Proof.
  split; apply Permutation_in; [symmetry|]; apply order_by_perm.
Qed.

Section Sorted.

Variable A : Type.
Variable leb : A -> A -> bool.
Hypothesis leb_total : forall a b, leb a b = true \/ leb b a = true.
Hypothesis leb_trans : forall a b c, leb a b = true -> leb b c = true -> leb a c = true.

Lemma insert_by_sorted x l :
  StronglySorted (fun a b => leb a b = true) l ->
  StronglySorted (fun a b => leb a b = true) (Sql.insert_by leb x l).
Proof.
  induction 1 as [|y l Hs IH Hall]; simpl.
  - repeat constructor.
  - destruct (leb x y) eqn:E.
    + constructor; [now constructor|]. constructor; [assumption|].
      eapply Forall_impl; [|exact Hall]. intros z Hz. eauto.
    + constructor; [assumption|].
      apply Forall_forall. intros z Hz. apply in_insert_by in Hz.
      destruct Hz as [->|Hz].
      * destruct (leb_total x y); congruence.
      * rewrite Forall_forall in Hall. auto.
Qed.

Lemma order_by_sorted l :
  StronglySorted (fun a b => leb a b = true) (Sql.order_by leb l).
Proof.
  unfold Sql.order_by. induction l; simpl; [constructor|].
  now apply insert_by_sorted.
Qed.

End Sorted.

Lemma in_list_distinct l x : In x (Sql.list_distinct l) <-> In x l.
Proof.
  induction l as [|y l IH]; simpl; [tauto|].
  rewrite filter_In, IH. destruct (String.eqb_spec y x); simpl; intuition congruence.
Qed.

Lemma list_distinct_nodup l : NoDup (Sql.list_distinct l).
Proof.
  induction l as [|y l IH]; simpl; constructor.
  - rewrite filter_In. intros [_ H]. now rewrite String.eqb_refl in H.
  - now apply NoDup_filter.
Qed.

Lemma list_position_is_null_spec l x :
  Sql.list_position_is_null l x = true <-> ~ In x l.
Proof.
  unfold Sql.list_position_is_null. rewrite negb_true_iff.
  split.
  - intros H Hin. apply not_true_iff_false in H. apply H.
    apply existsb_exists. exists x. split; [assumption|apply String.eqb_refl].
  - intros H. apply not_true_iff_false. intros E. apply existsb_exists in E.
    destruct E as [y [Hy E]]. apply String.eqb_eq in E. now subst.
Qed.

End SqlFacts.

(** * The Service Graph: [train_schedule] *)

Section ScheduleFacts.

Variable q : query.

Lemma legal_spec (r : Schedule.row) :
  legal q r = true <->
  15 <= Schedule.travel_time r <= 60
  /\ ~ (Schedule.to_municipality_sk r = input_to_municipality_sk q
        /\ Schedule.to_station_code r <> input_to_station_code q).
Proof.
  unfold legal.
  rewrite andb_true_iff, negb_true_iff, andb_true_iff, Z.leb_le, Z.leb_le.
  destruct (String.eqb_spec (Schedule.to_municipality_sk r) (input_to_municipality_sk q));
    destruct (String.eqb_spec (Schedule.to_station_code r) (input_to_station_code q));
    simpl; intuition congruence.
Qed.

Lemma in_train_schedule parquet (r : Schedule.row) :
  In r (train_schedule q parquet) <->
  (exists s, In s parquet /\ r = with_travel_time s) /\ legal q r = true.
Proof.
  unfold train_schedule. rewrite filter_In, in_map_iff.
  split; intros [[s Hs] Hl]; (split; [exists s|assumption]); intuition congruence.
Qed.

Lemma train_schedule_length parquet :
  (List.length (train_schedule q parquet) <= List.length parquet)%nat.
Proof.
  unfold train_schedule.
  rewrite <- (length_map with_travel_time parquet). apply filter_length_le.
Qed.

End ScheduleFacts.

(** * The Path Expander: [planning] *)

Section ExpanderFacts.

Variable q : query.
Variable sched : list Schedule.row.
Variable stations : list Stations.row.

Lemma time_compatible_spec p ts :
  time_compatible q p ts = true <->
  quarter (Planning.arrival_time_tb p + 60 * input_layover_time q)
  = quarter (Schedule.departure_time_tb ts).
Proof.
  unfold time_compatible, Sql.time_bucket, Sql.add_hours, quarter.
  apply Z.eqb_eq.
Qed.

Lemma reaches_spec ts :
  reaches q ts = true <->
  Schedule.to_station_code ts = input_to_station_code q
  /\ Sql.hour (Schedule.arrival_time_tb ts) = input_hour_arrival q.
Proof.
  unfold reaches. now rewrite andb_true_iff, String.eqb_eq, Z.eqb_eq.
Qed.

Lemma explores_spec p ts :
  explores q p ts = true <->
  ~ In (Schedule.to_municipality_sk ts) (Planning.municipalities p)
  /\ Schedule.to_municipality_sk ts <> input_to_municipality_sk q.
Proof.
  unfold explores.
  rewrite andb_true_iff, SqlFacts.list_position_is_null_spec, negb_true_iff,
    String.eqb_neq.
  reflexivity.
Qed.

Lemma in_planning_seed r :
  In r (planning_seed q sched stations) <->
  exists ts tss,
    In ts sched /\ In tss stations
    /\ Schedule.to_station_code ts = Stations.station_code tss
    /\ Schedule.from_station_code ts = input_station_code q
    /\ Sql.hour (Schedule.departure_time_tb ts) = input_hour_departure q
    /\ Sql.minute (Schedule.departure_time_tb ts) = input_minute_departure q
    /\ Schedule.to_station_code ts <> input_to_station_code q
    /\ r = seed_row (ts, tss).
Proof.
  unfold planning_seed. rewrite in_map_iff. split.
  - intros [[ts tss] [<- Hin]]. apply filter_In in Hin. destruct Hin as [Hin Hw].
    apply SqlFacts.in_inner_join in Hin. destruct Hin as (Hts & Htss & Hon).
    unfold seed_on in Hon. apply String.eqb_eq in Hon.
    unfold seed_where in Hw. simpl in Hw.
    rewrite !andb_true_iff, negb_true_iff, String.eqb_eq, String.eqb_neq, !Z.eqb_eq in Hw.
    exists ts, tss. intuition.
  - intros (ts & tss & Hts & Htss & Hon & Hfrom & Hh & Hm & Hto & ->).
    exists (ts, tss). split; [reflexivity|]. apply filter_In. split.
    + apply SqlFacts.in_inner_join. unfold seed_on. rewrite String.eqb_eq. tauto.
    + unfold seed_where. simpl.
      rewrite !andb_true_iff, negb_true_iff, String.eqb_eq, String.eqb_neq, !Z.eqb_eq.
      tauto.
Qed.

(** The rows the recursive member is evaluated on. *)
Lemma in_planning_join working p ts tss :
  In (p, ts, tss) (planning_join q sched stations working) <->
  In p working /\ In ts sched /\ In tss stations
  /\ Planning.to_station_code p = Schedule.from_station_code ts
  /\ time_compatible q p ts = true
  /\ Schedule.to_station_code ts = Stations.station_code tss
  /\ (explores q p ts || reaches q ts) = true
  /\ Planning.end_reached p = 0.
Proof.
  unfold planning_join. rewrite filter_In, !SqlFacts.in_inner_join.
  unfold planning_where, station_on, planning_on. simpl.
  rewrite !andb_true_iff, !String.eqb_eq, Z.eqb_eq. tauto.
Qed.

Lemma in_planning_step working r :
  In r (planning_step q sched stations working) <->
  exists j, In j (planning_join q sched stations working)
            /\ r = extend (batch_flag q (planning_join q sched stations working)) j.
Proof.
  unfold planning_step. rewrite in_map_iff. split; intros [j [H1 H2]]; exists j; auto.
Qed.

Lemma batch_flag_spec (batch : list (Planning.row * Schedule.row * Stations.row)) :
  batch_flag q batch
  = Sql.int_of_bool (existsb (fun j => reaches q (snd (fst j))) batch).
Proof.
  unfold batch_flag.
  rewrite <- (map_map (fun j => reaches q (snd (fst j))) Sql.int_of_bool).
  rewrite SqlFacts.window_max_flags. f_equal.
  induction batch; simpl; congruence.
Qed.

Lemma batch_flag_one batch :
  batch_flag q batch = 1 <-> exists j, In j batch /\ reaches q (snd (fst j)) = true.
Proof.
  rewrite batch_flag_spec.
  destruct (existsb _ batch) eqn:E; simpl.
  - apply existsb_exists in E. tauto.
  - split; [discriminate|]. intros H. apply existsb_exists in H. congruence.
Qed.

Lemma batch_flag_zero batch :
  batch_flag q batch = 0 <-> forall j, In j batch -> reaches q (snd (fst j)) = false.
Proof.
  rewrite batch_flag_spec.
  destruct (existsb _ batch) eqn:E; simpl.
  - split; [discriminate|]. intros H. apply existsb_exists in E.
    destruct E as [j [Hj E]]. rewrite (H j Hj) in E. discriminate.
  - split; [|reflexivity]. intros _ j Hj.
    apply not_true_iff_false. intros R.
    apply not_true_iff_false in E. apply E. apply existsb_exists. eauto.
Qed.

Lemma batch_flag_range batch : batch_flag q batch = 0 \/ batch_flag q batch = 1.
Proof. rewrite batch_flag_spec. destruct (existsb _ batch); simpl; auto. Qed.

(** A batch that saw the destination is not expanded. *)
Lemma planning_step_closed working :
  (forall p, In p working -> Planning.end_reached p <> 0) ->
  planning_step q sched stations working = [].
Proof.
  intros H. destruct (planning_step q sched stations working) as [|r l] eqn:E;
    [reflexivity|].
  assert (Hr : In r (planning_step q sched stations working)) by (rewrite E; now left).
  apply in_planning_step in Hr. destruct Hr as [[[p ts] tss] [Hj _]].
  apply in_planning_join in Hj. exfalso. apply (H p); tauto.
Qed.

End ExpanderFacts.

(** * Every row of [planning] is a chain of legs of the Service Graph *)

Section Chains.

Variable q : query.
Variable sched : list Schedule.row.
Variable stations : list Stations.row.

Lemma sum_Z_app l1 l2 : sum_Z (l1 ++ l2) = sum_Z l1 + sum_Z l2.
Proof. unfold sum_Z. induction l1; simpl; lia. Qed.

Lemma hd_app_nonempty {A} (d : A) l1 l2 : l1 <> [] -> hd d (l1 ++ l2) = hd d l1.
Proof. destruct l1; [congruence|reflexivity]. Qed.

Lemma last_cons_nonempty {A} (d x : A) l : l <> [] -> last (x :: l) d = last l d.
Proof. destruct l; [congruence|reflexivity]. Qed.

Lemma seed_built ts tss :
  In ts sched -> In tss stations ->
  Schedule.to_station_code ts = Stations.station_code tss ->
  built_from sched stations (seed_row (ts, tss)) [(ts, tss)].
Proof.
  intros Hts Htss Hon. unfold built_from, lands, sum_Z; simpl.
  repeat split; try reflexivity; try lia; try discriminate.
  repeat constructor; assumption.
Qed.

Lemma extend_built flag p ts tss c :
  built_from sched stations p c ->
  In ts sched -> In tss stations ->
  Schedule.to_station_code ts = Stations.station_code tss ->
  Planning.to_station_code p = Schedule.from_station_code ts ->
  built_from sched stations (extend flag (p, ts, tss)) (c ++ [(ts, tss)]).
Proof.
  intros (Hne & Hall & Hpath & Hfrom & Htimes & Hmun & Htravel & Hmon & Hto & Harr)
         Hts Htss Hon Hcont.
  assert (Hlegs : map fst c <> []) by (destruct c; [congruence|discriminate]).
  unfold built_from, extend, Sql.array_append; simpl.
  rewrite !map_app; simpl.
  repeat split.
  - destruct c; [congruence|discriminate].
  - apply Forall_app. split; [assumption|]. repeat constructor; assumption.
  - rewrite Hpath, hd_app_nonempty by (destruct c; [congruence|discriminate]).
    reflexivity.
  - rewrite removelast_last.
    rewrite Hfrom, <- Hcont, Hto.
    rewrite Hpath at 2.
    rewrite <- (last_cons_nonempty EmptyString
                  (hd EmptyString (map Schedule.from_station_code (map fst c))))
      by (destruct c; [congruence|discriminate]).
    rewrite <- Hpath. symmetry. apply app_removelast_last.
    rewrite Hpath. discriminate.
  - rewrite flat_map_app, Htimes; simpl. rewrite <- app_assoc. reflexivity.
  - rewrite Hmun, hd_app_nonempty by (destruct c; [congruence|discriminate]).
    reflexivity.
  - rewrite sum_Z_app, Htravel. unfold sum_Z; simpl. lia.
  - rewrite sum_Z_app, Hmon. unfold sum_Z; simpl. lia.
  - now rewrite last_last.
  - now rewrite last_last.
Qed.

Lemma layer_built n r :
  In r (planning_layer q sched stations n) ->
  exists c, built_from sched stations r c /\ List.length c = S n.
Proof.
  revert r. induction n as [|n IH]; intros r Hr; simpl in Hr.
  - apply in_planning_seed in Hr.
    destruct Hr as (ts & tss & Hts & Htss & Hon & _ & _ & _ & _ & ->).
    exists [(ts, tss)]. split; [now apply seed_built|reflexivity].
  - apply in_planning_step in Hr. destruct Hr as [[[p ts] tss] [Hj ->]].
    apply in_planning_join in Hj.
    destruct Hj as (Hp & Hts & Htss & Hcont & _ & Hon & _ & _).
    destruct (IH p Hp) as [c [Hc Hlen]].
    exists (c ++ [(ts, tss)]). split.
    + now apply extend_built.
    + rewrite length_app; simpl. lia.
Qed.

End Chains.

(** * The recursion ends *)

Section Termination.

Variable q : query.
Variable sched : list Schedule.row.
Variable stations : list Stations.row.

Lemma NoDup_snoc {A} (l : list A) x : NoDup l -> ~ In x l -> NoDup (l ++ [x]).
Proof.
  intros Hl Hx. apply (Permutation_NoDup (Permutation_cons_append l x)).
  now constructor.
Qed.

(** A row that may still be extended was extended by the first branch
    only, so it holds as many distinct arrival municipalities as legs. *)
Lemma open_row_municipalities n r :
  In r (planning_layer q sched stations n) ->
  Planning.end_reached r = 0 ->
  NoDup (tl (Planning.municipalities r))
  /\ incl (tl (Planning.municipalities r)) (map Schedule.to_municipality_sk sched)
  /\ List.length (Planning.municipalities r) = (n + 2)%nat.
Proof.
  revert r. induction n as [|n IH]; intros r Hr Hopen; simpl in Hr.
  - apply in_planning_seed in Hr.
    destruct Hr as (ts & tss & Hts & _ & _ & _ & _ & _ & _ & ->). simpl.
    repeat split.
    + repeat constructor. intros [].
    + intros m [<-|[]]. now apply in_map.
  - apply in_planning_step in Hr. destruct Hr as [[[p ts] tss] [Hj ->]].
    simpl in Hopen.
    pose proof (proj1 (batch_flag_zero q _) Hopen _ Hj) as Hreach. simpl in Hreach.
    apply in_planning_join in Hj.
    destruct Hj as (Hp & Hts & _ & _ & _ & _ & Hwhere & Hp0).
    rewrite Hreach, orb_false_r in Hwhere. apply explores_spec in Hwhere.
    destruct Hwhere as [Hnew _].
    destruct (IH p Hp Hp0) as (Hnd & Hincl & Hlen).
    simpl. unfold Sql.array_append.
    destruct (Planning.municipalities p) as [|m0 ms] eqn:E; [simpl in Hlen; lia|].
    simpl in *. repeat split.
    + apply NoDup_snoc; [assumption|]. intros Hin. apply Hnew. now right.
    + intros m Hm. apply in_app_or in Hm. destruct Hm as [Hm|[<-|[]]].
      * now apply Hincl.
      * now apply in_map.
    + rewrite length_app; simpl. lia.
Qed.

(** The working table is empty from iteration [length sched + 1] on: the
    [UNION ALL] of [planning] misses no row. *)
Lemma planning_layer_empty n :
  (List.length sched < n)%nat -> planning_layer q sched stations n = [].
Proof.
  intros Hn. destruct n as [|n]; [lia|]. simpl.
  destruct (planning_step q sched stations (planning_layer q sched stations n))
    as [|r l] eqn:E; [reflexivity|exfalso].
  assert (Hr : In r (planning_step q sched stations (planning_layer q sched stations n)))
    by (rewrite E; now left).
  apply in_planning_step in Hr. destruct Hr as [[[p ts] tss] [Hj _]].
  apply in_planning_join in Hj.
  destruct Hj as (Hp & _ & _ & _ & _ & _ & _ & Hp0).
  destruct (open_row_municipalities n p Hp Hp0) as (Hnd & Hincl & Hlen).
  pose proof (NoDup_incl_length Hnd Hincl) as Hle.
  rewrite length_map in Hle.
  destruct (Planning.municipalities p); simpl in *; lia.
Qed.

Lemma in_planning r :
  In r (planning q sched stations) <->
  exists n, In r (planning_layer q sched stations n).
Proof.
  unfold planning. rewrite in_flat_map. split.
  - intros [n [_ Hr]]. now exists n.
  - intros [n Hr]. exists n. split; [|assumption].
    apply in_seq. split; [lia|].
    destruct (Nat.lt_ge_cases (List.length sched) n) as [Hlt|Hge]; [|lia].
    rewrite (planning_layer_empty Hlt) in Hr. destruct Hr.
Qed.

Hypothesis changes_municipality :
  forall ts, In ts sched ->
             Schedule.from_municipality_sk ts <> Schedule.to_municipality_sk ts.

(** With legs that change municipality (the ETL keeps no other), a row
    repeats no municipality before its last entry. *)
Lemma layer_municipalities n r :
  In r (planning_layer q sched stations n) ->
  NoDup (removelast (Planning.municipalities r))
  /\ (Planning.end_reached r = 0 -> NoDup (Planning.municipalities r)).
Proof.
  revert r. induction n as [|n IH]; intros r Hr; simpl in Hr.
  - apply in_planning_seed in Hr.
    destruct Hr as (ts & tss & Hts & _ & _ & _ & _ & _ & _ & ->). simpl.
    split.
    + repeat constructor. intros [].
    + intros _. repeat constructor; [|intros []].
      intros [H|[]]. now apply (changes_municipality ts Hts).
  - apply in_planning_step in Hr. destruct Hr as [[[p ts] tss] [Hj ->]].
    pose proof Hj as Hj'.
    apply in_planning_join in Hj.
    destruct Hj as (Hp & Hts & _ & _ & _ & _ & Hwhere & Hp0).
    destruct (IH p Hp) as [_ Hnd]. specialize (Hnd Hp0).
    simpl. unfold Sql.array_append. rewrite removelast_last.
    split; [assumption|].
    intros Hopen.
    pose proof (proj1 (batch_flag_zero q _) Hopen _ Hj') as Hreach. simpl in Hreach.
    rewrite Hreach, orb_false_r in Hwhere. apply explores_spec in Hwhere.
    apply NoDup_snoc; tauto.
Qed.

End Termination.

(** * The Deduplicator: [distinct_paths] *)

Section DedupFacts.

Lemma same_partition_spec a b :
  same_partition a b = true <-> station_key a = station_key b.
Proof.
  unfold same_partition, station_key.
  destruct (list_eq_dec string_dec _ _); split; congruence.
Qed.

Lemma len_zero_iff {A} (l : list A) : Sql.len l = 0 <-> l = [].
Proof.
  unfold Sql.len. destruct l; simpl; split; try reflexivity; try discriminate; lia.
Qed.

Lemma filter_nil_iff {A} (f : A -> bool) l :
  filter f l = [] <-> forall x, In x l -> f x = false.
Proof.
  induction l as [|y l IH]; simpl.
  - split; [intros _ x []|reflexivity].
  - destruct (f y) eqn:E.
    + split; [discriminate|]. intros H. specialize (H y (or_introl eq_refl)). congruence.
    + rewrite IH. split.
      * intros H x [<-|Hx]; auto.
      * intros H x Hx. apply H. now right.
Qed.

(** Row number one: strictly faster than the rows of the group seen
    before, and no slower than those seen after. *)
Lemma row_number_one before r after :
  row_number before r after = 1 <->
  (forall r', In r' before -> station_key r' = station_key r ->
              Planning.travel_time r < Planning.travel_time r')
  /\ (forall r', In r' after -> station_key r' = station_key r ->
                 Planning.travel_time r <= Planning.travel_time r').
Proof.
  unfold row_number.
  set (f1 := filter _ before). set (f2 := filter _ after).
  assert (H : 1 + Sql.len f1 + Sql.len f2 = 1 <-> f1 = [] /\ f2 = []).
  { rewrite <- !len_zero_iff. unfold Sql.len. lia. }
  rewrite H. unfold f1, f2. rewrite !filter_nil_iff.
  split; intros [H1 H2]; split; intros r' Hr'.
  - intros Hk. specialize (H1 r' Hr').
    rewrite andb_false_iff in H1. destruct H1 as [H1|H1].
    + apply not_true_iff_false in H1. exfalso. apply H1.
      apply same_partition_spec. congruence.
    + apply Z.leb_gt in H1. lia.
  - intros Hk. specialize (H2 r' Hr').
    rewrite andb_false_iff in H2. destruct H2 as [H2|H2].
    + apply not_true_iff_false in H2. exfalso. apply H2.
      apply same_partition_spec. congruence.
    + apply Z.ltb_ge in H2. lia.
  - destruct (same_partition r r') eqn:E; [|reflexivity]. simpl.
    apply same_partition_spec in E. apply Z.leb_gt. apply H1; congruence.
  - destruct (same_partition r r') eqn:E; [|reflexivity]. simpl.
    apply same_partition_spec in E. apply Z.ltb_ge. apply H2; congruence.
Qed.

Lemma row_number_not_one before r after :
  row_number before r after <> 1 ->
  (exists b, In b before /\ station_key b = station_key r
             /\ Planning.travel_time b <= Planning.travel_time r)
  \/ (exists a, In a after /\ station_key a = station_key r
                /\ Planning.travel_time a < Planning.travel_time r).
Proof.
  unfold row_number.
  set (f1 := filter _ before). set (f2 := filter _ after).
  intros H.
  destruct f1 as [|b f1'] eqn:E1.
  - destruct f2 as [|a f2'] eqn:E2; [exfalso; apply H; reflexivity|].
    right. exists a.
    assert (Ha : In a f2) by (rewrite E2; now left).
    apply filter_In in Ha. destruct Ha as [Ha Hc].
    apply andb_true_iff in Hc. destruct Hc as [Hk Ht].
    apply same_partition_spec in Hk. apply Z.ltb_lt in Ht. auto.
  - left. exists b.
    assert (Hb : In b f1) by (rewrite E1; now left).
    apply filter_In in Hb. destruct Hb as [Hb Hc].
    apply andb_true_iff in Hc. destruct Hc as [Hk Ht].
    apply same_partition_spec in Hk. apply Z.leb_le in Ht. auto.
Qed.

(** A kept row, where it stands. *)
Lemma in_qualify before rows k :
  In k (qualify before rows) ->
  exists l1 l2, rows = l1 ++ k :: l2 /\ row_number (before ++ l1) k l2 = 1.
Proof.
  revert before. induction rows as [|r after IH]; intros before Hk; simpl in Hk.
  - destruct Hk.
  - destruct (row_number before r after =? 1) eqn:E.
    + destruct Hk as [->|Hk].
      * exists [], after. rewrite app_nil_r. apply Z.eqb_eq in E. auto.
      * destruct (IH _ Hk) as (l1 & l2 & -> & Hn).
        exists (r :: l1), l2. rewrite <- app_assoc in Hn. auto.
    + destruct (IH _ Hk) as (l1 & l2 & -> & Hn).
      exists (r :: l1), l2. rewrite <- app_assoc in Hn. auto.
Qed.

Lemma qualify_incl before rows k : In k (qualify before rows) -> In k rows.
Proof.
  intros H. destruct (in_qualify _ _ _ H) as (l1 & l2 & -> & _).
  apply in_elt.
Qed.

Lemma qualify_beats_before before rows k :
  In k (qualify before rows) ->
  forall b, In b before -> station_key b = station_key k ->
            Planning.travel_time k < Planning.travel_time b.
Proof.
  intros H b Hb Hk. destruct (in_qualify _ _ _ H) as (l1 & l2 & _ & Hn).
  apply row_number_one in Hn. destruct Hn as [Hn _].
  apply Hn; [|assumption]. apply in_or_app. now left.
Qed.

Lemma qualify_keys_nodup before rows :
  NoDup (map station_key (qualify before rows)).
Proof.
  revert before. induction rows as [|r after IH]; intros before; simpl.
  - constructor.
  - destruct (row_number before r after =? 1) eqn:E; [|apply IH].
    simpl. constructor; [|apply IH].
    intros Hin. apply in_map_iff in Hin. destruct Hin as [k [Hkey Hk]].
    apply Z.eqb_eq, row_number_one in E. destruct E as [_ Hafter].
    pose proof (qualify_incl _ _ _ Hk) as Hka.
    pose proof (qualify_beats_before _ _ _ Hk r) as Hlt.
    assert (Hr : In r (before ++ [r])) by (apply in_or_app; right; now left).
    specialize (Hlt Hr (eq_sym Hkey)).
    specialize (Hafter k Hka Hkey). lia.
Qed.

(** Every group keeps a row that is no slower than any row of the group. *)
Lemma qualify_covers rows : forall before r,
  In r rows ->
  (exists k, In k (qualify before rows) /\ station_key k = station_key r
             /\ Planning.travel_time k <= Planning.travel_time r)
  \/ (exists b, In b before /\ station_key b = station_key r
                /\ Planning.travel_time b <= Planning.travel_time r).
Proof.
  induction rows as [|r0 after IH]; intros before r Hr; [destruct Hr|].
  assert (Hsub : forall k, In k (qualify (before ++ [r0]) after) ->
                           In k (qualify before (r0 :: after))).
  { intros k Hk. simpl. destruct (row_number before r0 after =? 1); [now right|assumption]. }
  assert (Hlift : forall x,
    (exists k, In k (qualify (before ++ [r0]) after) /\ station_key k = station_key x
               /\ Planning.travel_time k <= Planning.travel_time x)
    \/ (exists b, In b (before ++ [r0]) /\ station_key b = station_key x
                  /\ Planning.travel_time b <= Planning.travel_time x) ->
    (exists k, In k (qualify before (r0 :: after)) /\ station_key k = station_key x
               /\ Planning.travel_time k <= Planning.travel_time x)
    \/ (exists b, In b before /\ station_key b = station_key x
                  /\ Planning.travel_time b <= Planning.travel_time x)
    \/ (station_key r0 = station_key x
        /\ Planning.travel_time r0 <= Planning.travel_time x)).
  { intros x [[k (Hk & Hkey & Ht)]|[b (Hb & Hkey & Ht)]].
    - left. exists k. auto.
    - apply in_app_or in Hb. destruct Hb as [Hb|[<-|[]]].
      + right. left. exists b. auto.
      + right. right. auto. }
  assert (Hhead :
    (exists k, In k (qualify before (r0 :: after)) /\ station_key k = station_key r0
               /\ Planning.travel_time k <= Planning.travel_time r0)
    \/ (exists b, In b before /\ station_key b = station_key r0
                  /\ Planning.travel_time b <= Planning.travel_time r0)).
  { destruct (Z.eq_dec (row_number before r0 after) 1) as [E|E].
    - left. exists r0. simpl. apply Z.eqb_eq in E. rewrite E.
      split; [now left|]. split; [reflexivity|lia].
    - destruct (row_number_not_one _ _ _ E) as [Hb|[a (Ha & Hkey & Ht)]]; [now right|].
      destruct (Hlift a (IH (before ++ [r0]) a Ha))
        as [[k (Hk & Hkk & Hkt)]|[[b (Hb & Hbk & Hbt)]|[_ Hbad]]].
      + left. exists k. split; [assumption|]. split; [congruence|lia].
      + right. exists b. split; [assumption|]. split; [congruence|lia].
      + lia. }
  destruct Hr as [<-|Hr]; [exact Hhead|].
  destruct (Hlift r (IH (before ++ [r0]) r Hr))
    as [Hk|[Hb|[Hkey Ht]]]; [now left|now right|].
  destruct Hhead as [[k (Hk & Hkk & Hkt)]|[b (Hb & Hbk & Hbt)]].
  - left. exists k. split; [assumption|]. split; [congruence|lia].
  - right. exists b. split; [assumption|]. split; [congruence|lia].
Qed.

End DedupFacts.

(** * The Ranker: [optimal_paths] and the final order *)

Section RankerFacts.

Lemma more_provinces_total a b :
  more_provinces a b = true \/ more_provinces b a = true.
Proof. unfold more_provinces. rewrite !Z.leb_le. lia. Qed.

Lemma more_provinces_trans a b c :
  more_provinces a b = true -> more_provinces b c = true -> more_provinces a c = true.
Proof. unfold more_provinces. rewrite !Z.leb_le. lia. Qed.

Lemma final_order_spec a b : final_order a b = true <-> ranks_before a b.
Proof.
  unfold final_order, ranks_before.
  rewrite !orb_true_iff, !andb_true_iff, !orb_true_iff, !andb_true_iff.
  rewrite !Z.ltb_lt, !Z.eqb_eq, Z.leb_le. lia.
Qed.

Lemma final_order_total a b : final_order a b = true \/ final_order b a = true.
Proof. rewrite !final_order_spec. unfold ranks_before. lia. Qed.

Lemma final_order_trans a b c :
  final_order a b = true -> final_order b c = true -> final_order a c = true.
Proof. rewrite !final_order_spec. unfold ranks_before. lia. Qed.

Lemma scan_length preceding rows :
  List.length (scan preceding rows) = List.length rows.
Proof.
  revert preceding. induction rows as [|d rows IH]; intros preceding; simpl;
    [reflexivity|]. now rewrite IH.
Qed.

(** The row at a position is computed from the rows standing before it. *)
Lemma scan_nth preceding l1 d l2 :
  nth_error (scan preceding (l1 ++ d :: l2)) (List.length l1)
  = Some (optimal_row (preceding ++ l1) d).
Proof.
  revert preceding. induction l1 as [|x l1 IH]; intros preceding; simpl.
  - now rewrite app_nil_r.
  - rewrite IH, <- app_assoc. reflexivity.
Qed.

Lemma in_scan preceding rows o :
  In o (scan preceding rows) ->
  exists l1 d l2, rows = l1 ++ d :: l2 /\ o = optimal_row (preceding ++ l1) d.
Proof.
  revert preceding. induction rows as [|x rows IH]; intros preceding Ho; simpl in Ho.
  - destruct Ho.
  - destruct Ho as [<-|Ho].
    + exists [], x, rows. now rewrite app_nil_r.
    + destruct (IH _ Ho) as (l1 & d & l2 & -> & ->).
      exists (x :: l1), d, l2. now rewrite <- app_assoc.
Qed.

Lemma filter_none {A} (l : list A) : filter (fun _ => false) l = [].
Proof. induction l; simpl; auto. Qed.

(** [no_overlaps] counts the distinct municipalities of the row found in
    the rows before it; an empty frame counts nothing. *)
Lemma no_overlaps_count preceding d :
  no_overlaps (optimal_row preceding d)
  = overlap_count (DistinctPaths.municipalities d)
                  (map DistinctPaths.municipalities preceding).
Proof.
  unfold no_overlaps, overlap_count, Sql.len, Sql.list_intersect, Sql.list_filter.
  simpl. f_equal. f_equal.
  destruct preceding as [|x preceding]; simpl.
  - now rewrite !filter_none.
  - apply filter_ext. intros m.
    destruct (existsb _ _); reflexivity.
Qed.

End RankerFacts.

(** * [list_sort] decides equality of station multisets *)

Section SortKey.

Lemma ascii_compare_refl a : Ascii.compare a a = Eq.
Proof. unfold Ascii.compare. apply N.compare_refl. Qed.

Lemma string_compare_trans s1 : forall s2 s3,
  String.compare s1 s2 <> Gt -> String.compare s2 s3 <> Gt ->
  String.compare s1 s3 <> Gt.
Proof.
  induction s1 as [|a s1 IH]; intros [|b s2] [|c s3]; simpl; try congruence.
  unfold Ascii.compare.
  destruct (N.compare_spec (N_of_ascii a) (N_of_ascii b)) as [Hab|Hab|Hab];
    destruct (N.compare_spec (N_of_ascii b) (N_of_ascii c)) as [Hbc|Hbc|Hbc];
    destruct (N.compare_spec (N_of_ascii a) (N_of_ascii c)) as [Hac|Hac|Hac];
    try congruence; try lia.
  apply IH.
Qed.

Lemma string_leb_trans s1 s2 s3 :
  String.leb s1 s2 = true -> String.leb s2 s3 = true -> String.leb s1 s3 = true.
Proof.
  unfold String.leb. intros H12 H23.
  pose proof (string_compare_trans s1 s2 s3) as H.
  destruct (String.compare s1 s2); destruct (String.compare s2 s3);
    destruct (String.compare s1 s3); try reflexivity; try discriminate;
    exfalso; apply H; congruence.
Qed.

Lemma insert_sorted_perm x l : Permutation (x :: l) (Sql.insert_sorted x l).
Proof.
  induction l as [|y l IH]; simpl; [reflexivity|].
  destruct (String.leb x y); [reflexivity|].
  rewrite perm_swap. now constructor.
Qed.

Lemma list_sort_perm l : Permutation l (Sql.list_sort l).
Proof.
  unfold Sql.list_sort. induction l as [|x l IH]; simpl; [constructor|].
  rewrite <- insert_sorted_perm. now constructor.
Qed.

Lemma insert_sorted_sorted x l :
  StronglySorted (fun a b => String.leb a b = true) l ->
  StronglySorted (fun a b => String.leb a b = true) (Sql.insert_sorted x l).
Proof.
  induction 1 as [|y l Hs IH Hall]; simpl.
  - repeat constructor.
  - destruct (String.leb x y) eqn:E.
    + constructor; [now constructor|]. constructor; [assumption|].
      eapply Forall_impl; [|exact Hall]. intros z Hz.
      eapply string_leb_trans; eassumption.
    + constructor; [assumption|].
      apply Forall_forall. intros z Hz.
      apply (Permutation_in _ (Permutation_sym (insert_sorted_perm x l))) in Hz.
      destruct Hz as [<-|Hz].
      * destruct (String.leb_total x y); congruence.
      * rewrite Forall_forall in Hall. auto.
Qed.

Lemma list_sort_sorted l :
  StronglySorted (fun a b => String.leb a b = true) (Sql.list_sort l).
Proof.
  unfold Sql.list_sort. induction l; simpl; [constructor|].
  now apply insert_sorted_sorted.
Qed.

Lemma sorted_perm_eq l1 : forall l2,
  StronglySorted (fun a b => String.leb a b = true) l1 ->
  StronglySorted (fun a b => String.leb a b = true) l2 ->
  Permutation l1 l2 -> l1 = l2.
Proof.
  induction l1 as [|x l1 IH]; intros l2 H1 H2 Hp.
  - apply Permutation_nil in Hp. now subst.
  - destruct l2 as [|y l2]; [apply Permutation_sym, Permutation_nil in Hp; discriminate|].
    inversion H1 as [|? ? Hs1 Hall1]; subst.
    inversion H2 as [|? ? Hs2 Hall2]; subst.
    rewrite Forall_forall in Hall1, Hall2.
    assert (x = y).
    { assert (Hy : In y (x :: l1))
        by (apply (Permutation_in _ (Permutation_sym Hp)); now left).
      assert (Hx : In x (y :: l2)) by (apply (Permutation_in _ Hp); now left).
      destruct Hy as [->|Hy]; [reflexivity|].
      destruct Hx as [->|Hx]; [reflexivity|].
      apply String.leb_antisym; auto. }
    subst y. f_equal. apply IH; try assumption.
    now apply Permutation_cons_inv in Hp.
Qed.

(** Two paths have the same key exactly when they visit the same stations
    the same number of times. *)
Lemma list_sort_eq_iff l1 l2 :
  Sql.list_sort l1 = Sql.list_sort l2 <-> Permutation l1 l2.
Proof.
  split.
  - intros H. rewrite (list_sort_perm l1), H. symmetry. apply list_sort_perm.
  - intros H. apply sorted_perm_eq; try apply list_sort_sorted.
    rewrite <- (list_sort_perm l1), <- (list_sort_perm l2). assumption.
Qed.

End SortKey.

(** * From a returned trip back to the row of [planning] it comes from *)

Section Pipeline.

Variable q : query.

Lemma in_distinct_paths plan d :
  In d (distinct_paths q plan) ->
  exists p, In p plan /\ arrived q p = true /\ d = distinct_row p.
Proof.
  unfold distinct_paths. intros H. apply in_map_iff in H.
  destruct H as [p [<- Hp]]. apply qualify_incl in Hp.
  apply filter_In in Hp. exists p. tauto.
Qed.

Lemma in_optimal_paths dp o :
  In o (optimal_paths dp) ->
  exists preceding d, In d dp /\ o = optimal_row preceding d.
Proof.
  unfold optimal_paths. intros H. apply in_scan in H.
  destruct H as (l1 & d & l2 & Hsplit & ->). exists ([] ++ l1), d.
  split; [|reflexivity].
  apply (SqlFacts.in_order_by more_provinces). rewrite Hsplit. apply in_elt.
Qed.

Lemma in_ranking parquet stations o :
  In o (ranking q parquet stations) ->
  exists preceding p n,
    In p (planning_layer q (train_schedule q parquet) stations n)
    /\ arrived q p = true
    /\ o = optimal_row preceding (distinct_row p).
Proof.
  unfold ranking, ranked. intros H. apply SqlFacts.in_order_by in H.
  apply in_optimal_paths in H. destruct H as (preceding & d & Hd & ->).
  apply in_distinct_paths in Hd. destruct Hd as (p & Hp & Harr & ->).
  apply in_planning in Hp. destruct Hp as [n Hp].
  exists preceding, p, n. auto.
Qed.

Lemma arrived_spec p :
  arrived q p = true <->
  Planning.to_station_code p = input_to_station_code q
  /\ Sql.hour (Planning.arrival_time_tb p) = input_hour_arrival q.
Proof. unfold arrived. now rewrite andb_true_iff, String.eqb_eq, Z.eqb_eq. Qed.

Lemma etl_changes_municipality d rows ts :
  In ts (train_schedule q (Etl.partition d rows)) ->
  Schedule.from_municipality_sk ts <> Schedule.to_municipality_sk ts.
Proof.
  intros H. apply in_train_schedule in H. destruct H as [[s [Hs ->]] _].
  unfold Etl.partition in Hs. apply in_map_iff in Hs.
  destruct Hs as [e [<- He]]. apply filter_In in He. destruct He as [_ He].
  apply andb_true_iff in He. destruct He as [_ He].
  unfold Etl.kept in He. apply andb_true_iff in He. destruct He as [He _].
  apply negb_true_iff, String.eqb_neq in He. exact He.
Qed.

End Pipeline.

Lemma in_removelast {A} (l : list A) x : In x (removelast l) -> In x l.
Proof.
  induction l as [|y l IH]; simpl; [tauto|].
  destruct l as [|z l]; [intros []|]. intros [->|H]; [now left|right; auto].
Qed.

Lemma sorted_around {A} (R : A -> A -> Prop) l1 d l2 :
  StronglySorted R (l1 ++ d :: l2) ->
  Forall (fun e => R e d) l1 /\ Forall (R d) l2.
Proof.
  induction l1 as [|x l1 IH]; simpl; intros H.
  - inversion H; subst. split; [constructor|assumption].
  - inversion H as [|? ? Hs Hall]; subst. destruct (IH Hs) as [H1 H2].
    split; [|assumption]. constructor; [|assumption].
    rewrite Forall_forall in Hall. apply Hall. apply in_elt.
Qed.

(** * Properties of the trip planner *)

(** C1. [executeTripQuery] calls [get_trips] with nine arguments, as a
    prepared statement and inline, whatever its input; the macro is
    declared with eight parameters, none of them a minute of arrival; so
    neither call binds, and whatever the surroundings and the engine's
    timing the caller gets an error, never a list of trips. *)
Theorem get_trips_call_never_binds :
  List.length (SqlText.arguments sqlQuery) = 9%nat
  /\ (forall p, List.length (SqlText.arguments (sqlInline p)) = 9%nat)
  /\ List.length (SqlText.parameters get_trips_macro) = 8%nat
  /\ ~ In "input_minute_arrival"%string (SqlText.parameters get_trips_macro)
  /\ SqlText.binds [get_trips_macro] sqlQuery = false
  /\ (forall p, SqlText.binds [get_trips_macro] (sqlInline p) = false)
  /\ forall env c p,
      exists message,
        executeTripQuery env (duckdb [get_trips_macro] c) p = Js.Thrown message.
Proof.
  repeat split; try reflexivity.
  - simpl. intros H. repeat (destruct H as [H|H]; [discriminate|]). destruct H.
  - intros env c p. unfold executeTripQuery, ensureDuckDB, ensureMacroExecuted,
      ensureServicesFileRegistered, Js.step.
    destruct (duckdb_failure env) as [m|]; simpl; [now exists m|].
    destruct (macro_failure env) as [m|]; simpl; [now exists m|].
    destruct (negb ((1 <=? dayOfWeek p) && (dayOfWeek p <=? 7))) eqn:Edow; simpl;
      [eexists; reflexivity|].
    destruct (fetch_failure env (dayOfWeek p)) as [m|]; simpl; [now exists m|].
    destruct (bind_error_after c <? default_timeout); eexists; reflexivity.
Qed.

(** The error of C1 comes from the count of parameters alone: the same
    engine, with a macro of nine parameters, answers the same call. *)
Example nine_parameters_bind :
  executeTripQuery all_reachable (duckdb [nine_parameter_macro] two_seconds) monday
  = Js.Returned one_trip.
Proof. reflexivity. Qed.

(** C2, as stated, fails: on the fixture of Scenario A the first leg
    arrives in the quarter of 08:30 and, with no layover, the second leg
    leaves in the quarter of 09:00; the recursive member joins nothing and
    the macro returns no trip. *)
Lemma scenario_a_returns_no_trip :
  planning_seed Fixture.query_a
    (train_schedule Fixture.query_a Fixture.scenario_a) Fixture.stations_abc
  = [seed_row (with_travel_time
                 (Fixture.service "A" "B" "mA" "mB" "p1" "p1" 480 510),
               Fixture.station "B" "mB" "p1" 5)]
  /\ time_compatible Fixture.query_a
       (seed_row (with_travel_time
                    (Fixture.service "A" "B" "mA" "mB" "p1" "p1" 480 510),
                  Fixture.station "B" "mB" "p1" 5))
       (with_travel_time (Fixture.service "B" "C" "mB" "mC" "p1" "p2" 540 570))
     = false
  /\ get_trips Fixture.query_a
       {| train_services := fun _ => Some Fixture.scenario_a;
          train_stations := Fixture.stations_abc |}
     = Some [].
Proof. repeat split; reflexivity. Qed.

(** C2, amended.  On the fixture of Scenario A (legs A to B 08:00-08:30 and
    B to C 09:00-09:30, no layover, three municipalities, query from A at
    08:00 to C arriving in hour 9) the search returns nothing, the quarters
    08:30 and 09:00 being different.  With the second leg leaving at 08:30
    and arriving at 09:00 it returns exactly the path A, B, C, of 60
    minutes of travel. *)
Theorem scenario_a_needs_the_same_quarter :
  trips Fixture.query_a Fixture.scenario_a Fixture.stations_abc = []
  /\ quarter (510 + 60 * input_layover_time Fixture.query_a) <> quarter 540
  /\ trips Fixture.query_a Fixture.scenario_a_tight Fixture.stations_abc
     = [{| Trips.path := ["A"; "B"; "C"]%string;
           Trips.time_schedule := [480; 510; 510; 540];
           Trips.no_overlaps := 0 |}]
  /\ map OptimalPaths.travel_time
         (ranking Fixture.query_a Fixture.scenario_a_tight Fixture.stations_abc)
     = [60].
Proof. repeat split; try reflexivity. vm_compute. discriminate. Qed.

(** C3. For a row [p] of the working table that is not terminated and a
    leg [ts] of the Service Graph leaving the station [p] ends at: the
    join's time test holds exactly when the quarter of [p]'s arrival plus
    the layover hours is the quarter of [ts]'s departure; the recursive
    member extends [p] by [ts] exactly when, besides, the station file has
    the arrival station and one branch of the WHERE holds; and with
    different quarters [ts] never extends [p]. *)
Theorem extension_needs_the_same_quarter
        q sched stations working (p : Planning.row) (ts : Schedule.row) :
  In p working ->
  Planning.end_reached p = 0 ->
  In ts sched ->
  Schedule.from_station_code ts = Planning.to_station_code p ->
  (time_compatible q p ts = true <->
   quarter (Planning.arrival_time_tb p + 60 * input_layover_time q)
   = quarter (Schedule.departure_time_tb ts))
  /\ (forall tss,
        In (p, ts, tss) (planning_join q sched stations working) <->
        quarter (Planning.arrival_time_tb p + 60 * input_layover_time q)
        = quarter (Schedule.departure_time_tb ts)
        /\ In tss stations
        /\ Schedule.to_station_code ts = Stations.station_code tss
        /\ (explores q p ts || reaches q ts) = true)
  /\ (quarter (Planning.arrival_time_tb p + 60 * input_layover_time q)
      <> quarter (Schedule.departure_time_tb ts) ->
      forall r, In r (planning_join q sched stations working) ->
                fst r <> (p, ts)).
Proof.
  intros Hp Hopen Hts Hcont.
  split; [apply time_compatible_spec|]. split.
  - intros tss. rewrite in_planning_join, time_compatible_spec.
    intuition congruence.
  - intros Hq [[p' ts'] tss] Hr Heq. simpl in Heq. inversion Heq; subst.
    apply in_planning_join in Hr.
    destruct Hr as (_ & _ & _ & _ & Hc & _). apply time_compatible_spec in Hc.
    contradiction.
Qed.

Lemma extension_needs_the_same_quarter_witness :
  In (seed_row (with_travel_time
                  (Fixture.service "A" "B" "mA" "mB" "p1" "p1" 480 510),
                Fixture.station "B" "mB" "p1" 5),
      with_travel_time (Fixture.service "B" "C" "mB" "mC" "p1" "p2" 510 540),
      Fixture.station "C" "mC" "p2" 7)
     (planning_join Fixture.query_a
        (train_schedule Fixture.query_a Fixture.scenario_a_tight)
        Fixture.stations_abc
        (planning_seed Fixture.query_a
           (train_schedule Fixture.query_a Fixture.scenario_a_tight)
           Fixture.stations_abc)) <->
  quarter (510 + 60 * 0) = quarter 510
  /\ In (Fixture.station "C" "mC" "p2" 7) Fixture.stations_abc
  /\ "C"%string = "C"%string
  /\ (explores Fixture.query_a
        (seed_row (with_travel_time
                     (Fixture.service "A" "B" "mA" "mB" "p1" "p1" 480 510),
                   Fixture.station "B" "mB" "p1" 5))
        (with_travel_time (Fixture.service "B" "C" "mB" "mC" "p1" "p2" 510 540))
      || reaches Fixture.query_a
           (with_travel_time (Fixture.service "B" "C" "mB" "mC" "p1" "p2" 510 540)))
     = true.
Proof.
  refine (proj1 (proj2 (extension_needs_the_same_quarter
            Fixture.query_a
            (train_schedule Fixture.query_a Fixture.scenario_a_tight)
            Fixture.stations_abc
            (planning_seed Fixture.query_a
               (train_schedule Fixture.query_a Fixture.scenario_a_tight)
               Fixture.stations_abc)
            (seed_row (with_travel_time
                         (Fixture.service "A" "B" "mA" "mB" "p1" "p1" 480 510),
                       Fixture.station "B" "mB" "p1" 5))
            (with_travel_time (Fixture.service "B" "C" "mB" "mC" "p1" "p2" 510 540))
            _ _ _ _)) (Fixture.station "C" "mC" "p2" 7)).
  - vm_compute. left. reflexivity.
  - reflexivity.
  - vm_compute. right. left. reflexivity.
  - reflexivity.
Defined.

(** C4. The Service Graph of a query holds the legs of the day's file whose
    travel time (arrival minus departure) is between 15 and 60 minutes and
    which do not land in the destination municipality at a station other
    than the destination, and nothing else; every returned path is a chain
    of legs of the Service Graph, each of 15 to 60 minutes. *)
Theorem service_graph_keeps_legal_legs q parquet stations :
  (forall s,
      In (with_travel_time s) (train_schedule q parquet) <->
      In s parquet
      /\ 15 <= Services.arrival_time_tb s - Services.departure_time_tb s <= 60
      /\ ~ (Services.to_municipality_sk s = input_to_municipality_sk q
            /\ Services.to_station_code s <> input_to_station_code q))
  /\ (forall r, In r (train_schedule q parquet) ->
                exists s, In s parquet /\ r = with_travel_time s)
  /\ (forall t, In t (trips q parquet stations) ->
                exists legs,
                  Trips.path t
                  = hd EmptyString (map Schedule.from_station_code legs)
                    :: map Schedule.to_station_code legs
                  /\ Trips.time_schedule t = flat_map leg_times legs
                  /\ Forall (fun l => In l (train_schedule q parquet)
                                      /\ 15 <= Schedule.travel_time l <= 60) legs).
Proof.
  split; [|split].
  - intros s. rewrite in_train_schedule, legal_spec. split.
    + intros [[s' [Hs' Heq]] Hl]. inversion Heq; subst s'. tauto.
    + intros (Hs & Ht & Hm). split; [now exists s|]. tauto.
  - intros r Hr. apply in_train_schedule in Hr. tauto.
  - intros t Ht. unfold trips in Ht. apply in_map_iff in Ht.
    destruct Ht as [o [<- Ho]]. apply in_ranking in Ho.
    destruct Ho as (preceding & p & n & Hp & _ & ->).
    apply layer_built in Hp. destruct Hp as [c [Hc _]].
    destruct Hc as (_ & Hall & Hpath & _ & Htimes & _).
    exists (map fst c). simpl. repeat split; try assumption.
    apply Forall_forall. intros l Hl. apply in_map_iff in Hl.
    destruct Hl as [j [<- Hj]]. rewrite Forall_forall in Hall.
    destruct (Hall j Hj) as [Hin _]. split; [assumption|].
    apply in_train_schedule in Hin. destruct Hin as [_ Hlegal].
    apply legal_spec in Hlegal. tauto.
Qed.

(** C5, as stated, fails.  In the day file below the first leg runs from A
    to A2 within the municipality mA; the non-recursive member takes the
    two municipalities of a first leg as they are, and the one path
    returned holds mA twice among its stops before the last. *)
Lemma first_leg_may_stay_in_a_municipality :
  map (fun o => (OptimalPaths.path o, OptimalPaths.municipalities o))
      (ranking Fixture.query_d within_a_municipality stations_a_a2_d)
  = [(["A"; "A2"; "D"]%string, ["mA"; "mA"; "mD"]%string)]
  /\ Exists (fun o => ~ NoDup (removelast (OptimalPaths.municipalities o)))
            (ranking Fixture.query_d within_a_municipality stations_a_a2_d).
Proof.
  split; [reflexivity|]. apply Exists_cons_hd. simpl.
  intros H. inversion H as [|x l Hx _]; subst. apply Hx. now left.
Qed.

(** C5, amended.  The recursive member extends a row [p] by a leg [ts]
    only when either the municipality [ts] arrives in is none of the
    municipalities of [p] but the last and is not the destination
    municipality, or [ts] arrives at the destination station in the
    requested hour of arrival; and when every leg of the day file runs
    from one municipality to another, no returned path repeats a
    municipality among all its stops but the last.  The files the ETL
    writes are such files. *)
Theorem extension_municipality_rule q stations :
  (forall sched working p ts tss,
      In (p, ts, tss) (planning_join q sched stations working) ->
      (~ In (Schedule.to_municipality_sk ts) (removelast (Planning.municipalities p))
       /\ Schedule.to_municipality_sk ts <> input_to_municipality_sk q)
      \/ (Schedule.to_station_code ts = input_to_station_code q
          /\ Sql.hour (Schedule.arrival_time_tb ts) = input_hour_arrival q))
  /\ (forall parquet o,
         (forall s, In s parquet ->
                    Services.from_municipality_sk s <> Services.to_municipality_sk s) ->
         In o (ranking q parquet stations) ->
         NoDup (removelast (OptimalPaths.municipalities o)))
  /\ (forall d rows s,
         In s (Etl.partition d rows) ->
         Services.from_municipality_sk s <> Services.to_municipality_sk s).
Proof.
  split; [|split].
  - intros sched working p ts tss Hj. apply in_planning_join in Hj.
    destruct Hj as (_ & _ & _ & _ & _ & _ & Hw & _).
    apply orb_true_iff in Hw. destruct Hw as [Hw|Hw].
    + left. apply explores_spec in Hw. destruct Hw as [Hnew Hdest].
      split; [|assumption]. intros Hin. apply Hnew. now apply in_removelast.
    + right. now apply reaches_spec.
  - intros parquet o Hlegs Ho. apply in_ranking in Ho.
    destruct Ho as (preceding & p & n & Hp & _ & ->). simpl.
    eapply layer_municipalities; [|exact Hp].
    intros ts Hts. apply in_train_schedule in Hts.
    destruct Hts as [[s [Hs ->]] _]. exact (Hlegs s Hs).
  - intros d rows s Hs. unfold Etl.partition in Hs. apply in_map_iff in Hs.
    destruct Hs as [e [<- He]]. apply filter_In in He. destruct He as [_ He].
    apply andb_true_iff in He. destruct He as [_ He].
    unfold Etl.kept in He. apply andb_true_iff in He. destruct He as [He _].
    apply negb_true_iff, String.eqb_neq in He. exact He.
Qed.

(** C6. One evaluation of the recursive member produces one row for every
    joined row that passes its [WHERE], and every row produced gets as
    [end_reached] the maximum, over all the rows produced, of the flag
    "arrives at the destination station in the requested hour".  So as
    soon as one row of the batch arrives, every row of the batch is
    produced marked, the rows that do not arrive themselves included, and
    the next evaluation extends none of them; when no row of the batch
    arrives, every row is produced unmarked. *)
Theorem end_reached_is_batch_wide q sched stations working :
  (forall r, In r (planning_step q sched stations working) ->
             Planning.end_reached r
             = Sql.window_max
                 (map (fun j => Sql.int_of_bool (reaches q (snd (fst j))))
                      (planning_join q sched stations working)))
  /\ ((exists j, In j (planning_join q sched stations working)
                 /\ reaches q (snd (fst j)) = true) ->
      (forall r, In r (planning_step q sched stations working) ->
                 Planning.end_reached r = 1)
      /\ planning_step q sched stations (planning_step q sched stations working) = [])
  /\ ((forall j, In j (planning_join q sched stations working) ->
                 reaches q (snd (fst j)) = false) ->
      forall r, In r (planning_step q sched stations working) ->
                Planning.end_reached r = 0)
  /\ List.length (planning_step q sched stations working)
     = List.length (planning_join q sched stations working)
  /\ (forall r,
         In r (planning_step q sched stations working) <->
         exists j, In j (planning_join q sched stations working)
                   /\ r = extend
                            (Sql.window_max
                               (map (fun j => Sql.int_of_bool (reaches q (snd (fst j))))
                                    (planning_join q sched stations working)))
                            j)
  /\ ((exists j, In j (planning_join q sched stations working)
                 /\ reaches q (snd (fst j)) = true) ->
      forall j, In j (planning_join q sched stations working) ->
                In (extend 1 j) (planning_step q sched stations working))
  /\ ((forall j, In j (planning_join q sched stations working) ->
                 reaches q (snd (fst j)) = false) ->
      forall j, In j (planning_join q sched stations working) ->
                In (extend 0 j) (planning_step q sched stations working)).
Proof.
  assert (Hflag : forall r, In r (planning_step q sched stations working) ->
                            Planning.end_reached r
                            = batch_flag q (planning_join q sched stations working)).
  { intros r Hr. apply in_planning_step in Hr. destruct Hr as [j [_ ->]]. reflexivity. }
  assert (Hmade : forall j, In j (planning_join q sched stations working) ->
                            In (extend (batch_flag q (planning_join q sched stations working)) j)
                               (planning_step q sched stations working)).
  { intros j Hj. apply in_planning_step. now exists j. }
  split; [exact Hflag|]. split; [|split; [|split; [|split; [|split]]]].
  - intros Hex. apply batch_flag_one in Hex.
    assert (Hall : forall r, In r (planning_step q sched stations working) ->
                             Planning.end_reached r = 1).
    { intros r Hr. rewrite (Hflag r Hr). exact Hex. }
    split; [exact Hall|].
    apply planning_step_closed. intros r Hr. rewrite (Hall r Hr). discriminate.
  - intros Hnone r Hr. rewrite (Hflag r Hr). now apply batch_flag_zero.
  - unfold planning_step. apply length_map.
  - intros r. apply in_planning_step.
  - intros Hex j Hj. apply batch_flag_one in Hex. rewrite <- Hex. now apply Hmade.
  - intros Hnone j Hj. apply batch_flag_zero in Hnone. rewrite <- Hnone.
    now apply Hmade.
Qed.

(** On [siblings] the first evaluation of the recursive member joins the
    leg from B to D, which arrives, and the leg from B to C, which does
    not: the row through C is produced marked, and nothing extends it. *)
Lemma end_reached_is_batch_wide_witness :
  reaches Fixture.query_d (snd (fst sibling_to_c)) = false
  /\ In (extend 1 sibling_to_c)
        (planning_step Fixture.query_d (train_schedule Fixture.query_d siblings)
           Fixture.stations_abcd
           (planning_seed Fixture.query_d (train_schedule Fixture.query_d siblings)
              Fixture.stations_abcd))
  /\ planning_step Fixture.query_d (train_schedule Fixture.query_d siblings)
       Fixture.stations_abcd
       (planning_step Fixture.query_d (train_schedule Fixture.query_d siblings)
          Fixture.stations_abcd
          (planning_seed Fixture.query_d (train_schedule Fixture.query_d siblings)
             Fixture.stations_abcd))
     = [].
Proof.
  assert (Hex : exists j,
             In j (planning_join Fixture.query_d
                     (train_schedule Fixture.query_d siblings) Fixture.stations_abcd
                     (planning_seed Fixture.query_d
                        (train_schedule Fixture.query_d siblings)
                        Fixture.stations_abcd))
             /\ reaches Fixture.query_d (snd (fst j)) = true).
  { exists (fst (fst sibling_to_c),
            with_travel_time
              (Fixture.service "B" "D" "mB" "mD" "p1" "p1"
                 (Fixture.at_ 8 30) (Fixture.at_ 9 0)),
            Fixture.station "D" "mD" "p1" 2).
    split; [vm_compute; left; reflexivity|reflexivity]. }
  destruct (end_reached_is_batch_wide Fixture.query_d
              (train_schedule Fixture.query_d siblings) Fixture.stations_abcd
              (planning_seed Fixture.query_d (train_schedule Fixture.query_d siblings)
                 Fixture.stations_abcd))
    as (_ & Hnext & _ & _ & _ & Hmarked & _).
  split; [reflexivity|]. split.
  - apply (Hmarked Hex). vm_compute. right. left. reflexivity.
  - exact (proj2 (Hnext Hex)).
Defined.

(** So the path A B C D of [siblings], a chain of legal legs that arrives
    in the requested hour, is not among the trips. *)
Example siblings_are_cut_short :
  map Trips.path (trips Fixture.query_d siblings Fixture.stations_abcd)
  = [["A"; "B"; "D"]%string]
  /\ map Planning.path
       (planning Fixture.query_d (train_schedule Fixture.query_d siblings)
          Fixture.stations_abcd)
     = [["A"; "B"]; ["A"; "B"; "D"]; ["A"; "B"; "C"]]%string.
Proof. split; reflexivity. Qed.

Lemma scan_paths preceding rows :
  map OptimalPaths.path (scan preceding rows) = map DistinctPaths.path rows.
Proof.
  revert preceding. induction rows as [|d rows IH]; intros preceding; simpl;
    [reflexivity|]. now rewrite IH.
Qed.

Lemma trips_keys q parquet stations :
  Permutation
    (map (fun t => Sql.list_sort (Trips.path t)) (trips q parquet stations))
    (map station_key (qualify [] (terminated q parquet stations))).
Proof.
  unfold trips, ranking, ranked, optimal_paths, distinct_paths.
  fold (terminated q parquet stations).
  set (kept := qualify [] (terminated q parquet stations)).
  rewrite map_map. simpl.
  rewrite <- (map_map OptimalPaths.path Sql.list_sort).
  rewrite <- (SqlFacts.order_by_perm final_order).
  rewrite scan_paths.
  rewrite <- (SqlFacts.order_by_perm more_provinces).
  rewrite !map_map. reflexivity.
Qed.

(** C7, as stated, fails.  The window of [distinct_paths] orders the rows
    of a group by [travel_time] and by nothing else, so which of two paths
    of a group with the same travel time gets number 1 depends on the
    order in which the rows reach the window.  The day file [two_orders]
    holds the stations A, B, C, D in two orders of 60 minutes each, found
    in the order A B C D, A C B D: handed to the window in the opposite
    order, the path found second is kept, and the same file with its rows
    in the opposite order returns the other path. *)
Lemma kept_path_depends_on_the_row_order :
  map (fun r => (Planning.path r, Planning.travel_time r))
      (terminated Fixture.query_d two_orders Fixture.stations_abcd)
  = [(["A"; "B"; "C"; "D"]%string, 60); (["A"; "C"; "B"; "D"]%string, 60)]
  /\ map Planning.path
       (qualify [] (terminated Fixture.query_d two_orders Fixture.stations_abcd))
     = [["A"; "B"; "C"; "D"]%string]
  /\ map Planning.path
       (qualify [] (rev (terminated Fixture.query_d two_orders Fixture.stations_abcd)))
     = [["A"; "C"; "B"; "D"]%string]
  /\ map Trips.path (trips Fixture.query_d two_orders Fixture.stations_abcd)
     = [["A"; "B"; "C"; "D"]%string]
  /\ map Trips.path (trips Fixture.query_d (rev two_orders) Fixture.stations_abcd)
     = [["A"; "C"; "B"; "D"]%string].
Proof. repeat split; reflexivity. Qed.

(** C7, amended.  Two rows are of one group, that is, have the same sorted
    sequence of stations, exactly when the path of one is a rearrangement
    of the path of the other.  Whatever the order [seen] in which the rows
    that end at the destination station in the requested hour reach the
    window of [distinct_paths]: every such row has a kept row of its group
    that is no slower; a kept row is one of these rows and no slower than
    any row of its group; no two kept rows are of one group; which of the
    rows of a group that are as fast is kept is left to the order [seen],
    of which it is the first.  And so no two returned trips are
    rearrangements of one another. *)
Theorem distinct_paths_keeps_a_fastest q parquet stations seen :
  Permutation seen (terminated q parquet stations) ->
  (forall a b, station_key a = station_key b <->
               Permutation (Planning.path a) (Planning.path b))
  /\ (forall r, In r (terminated q parquet stations) ->
                exists k, In k (qualify [] seen)
                          /\ Permutation (Planning.path k) (Planning.path r)
                          /\ Planning.travel_time k <= Planning.travel_time r)
  /\ (forall k, In k (qualify [] seen) ->
                In k (terminated q parquet stations)
                /\ forall r, In r (terminated q parquet stations) ->
                             Permutation (Planning.path r) (Planning.path k) ->
                             Planning.travel_time k <= Planning.travel_time r)
  /\ (forall i j k1 k2,
         nth_error (qualify [] seen) i = Some k1 ->
         nth_error (qualify [] seen) j = Some k2 ->
         Permutation (Planning.path k1) (Planning.path k2) -> i = j)
  /\ (forall k, In k (qualify [] seen) ->
                exists l1 l2,
                  seen = l1 ++ k :: l2
                  /\ (forall r, In r l1 ->
                                Permutation (Planning.path r) (Planning.path k) ->
                                Planning.travel_time k < Planning.travel_time r)
                  /\ (forall r, In r l2 ->
                                Permutation (Planning.path r) (Planning.path k) ->
                                Planning.travel_time k <= Planning.travel_time r))
  /\ distinct_paths q (planning q (train_schedule q parquet) stations)
     = map distinct_row (qualify [] (terminated q parquet stations))
  /\ (forall i j t1 t2,
         nth_error (trips q parquet stations) i = Some t1 ->
         nth_error (trips q parquet stations) j = Some t2 ->
         Permutation (Trips.path t1) (Trips.path t2) -> i = j).
Proof.
  intros Hseen.
  assert (Hkey : forall a b, station_key a = station_key b <->
                             Permutation (Planning.path a) (Planning.path b)).
  { intros a b. unfold station_key. apply list_sort_eq_iff. }
  assert (Hfirst : forall k, In k (qualify [] seen) ->
            exists l1 l2,
              seen = l1 ++ k :: l2
              /\ (forall r, In r l1 ->
                            Permutation (Planning.path r) (Planning.path k) ->
                            Planning.travel_time k < Planning.travel_time r)
              /\ (forall r, In r l2 ->
                            Permutation (Planning.path r) (Planning.path k) ->
                            Planning.travel_time k <= Planning.travel_time r)).
  { intros k Hk. destruct (in_qualify _ _ _ Hk) as (l1 & l2 & Hsplit & Hn).
    exists l1, l2. split; [assumption|]. simpl in Hn.
    apply row_number_one in Hn. destruct Hn as [H1 H2].
    split; intros r Hr Hp; [apply H1|apply H2]; try assumption; now apply Hkey. }
  split; [exact Hkey|]. split; [|split; [|split; [|split; [|split]]]].
  - intros r Hr.
    assert (Hr' : In r seen)
      by (apply (Permutation_in r (Permutation_sym Hseen)); exact Hr).
    destruct (qualify_covers seen [] r Hr') as [(k & Hk & Hkr & Ht)|[b [[] _]]].
    exists k. split; [assumption|]. split; [now apply Hkey|assumption].
  - intros k Hk. split.
    + apply (Permutation_in k Hseen). now apply qualify_incl in Hk.
    + intros r Hr Hp.
      assert (Hr' : In r seen)
        by (apply (Permutation_in r (Permutation_sym Hseen)); exact Hr).
      destruct (Hfirst k Hk) as (l1 & l2 & Hsplit & H1 & H2).
      rewrite Hsplit in Hr'. apply in_app_or in Hr'.
      destruct Hr' as [Hr'|[->|Hr']].
      * specialize (H1 r Hr' Hp). lia.
      * lia.
      * exact (H2 r Hr' Hp).
  - intros i j k1 k2 Hi Hj Hp. apply Hkey in Hp.
    pose proof (qualify_keys_nodup [] seen) as Hnd.
    assert (Hi' : nth_error (map station_key (qualify [] seen)) i
                  = Some (station_key k1))
      by (rewrite nth_error_map, Hi; reflexivity).
    assert (Hj' : nth_error (map station_key (qualify [] seen)) j
                  = Some (station_key k2))
      by (rewrite nth_error_map, Hj; reflexivity).
    rewrite (proj1 (NoDup_nth_error _) Hnd i j); [reflexivity| |congruence].
    apply nth_error_Some. congruence.
  - exact Hfirst.
  - reflexivity.
  - assert (Hnd : NoDup (map (fun t => Sql.list_sort (Trips.path t))
                             (trips q parquet stations))).
    { apply (Permutation_NoDup (Permutation_sym (trips_keys q parquet stations))).
      apply qualify_keys_nodup. }
    intros i j t1 t2 Hi Hj Hperm.
    apply list_sort_eq_iff in Hperm.
    assert (Hi' : nth_error (map (fun t => Sql.list_sort (Trips.path t))
                                 (trips q parquet stations)) i
                  = Some (Sql.list_sort (Trips.path t1)))
      by (rewrite nth_error_map, Hi; reflexivity).
    assert (Hj' : nth_error (map (fun t => Sql.list_sort (Trips.path t))
                                 (trips q parquet stations)) j
                  = Some (Sql.list_sort (Trips.path t2)))
      by (rewrite nth_error_map, Hj; reflexivity).
    rewrite (proj1 (NoDup_nth_error _) Hnd i j); [reflexivity| |congruence].
    apply nth_error_Some. congruence.
Qed.

(** On [two_orders], with the rows in the order opposite to that of
    [planning]: the kept row is the path A C B D. *)
Lemma distinct_paths_keeps_a_fastest_witness :
  exists k, In k (qualify [] (rev (terminated Fixture.query_d two_orders
                                     Fixture.stations_abcd)))
            /\ Permutation (Planning.path k) ["A"; "C"; "B"; "D"]%string
            /\ Planning.travel_time k <= 60.
Proof.
  destruct (@distinct_paths_keeps_a_fastest
              Fixture.query_d two_orders Fixture.stations_abcd
              (rev (terminated Fixture.query_d two_orders Fixture.stations_abcd))
              (Permutation_sym (Permutation_rev _)))
    as (_ & Hcover & _).
  apply (Hcover (extend 1
                   (extend 0
                      (seed_row
                         (with_travel_time
                            (Fixture.service "A" "C" "mA" "mC" "p1" "p1"
                               (Fixture.at_ 8 0) (Fixture.at_ 8 15)),
                          Fixture.station "C" "mC" "p1" 7),
                       with_travel_time
                         (Fixture.service "C" "B" "mC" "mB" "p1" "p1"
                            (Fixture.at_ 8 15) (Fixture.at_ 8 30)),
                       Fixture.station "B" "mB" "p1" 5),
                    with_travel_time
                      (Fixture.service "B" "D" "mB" "mD" "p1" "p1"
                         (Fixture.at_ 8 30) (Fixture.at_ 9 0)),
                    Fixture.station "D" "mD" "p1" 2))).
  vm_compute. right. left. reflexivity.
Defined.

(** Scenario D: two orders of the same stations, of 50 and 45 minutes. *)
Example scenario_d_keeps_the_faster :
  distinct_paths Fixture.query_d [Fixture.through "B" "C" 50; Fixture.through "C" "B" 45]
  = [distinct_row (Fixture.through "C" "B" 45)]
  /\ distinct_paths Fixture.query_d
       [Fixture.through "B" "C" 45; Fixture.through "C" "B" 45]
     = [distinct_row (Fixture.through "B" "C" 45)].
Proof. split; reflexivity. Qed.

(** C8, as stated, fails: the two routes from A to D below visit one
    province each, and the window gives the first an empty frame and the
    second a frame that holds the first; they do not see the same
    footprint, and their scores are 0 and 2. *)
Lemma tied_paths_see_different_footprints :
  map (fun o => (OptimalPaths.path o, OptimalPaths.m_p o,
                 OptimalPaths.m_m o, no_overlaps o))
      (ranking Fixture.query_d Fixture.two_routes Fixture.stations_abcd)
  = [(["A"; "B"; "D"]%string, 1, None, 0);
     (["A"; "C"; "D"]%string, 1, Some [["mA"; "mB"; "mD"]%string], 2)].
Proof. reflexivity. Qed.

(** C8, amended.  [optimal_paths] puts the deduplicated paths in an order
    of descending count of distinct provinces; the footprint of a path
    holds the municipalities of every path standing before it in this
    order, paths of the same count included, and not its own; its score is
    the number of its distinct municipalities found in the footprint. *)
Theorem footprint_holds_the_rows_before dp l1 (d : DistinctPaths.row) l2 :
  Sql.order_by more_provinces dp = l1 ++ d :: l2 ->
  Permutation dp (l1 ++ d :: l2)
  /\ Forall (fun e => Sql.len (DistinctPaths.provinces d)
                      <= Sql.len (DistinctPaths.provinces e)) l1
  /\ Forall (fun e => Sql.len (DistinctPaths.provinces e)
                      <= Sql.len (DistinctPaths.provinces d)) l2
  /\ exists o,
      nth_error (optimal_paths dp) (List.length l1) = Some o
      /\ OptimalPaths.path o = DistinctPaths.path d
      /\ OptimalPaths.m_p o = Sql.len (DistinctPaths.provinces d)
      /\ OptimalPaths.m_m o = array_agg (map DistinctPaths.municipalities l1)
      /\ no_overlaps o
         = overlap_count (DistinctPaths.municipalities d)
                         (map DistinctPaths.municipalities l1).
Proof.
  intros Hsplit.
  pose proof (SqlFacts.order_by_sorted more_provinces more_provinces_total
                more_provinces_trans dp) as Hs.
  rewrite Hsplit in Hs. apply sorted_around in Hs. destruct Hs as [H1 H2].
  split; [rewrite <- Hsplit; apply SqlFacts.order_by_perm|].
  split; [|split].
  - eapply Forall_impl; [|exact H1]. intros e He.
    unfold more_provinces in He. now apply Z.leb_le in He.
  - eapply Forall_impl; [|exact H2]. intros e He.
    unfold more_provinces in He. now apply Z.leb_le in He.
  - exists (optimal_row l1 d). unfold optimal_paths. rewrite Hsplit.
    rewrite scan_nth. simpl. repeat split. apply no_overlaps_count.
Qed.

Lemma footprint_holds_the_rows_before_witness :
  Permutation [Fixture.via "B" 5; Fixture.via "C" 7]
              ([Fixture.via "B" 5] ++ Fixture.via "C" 7 :: [])
  /\ Forall (fun e => Sql.len (DistinctPaths.provinces (Fixture.via "C" 7))
                      <= Sql.len (DistinctPaths.provinces e)) [Fixture.via "B" 5]
  /\ Forall (fun e => Sql.len (DistinctPaths.provinces e)
                      <= Sql.len (DistinctPaths.provinces (Fixture.via "C" 7))) []
  /\ exists o,
      nth_error (optimal_paths [Fixture.via "B" 5; Fixture.via "C" 7])
                (List.length [Fixture.via "B" 5]) = Some o
      /\ OptimalPaths.path o = DistinctPaths.path (Fixture.via "C" 7)
      /\ OptimalPaths.m_p o = Sql.len (DistinctPaths.provinces (Fixture.via "C" 7))
      /\ OptimalPaths.m_m o
         = array_agg (map DistinctPaths.municipalities [Fixture.via "B" 5])
      /\ no_overlaps o
         = overlap_count (DistinctPaths.municipalities (Fixture.via "C" 7))
                         (map DistinctPaths.municipalities [Fixture.via "B" 5]).
Proof.
  apply (footprint_holds_the_rows_before
           [Fixture.via "B" 5; Fixture.via "C" 7]
           [Fixture.via "B" 5] (Fixture.via "C" 7) []).
  reflexivity.
Defined.

(** C9. The trips are returned in the order of the final SELECT: by
    ascending [no_overlaps], then by descending [number_of_monuments], then
    by ascending [travel_time]; and the [number_of_monuments] of a path is
    the sum of the monuments of the station rows joined to its stations
    after the first. *)
Theorem trips_are_ranked q parquet stations :
  trips q parquet stations = map trip_row (ranking q parquet stations)
  /\ StronglySorted ranks_before (ranking q parquet stations)
  /\ Permutation
       (optimal_paths
          (distinct_paths q (planning q (train_schedule q parquet) stations)))
       (ranking q parquet stations)
  /\ (forall o, In o (ranking q parquet stations) ->
                exists visited,
                  Forall (fun s => In s stations) visited
                  /\ tl (OptimalPaths.path o) = map Stations.station_code visited
                  /\ OptimalPaths.number_of_monuments o
                     = sum_Z (map Stations.number_of_monuments visited)).
Proof.
  split; [reflexivity|]. split; [|split].
  - unfold ranking, ranked.
    pose proof (SqlFacts.order_by_sorted final_order final_order_total final_order_trans
                  (optimal_paths
                     (distinct_paths q
                        (planning q (train_schedule q parquet) stations)))) as Hs.
    induction Hs as [|o l Hs IH Hall]; constructor; [assumption|].
    eapply Forall_impl; [|exact Hall]. intros b Hb. now apply final_order_spec.
  - unfold ranking, ranked. apply SqlFacts.order_by_perm.
  - intros o Ho. apply in_ranking in Ho.
    destruct Ho as (preceding & p & n & Hp & _ & ->).
    apply layer_built in Hp. destruct Hp as [c [Hc _]].
    destruct Hc as (_ & Hall & Hpath & _ & _ & _ & _ & Hmon & _).
    exists (map snd c). simpl. rewrite Hpath. simpl. repeat split.
    + apply Forall_forall. intros s Hs. apply in_map_iff in Hs.
      destruct Hs as [j [<- Hj]]. rewrite Forall_forall in Hall.
      destruct (Hall j Hj) as (_ & Hin & _). exact Hin.
    + rewrite !map_map. apply map_ext_in. intros j Hj.
      rewrite Forall_forall in Hall. destruct (Hall j Hj) as (_ & _ & Heq).
      exact Heq.
    + exact Hmon.
Qed.

(** * The time budget of [executeTripQuery] *)

Section Timeout.

Variable env : environment.
Variable conn : connection.


(** The message the timer rejects with is not the one the handler
    compares with: they differ in the case of the first letter. *)
Lemma timeout_message_is_not_recognised :
  (timeout_message =? "Unable to plan trip, increase the layover time")%string = false.
Proof. reflexivity. Qed.

(** So when the prepared statement runs out of time, the handler sends
    the same call again, written inline, with a budget of its own. *)
Lemma expired_statement_falls_back p :
  duckdb_failure env = None ->
  macro_failure env = None ->
  fetch_failure env (dayOfWeek p) = None ->
  1 <= dayOfWeek p <= 7 ->
  prepare conn sqlQuery = Js.Returned tt ->
  executeQueryWithTimeout (stmt_query conn sqlQuery (bindings p)) default_timeout
  = Js.Thrown timeout_message ->
  executeTripQuery env conn p
  = executeQueryWithTimeout (conn_query conn (sqlInline p)) default_timeout.
Proof.
  intros Hd Hm Hf Hdow Hprep Hexp.
  unfold executeTripQuery, ensureDuckDB, ensureMacroExecuted,
    ensureServicesFileRegistered, Js.step.
  rewrite Hd, Hm, Hf.
  assert (Hrange : negb ((1 <=? dayOfWeek p) && (dayOfWeek p <=? 7)) = false).
  { apply negb_false_iff, andb_true_iff. rewrite !Z.leb_le. lia. }
  rewrite Hrange. simpl. rewrite Hprep. simpl. rewrite Hexp.
  unfold Js.bind, Js.try_catch.
  rewrite timeout_message_is_not_recognised. reflexivity.
Qed.

End Timeout.

(** A connection that did prepare the statement and ran it past the
    budget would see the call evaluated a second time, inline: the handler
    does not recognise the message of the timer. *)
Example expired_statement_is_run_again :
  executeQueryWithTimeout (stmt_query slow_then_fast sqlQuery (bindings monday))
                          default_timeout
  = Js.Thrown timeout_message
  /\ executeTripQuery all_reachable slow_then_fast monday = Js.Returned one_trip.
Proof. split; reflexivity. Qed.

(** The logged run returns what [executeTripQuery] returns. *)
Lemma executeTripQuery_log_outcome env conn p :
  fst (executeTripQuery_log env conn p) = executeTripQuery env conn p.
Proof.
  unfold executeTripQuery_log, executeTripQuery, try_block.
  destruct (ensureDuckDB env) as [[]|e1]; simpl; [|reflexivity].
  destruct (ensureMacroExecuted env) as [[]|e2]; simpl; [|reflexivity].
  destruct (ensureServicesFileRegistered env (dayOfWeek p)) as [[]|e3]; simpl;
    [|reflexivity].
  destruct (prepare conn sqlQuery) as [[]|e4]; simpl.
  - destruct (executeQueryWithTimeout _ default_timeout) as [rows|e5]; simpl.
    + destruct (stmt_close conn) as [e6|]; simpl; [|reflexivity].
      destruct (e6 =? _)%string; [reflexivity|].
      destruct (negb _); reflexivity.
    + destruct (e5 =? _)%string; [reflexivity|].
      destruct (negb _); reflexivity.
  - destruct (e4 =? _)%string; [reflexivity|].
    destruct (negb _); reflexivity.
Qed.

(** The engine of the repository does not prepare the statement of
    [executeTripQuery]: the catalog holds the macro of [create_macro.sql],
    of eight parameters. *)
Lemma statement_is_not_prepared c :
  prepare (duckdb [get_trips_macro] c) sqlQuery = Js.Thrown binder_error
  /\ (binder_error =? "Unable to plan trip, increase the layover time")%string = false.
Proof. split; reflexivity. Qed.



(** * More on the Path Expander: whole trips *)

Section Trips.

Variable q : query.
Variable sched : list Schedule.row.
Variable stations : list Stations.row.

Lemma connected_snoc legs ts :
  legs <> [] ->
  connected q legs ->
  last (map Schedule.to_station_code legs) EmptyString = Schedule.from_station_code ts ->
  quarter (last (map Schedule.arrival_time_tb legs) 0 + 60 * input_layover_time q)
  = quarter (Schedule.departure_time_tb ts) ->
  connected q (legs ++ [ts]).
Proof.
  induction legs as [|l1 legs IH]; [congruence|]. intros _ Hc Hto Harr.
  destruct legs as [|l2 legs].
  - simpl in *. auto.
  - change ((l1 :: l2 :: legs) ++ [ts]) with (l1 :: (l2 :: legs) ++ [ts]).
    simpl in Hc. destruct Hc as (H1 & H2 & H3).
    simpl. repeat split; try assumption.
    apply IH; [discriminate|assumption|exact Hto|exact Harr].
Qed.

Lemma starts_as_asked_app legs more :
  starts_as_asked q legs -> starts_as_asked q (legs ++ more).
Proof. destruct legs; simpl; tauto. Qed.

(** Every row of iteration [n] is a chain of [n + 1] connected legs whose
    first leaves the origin as asked. *)
Lemma layer_chain n r :
  In r (planning_layer q sched stations n) ->
  exists c, built_from sched stations r c
            /\ List.length c = S n
            /\ connected q (map fst c)
            /\ starts_as_asked q (map fst c).
Proof.
  revert r. induction n as [|n IH]; intros r Hr; simpl in Hr.
  - apply in_planning_seed in Hr.
    destruct Hr as (ts & tss & Hts & Htss & Hon & Hfrom & Hh & Hm & Hto & ->).
    exists [(ts, tss)]. split; [now apply seed_built|]. simpl. tauto.
  - apply in_planning_step in Hr. destruct Hr as [[[p ts] tss] [Hj ->]].
    apply in_planning_join in Hj.
    destruct Hj as (Hp & Hts & Htss & Hcont & Hcompat & Hon & _ & _).
    destruct (IH p Hp) as (c & Hc & Hlen & Hconn & Hstart).
    exists (c ++ [(ts, tss)]). split; [now apply extend_built|].
    split; [rewrite length_app; simpl; lia|].
    rewrite map_app. simpl.
    destruct Hc as (Hne & _ & _ & _ & _ & _ & _ & _ & Hto & Harr).
    split; [|now apply starts_as_asked_app].
    apply connected_snoc.
    + destruct c; [congruence|discriminate].
    + assumption.
    + congruence.
    + rewrite <- Harr. now apply time_compatible_spec.
Qed.

Lemma planning_step_nil : planning_step q sched stations [] = [].
Proof. reflexivity. Qed.

Lemma layers_after_empty n m :
  planning_layer q sched stations n = [] ->
  planning_layer q sched stations (m + n) = [].
Proof.
  intros H. induction m as [|m IH]; simpl; [assumption|].
  rewrite IH. apply planning_step_nil.
Qed.

End Trips.

Lemma leg_times_length legs :
  List.length (flat_map leg_times legs) = (2 * List.length legs)%nat.
Proof. induction legs as [|l legs IH]; simpl; [reflexivity|]. rewrite IH. lia. Qed.

(** X1. The recursion of [planning] ends by itself: the working table is
    empty after as many iterations as the Service Graph has legs, every row
    of every iteration is in [planning], and the rows of iteration [n] are
    paths of [n + 2] stations. *)
Theorem planning_reaches_a_fixpoint q sched stations :
  (forall n, (List.length sched < n)%nat -> planning_layer q sched stations n = [])
  /\ (forall n r,
         In r (planning_layer q sched stations n) ->
         In r (planning q sched stations)
         /\ (n <= List.length sched)%nat
         /\ List.length (Planning.path r) = (n + 2)%nat
         /\ List.length (Planning.time_schedule r) = (2 * (n + 1))%nat).
Proof.
  split; [intros n; apply planning_layer_empty|].
  intros n r Hr. split; [apply in_planning; now exists n|]. split.
  - destruct (Nat.lt_ge_cases (List.length sched) n) as [Hlt|Hge]; [|lia].
    rewrite (planning_layer_empty q sched stations Hlt) in Hr. destruct Hr.
  - apply layer_built in Hr. destruct Hr as [c [Hc Hlen]].
    destruct Hc as (_ & _ & Hpath & _ & Htimes & _).
    rewrite Hpath, Htimes, leg_times_length. simpl.
    rewrite !length_map, Hlen. lia.
Qed.

Lemma durations_legs legs :
  durations (flat_map leg_times legs)
  = sum_Z (map (fun l => Schedule.arrival_time_tb l - Schedule.departure_time_tb l) legs).
Proof.
  induction legs as [|l legs IH]; simpl; [reflexivity|].
  rewrite IH. reflexivity.
Qed.

Lemma quarter_close x y : quarter x = quarter y -> -14 <= y - x <= 14.
Proof.
  unfold quarter. intros H.
  pose proof (Z.div_mod x 15). pose proof (Z.div_mod y 15).
  pose proof (Z.mod_pos_bound x 15). pose proof (Z.mod_pos_bound y 15). lia.
Qed.

Lemma waits_legs q legs :
  connected q legs ->
  Forall (fun w => -14 <= w <= 14)
         (waits (input_layover_time q) (flat_map leg_times legs)).
Proof.
  induction legs as [|l1 legs IH]; simpl; [constructor|].
  destruct legs as [|l2 legs]; simpl; [constructor|].
  intros (_ & Hq & Hc). constructor.
  - apply quarter_close. exact Hq.
  - apply IH. exact Hc.
Qed.

Lemma last_map_snoc {A B} (f : A -> B) l x d : last (map f (l ++ [x])) d = f x.
Proof. rewrite map_app. simpl. apply last_last. Qed.

Lemma seed_not_arrived q sched stations p :
  In p (planning_layer q sched stations 0) -> arrived q p = false.
Proof.
  simpl. intros H. apply in_planning_seed in H.
  destruct H as (ts & tss & _ & _ & _ & _ & _ & _ & Hto & ->).
  unfold arrived. simpl. apply String.eqb_neq in Hto. now rewrite Hto.
Qed.

(** X2. Every returned trip leaves the origin station at the requested
    hour and minute, passes at least one other station and ends at the
    destination station in the requested hour of arrival; its
    [time_schedule] holds a departure and an arrival for every leg. *)
Theorem trips_go_from_origin_to_destination q parquet stations :
  Forall
    (fun t =>
       exists mid dep rest arr,
         Trips.path t = input_station_code q :: mid ++ [input_to_station_code q]
         /\ mid <> []
         /\ Trips.time_schedule t = dep :: rest ++ [arr]
         /\ Sql.hour dep = input_hour_departure q
         /\ Sql.minute dep = input_minute_departure q
         /\ Sql.hour arr = input_hour_arrival q
         /\ List.length (Trips.time_schedule t) = (2 * (List.length mid + 1))%nat)
    (trips q parquet stations).
Proof.
  apply Forall_forall. intros t Ht. unfold trips in Ht. apply in_map_iff in Ht.
  destruct Ht as [o [<- Ho]]. apply in_ranking in Ho.
  destruct Ho as (preceding & p & n & Hp & Harr & ->). simpl.
  destruct n as [|n]; [rewrite (seed_not_arrived _ _ _ _ Hp) in Harr; discriminate|].
  apply layer_chain in Hp. destruct Hp as (c & Hc & Hlen & _ & Hstart).
  destruct Hc as (_ & _ & Hpath & _ & Htimes & _ & _ & _ & Hto & Hat).
  apply arrived_spec in Harr. destruct Harr as [Hdest Hhour].
  assert (Hlegs : List.length (map fst c) = S (S n)) by now rewrite length_map.
  destruct (map fst c) as [|l1 legs] eqn:E; [discriminate|].
  assert (Hne : legs <> []) by (destruct legs; [discriminate|discriminate]).
  destruct (exists_last Hne) as (legs1 & ll & ->).
  simpl in Hstart. destruct Hstart as (Hfrom & Hh & Hm & _).
  change (l1 :: legs1 ++ [ll]) with ((l1 :: legs1) ++ [ll]) in Hto, Hat.
  rewrite last_map_snoc in Hto. rewrite last_map_snoc in Hat.
  exists (Schedule.to_station_code l1 :: map Schedule.to_station_code legs1),
    (Schedule.departure_time_tb l1),
    (Schedule.arrival_time_tb l1 :: flat_map leg_times legs1
       ++ [Schedule.departure_time_tb ll]),
    (Schedule.arrival_time_tb ll).
  rewrite Hpath, Htimes. simpl. rewrite map_app, flat_map_app. simpl.
  rewrite Hfrom, <- Hdest, Hto.
  repeat split; try assumption; try discriminate; try congruence.
  - rewrite <- app_assoc. reflexivity.
  - rewrite !length_app, length_map, leg_times_length. simpl. lia.
Qed.

Lemma schedule_travel_bounds q parquet legs :
  Forall (fun l => In l (train_schedule q parquet)) legs ->
  sum_Z (map Schedule.travel_time legs)
  = sum_Z (map (fun l => Schedule.arrival_time_tb l - Schedule.departure_time_tb l) legs)
  /\ 15 * Z.of_nat (List.length legs)
     <= sum_Z (map Schedule.travel_time legs)
     <= 60 * Z.of_nat (List.length legs).
Proof.
  unfold sum_Z. induction 1 as [|l legs Hl _ IH].
  - cbn. lia.
  - apply in_train_schedule in Hl. destruct Hl as [[s [_ ->]] Hlegal].
    apply legal_spec in Hlegal. destruct Hlegal as [Hb _].
    cbn [map fold_right List.length]. rewrite Nat2Z.inj_succ.
    unfold Schedule.arrival_time_tb, Schedule.departure_time_tb, with_travel_time,
      Sql.date_diff_minute in *.
    cbn [Schedule.src Schedule.travel_time] in *. lia.
Qed.

(** X3. The [travel_time] of every ranked path is the time spent on its
    trains, arrival minus departure summed over its [time_schedule] (waits
    between trains are not counted), and lies between 15 and 60 minutes
    for each of its legs. *)
Theorem travel_time_is_time_on_trains q parquet stations :
  Forall
    (fun o =>
       OptimalPaths.travel_time o = durations (OptimalPaths.time_schedule o)
       /\ 15 * (Sql.len (OptimalPaths.path o) - 1)
          <= OptimalPaths.travel_time o
          <= 60 * (Sql.len (OptimalPaths.path o) - 1))
    (ranking q parquet stations).
Proof.
  apply Forall_forall. intros o Ho. apply in_ranking in Ho.
  destruct Ho as (preceding & p & n & Hp & _ & ->).
  unfold optimal_row, distinct_row.
  cbn [OptimalPaths.travel_time OptimalPaths.time_schedule OptimalPaths.path
       DistinctPaths.travel_time DistinctPaths.time_schedule DistinctPaths.path].
  apply layer_built in Hp. destruct Hp as [c [Hc _]].
  destruct Hc as (_ & Hall & Hpath & _ & Htimes & _ & Htravel & _).
  assert (Hlegs : Forall (fun l => In l (train_schedule q parquet)) (map fst c)).
  { apply Forall_forall. intros l Hl. apply in_map_iff in Hl.
    destruct Hl as [j [<- Hj]]. rewrite Forall_forall in Hall.
    now destruct (Hall j Hj). }
  destruct (@schedule_travel_bounds q parquet _ Hlegs) as [Heq Hb].
  rewrite Htravel, Htimes, Hpath, durations_legs. split; [exact Heq|].
  rewrite length_map in Hb.
  unfold Sql.len. cbn [List.length]. rewrite !length_map, Nat2Z.inj_succ. lia.
Qed.

Lemma changes_legs q legs :
  connected q legs ->
  Forall (fun c => quarter (fst c + 60 * input_layover_time q) = quarter (snd c))
         (changes (flat_map leg_times legs)).
Proof.
  induction legs as [|l1 legs IH]; simpl; [constructor|].
  destruct legs as [|l2 legs]; simpl; [constructor|].
  intros (_ & Hq & Hc). constructor.
  - exact Hq.
  - apply IH. exact Hc.
Qed.

Lemma waits_changes layover times :
  waits layover times = map (fun c => snd c - (fst c + 60 * layover)) (changes times).
Proof.
  assert (H : forall n times, (List.length times <= n)%nat ->
                waits layover times
                = map (fun c => snd c - (fst c + 60 * layover)) (changes times)).
  { clear times. induction n as [|n IH]; intros times Hlen.
    - destruct times; [reflexivity|simpl in Hlen; lia].
    - destruct times as [|d [|a [|d' rest]]]; try reflexivity.
      change (waits layover (d :: a :: d' :: rest))
        with ((d' - (a + 60 * layover)) :: waits layover (d' :: rest)).
      change (changes (d :: a :: d' :: rest)) with ((a, d') :: changes (d' :: rest)).
      cbn [map fst snd]. f_equal.
      apply IH. cbn [List.length] in *. lia. }
  apply (H (List.length times)). lia.
Qed.

(** X4. At every change of train of a returned trip the next train leaves
    in the quarter of an hour in which the traveller arrives, the layover
    hours added: never 15 minutes or more after that moment, and up to 14
    minutes before it.  The next train may leave before the traveller has
    arrived: on [leaves_before_arrival] the trip A B C reaches B at 08:40
    and leaves it at 08:30. *)
Theorem changes_of_train_fit_the_layover q parquet stations :
  Forall
    (fun t =>
       Forall (fun w => -14 <= w <= 14)
              (waits (input_layover_time q) (Trips.time_schedule t)))
    (trips q parquet stations)
  /\ Forall
       (fun t =>
          Forall (fun c => quarter (fst c + 60 * input_layover_time q) = quarter (snd c)
                           /\ -14 <= snd c - (fst c + 60 * input_layover_time q) <= 14)
                 (changes (Trips.time_schedule t))
          /\ waits (input_layover_time q) (Trips.time_schedule t)
             = map (fun c => snd c - (fst c + 60 * input_layover_time q))
                   (changes (Trips.time_schedule t)))
       (trips q parquet stations)
  /\ map (fun t => (Trips.path t, Trips.time_schedule t,
                    changes (Trips.time_schedule t),
                    waits (input_layover_time query_ten_past) (Trips.time_schedule t)))
         (trips query_ten_past leaves_before_arrival Fixture.stations_abc)
     = [(["A"; "B"; "C"]%string,
         [Fixture.at_ 8 10; Fixture.at_ 8 40; Fixture.at_ 8 30; Fixture.at_ 9 0],
         [(Fixture.at_ 8 40, Fixture.at_ 8 30)],
         [-10])].
Proof.
  assert (Hchain : forall t, In t (trips q parquet stations) ->
            exists legs, connected q legs
                         /\ Trips.time_schedule t = flat_map leg_times legs).
  { intros t Ht. unfold trips in Ht. apply in_map_iff in Ht.
    destruct Ht as [o [<- Ho]]. apply in_ranking in Ho.
    destruct Ho as (preceding & p & n & Hp & _ & ->). simpl.
    apply layer_chain in Hp. destruct Hp as (c & Hc & _ & Hconn & _).
    destruct Hc as (_ & _ & _ & _ & Htimes & _).
    exists (map fst c). split; assumption. }
  split; [|split].
  - apply Forall_forall. intros t Ht. destruct (Hchain t Ht) as (legs & Hc & ->).
    now apply waits_legs.
  - apply Forall_forall. intros t Ht. destruct (Hchain t Ht) as (legs & Hc & ->).
    split; [|apply waits_changes].
    eapply Forall_impl; [|apply changes_legs; exact Hc].
    intros c Hq. split; [exact Hq|].
    pose proof (quarter_close _ _ Hq). lia.
  - reflexivity.
Qed.

Lemma nil_of_no_element {A} (l : list A) : (forall x, ~ In x l) -> l = [].
Proof. destruct l as [|x l]; [reflexivity|]. intros H. destruct (H x). now left. Qed.

(** X5. When no leg of the day's file leaves the origin station at the
    requested hour and minute, the macro returns the empty table, not an
    error. *)
Theorem no_departure_no_trip q parquet stations :
  (forall s, In s parquet ->
             ~ (Services.from_station_code s = input_station_code q
                /\ Sql.hour (Services.departure_time_tb s) = input_hour_departure q
                /\ Sql.minute (Services.departure_time_tb s) = input_minute_departure q)) ->
  trips q parquet stations = [].
Proof.
  intros Hnone.
  assert (Hseed : planning_layer q (train_schedule q parquet) stations 0 = []).
  { apply nil_of_no_element. intros r Hr. simpl in Hr. apply in_planning_seed in Hr.
    destruct Hr as (ts & tss & Hts & _ & _ & Hfrom & Hh & Hm & _).
    apply in_train_schedule in Hts. destruct Hts as [[s [Hs ->]] _].
    apply (Hnone s Hs). auto. }
  assert (Hplan : planning q (train_schedule q parquet) stations = []).
  { apply nil_of_no_element. intros r Hr. apply in_planning in Hr.
    destruct Hr as [n Hr].
    pose proof (layers_after_empty q (train_schedule q parquet) stations 0 n Hseed) as He.
    rewrite Nat.add_0_r in He. rewrite He in Hr. destruct Hr. }
  unfold trips, ranking. rewrite Hplan. reflexivity.
Qed.

Lemma no_departure_no_trip_witness :
  trips query_early Fixture.scenario_a_tight Fixture.stations_abc = [].
Proof.
  apply no_departure_no_trip.
  intros s [<-|[<-|[]]]; vm_compute; intros (_ & H & _); discriminate.
Defined.

Lemma ranking_sorted q parquet stations :
  StronglySorted ranks_before (ranking q parquet stations).
Proof.
  unfold ranking, ranked.
  pose proof (SqlFacts.order_by_sorted final_order final_order_total final_order_trans
                (optimal_paths
                   (distinct_paths q
                      (planning q (train_schedule q parquet) stations)))) as Hs.
  induction Hs as [|o l Hs IH Hall]; constructor; [assumption|].
  eapply Forall_impl; [|exact Hall]. intros b Hb. now apply final_order_spec.
Qed.

Lemma list_distinct_length l :
  (List.length (Sql.list_distinct l) <= List.length l)%nat.
Proof.
  induction l as [|x l IH]; simpl; [lia|].
  pose proof (filter_length_le (fun y => negb (String.eqb x y)) (Sql.list_distinct l)).
  lia.
Qed.

Lemma no_overlaps_range o :
  0 <= no_overlaps o <= Sql.len (OptimalPaths.municipalities o).
Proof.
  unfold no_overlaps, Sql.len, Sql.list_intersect, Sql.list_filter.
  pose proof (filter_length_le
                (fun x => match Sql.list_contains (Sql.flatten (OptimalPaths.m_m o)) x with
                          | Some true => true
                          | _ => false
                          end)
                (Sql.list_distinct (OptimalPaths.municipalities o))).
  pose proof (list_distinct_length (OptimalPaths.municipalities o)). lia.
Qed.

Lemma empty_frame_no_overlap d : no_overlaps (optimal_row [] d) = 0.
Proof.
  rewrite no_overlaps_count. unfold overlap_count. simpl.
  now rewrite filter_none.
Qed.

(** X6. When the macro returns trips, the first one has [no_overlaps] 0;
    and the [no_overlaps] of every trip is at least 0 and at most the
    number of stations of its path. *)
Theorem first_trip_overlaps_nothing q parquet stations :
  match trips q parquet stations with
  | [] => True
  | t :: _ => Trips.no_overlaps t = 0
  end
  /\ Forall (fun t => 0 <= Trips.no_overlaps t <= Sql.len (Trips.path t))
            (trips q parquet stations).
Proof.
  split.
  - unfold trips.
    pose proof (ranking_sorted q parquet stations) as Hs.
    assert (Hzero : ranking q parquet stations <> [] ->
                    exists o, In o (ranking q parquet stations) /\ no_overlaps o = 0).
    { unfold ranking, ranked, optimal_paths.
      destruct (Sql.order_by more_provinces
                  (distinct_paths q (planning q (train_schedule q parquet) stations)))
        as [|d rest]; [intros H; now destruct H|].
      intros _. exists (optimal_row [] d). split; [|apply empty_frame_no_overlap].
      apply SqlFacts.in_order_by. simpl. now left. }
    destruct (ranking q parquet stations) as [|h tl]; [exact I|]. simpl.
    destruct Hzero as (o & [->|Ho] & Hz); [discriminate|assumption|].
    inversion Hs as [|? ? _ Hall]; subst. rewrite Forall_forall in Hall.
    specialize (Hall o Ho). pose proof (no_overlaps_range h). unfold ranks_before in Hall.
    lia.
  - apply Forall_forall. intros t Ht. unfold trips in Ht. apply in_map_iff in Ht.
    destruct Ht as [o [<- Ho]]. simpl.
    pose proof (no_overlaps_range o) as Hr.
    apply in_ranking in Ho. destruct Ho as (preceding & p & n & Hp & _ & ->).
    apply layer_built in Hp. destruct Hp as [c [Hc _]].
    destruct Hc as (_ & _ & Hpath & _ & _ & Hmun & _).
    unfold Sql.len in *.
    cbn [optimal_row distinct_row OptimalPaths.municipalities OptimalPaths.path
         DistinctPaths.municipalities DistinctPaths.path] in *.
    rewrite Hmun in Hr. rewrite Hpath. cbn [List.length] in *.
    rewrite !length_map in *. exact Hr.
Qed.

(** * [src/data.js]: strings *)

Module JsStrFacts.

Lemma eqb_eq a : forall b, JsStr.eqb a b = true <-> a = b.
Proof.
  induction a as [|x a IH]; intros [|y b]; simpl; try (split; congruence).
  rewrite andb_true_iff, N.eqb_eq, IH. split; [intros [-> ->]; reflexivity|].
  intros H. inversion H. auto.
Qed.

Lemma trim_start_suffix s : exists spaces, s = spaces ++ JsStr.trim_start s.
Proof.
  induction s as [|c s [sp IH]]; simpl; [now exists []|].
  destruct (JsStr.is_space c).
  - exists (c :: sp). simpl. now rewrite <- IH.
  - now exists [].
Qed.

Lemma trim_start_incl s : incl (JsStr.trim_start s) s.
Proof.
  destruct (trim_start_suffix s) as [sp H]. rewrite H at 2.
  apply incl_appr, incl_refl.
Qed.

Lemma trim_start_length s : (List.length (JsStr.trim_start s) <= List.length s)%nat.
Proof.
  destruct (trim_start_suffix s) as [sp H]. rewrite H at 2.
  rewrite length_app. lia.
Qed.

Lemma trim_incl s : incl (JsStr.trim s) s.
Proof.
  unfold JsStr.trim, JsStr.trim_end. intros c Hc.
  apply <- in_rev in Hc. apply trim_start_incl in Hc. apply <- in_rev in Hc.
  now apply trim_start_incl.
Qed.

Lemma trim_length s : (List.length (JsStr.trim s) <= List.length s)%nat.
Proof.
  unfold JsStr.trim, JsStr.trim_end. rewrite length_rev.
  pose proof (trim_start_length (rev (JsStr.trim_start s))) as H.
  rewrite length_rev in H. pose proof (trim_start_length s). lia.
Qed.

Lemma strip_markup_clean s :
  Forall (fun c => JsStr.is_markup c = false) (JsStr.strip_markup s).
Proof.
  apply Forall_forall. intros c Hc. apply filter_In in Hc.
  destruct Hc as [_ Hc]. now apply negb_true_iff in Hc.
Qed.

Lemma strip_markup_incl s : incl (JsStr.strip_markup s) s.
Proof. intros c Hc. apply filter_In in Hc. tauto. Qed.

Lemma strip_markup_length s :
  (List.length (JsStr.strip_markup s) <= List.length s)%nat.
Proof. apply filter_length_le. Qed.

Lemma indexOf_from_spec a x : forall i,
  0 <= i ->
  (JsStr.indexOf_from i a x = -1 /\ ~ In x a)
  \/ (i <= JsStr.indexOf_from i a x < i + Z.of_nat (List.length a)
      /\ nth_error a (Z.to_nat (JsStr.indexOf_from i a x - i)) = Some x).
Proof.
  induction a as [|y a IH]; intros i Hi; cbn [JsStr.indexOf_from List.length].
  - left. split; [reflexivity|intros []].
  - destruct (JsStr.eqb y x) eqn:E.
    + right. apply eqb_eq in E. subst y. rewrite Z.sub_diag.
      split; [lia|reflexivity].
    + destruct (@IH (i + 1)) as [(H1 & H2)|(H1 & H2)]; [lia| |].
      * left. split; [assumption|].
        intros [->|Hin]; [|contradiction].
        apply not_true_iff_false in E. apply E. now apply eqb_eq.
      * right. split; [lia|].
        replace (Z.to_nat (JsStr.indexOf_from (i + 1) a x - i))
          with (S (Z.to_nat (JsStr.indexOf_from (i + 1) a x - (i + 1)))) by lia.
        exact H2.
Qed.

End JsStrFacts.

(** * [src/data.js]: day names and station input *)

(** X7. [dayNameToIsoDow] always answers a day of the week between 1 and
    7, which [ensureServicesFileRegistered] accepts: the place in
    Monday..Sunday of the name, white space around it dropped, when it is
    one of the seven English names so written, and 1 for anything else. *)
Theorem dayNameToIsoDow_is_a_day env name :
  1 <= dayNameToIsoDow name <= 7
  /\ (nth_error validDays (Z.to_nat (dayNameToIsoDow name - 1)) = Some (JsStr.trim name)
      \/ (~ In (JsStr.trim name) validDays /\ dayNameToIsoDow name = 1))
  /\ ensureServicesFileRegistered env (dayNameToIsoDow name)
     = Js.step (fetch_failure env (dayNameToIsoDow name)).
Proof.
  assert (H : 1 <= dayNameToIsoDow name <= 7
              /\ (nth_error validDays (Z.to_nat (dayNameToIsoDow name - 1))
                  = Some (JsStr.trim name)
                  \/ (~ In (JsStr.trim name) validDays /\ dayNameToIsoDow name = 1))).
  { unfold dayNameToIsoDow, JsStr.indexOf.
    destruct (@JsStrFacts.indexOf_from_spec validDays (JsStr.trim name) 0)
      as [(H1 & H2)|(H1 & H2)]; [lia| |].
    - rewrite H1. change (-1 <? 0) with true. cbv iota.
      split; [lia|]. right. split; [exact H2|reflexivity].
    - change (Z.of_nat (List.length validDays)) with 7 in H1.
      destruct (JsStr.indexOf_from 0 validDays (JsStr.trim name) <? 0) eqn:E;
        [apply Z.ltb_lt in E; lia|].
      split; [lia|]. left.
      replace (JsStr.indexOf_from 0 validDays (JsStr.trim name) + 1 - 1)
        with (JsStr.indexOf_from 0 validDays (JsStr.trim name) - 0) by lia.
      exact H2. }
  destruct H as [Hr Hn]. repeat split; try tauto.
  unfold ensureServicesFileRegistered.
  replace (negb ((1 <=? dayNameToIsoDow name) && (dayNameToIsoDow name <=? 7)))
    with false; [reflexivity|].
  symmetry. apply negb_false_iff, andb_true_iff. rewrite !Z.leb_le. lia.
Qed.

(** X8. [validateStationInput] never returns more than 100 characters, and
    only characters of its input.  When the input, white space around it
    dropped, has at most 100 characters, the result holds none of the five
    markup characters; when it has more, the result is its first 100
    characters as they are, markup characters included. *)
Theorem validateStationInput_is_bounded input :
  (List.length (validateStationInput input) <= 100)%nat
  /\ (forall s, input = Some s ->
                incl (validateStationInput input) s
                /\ ((List.length (JsStr.trim s) <= 100)%nat ->
                    validateStationInput input = JsStr.strip_markup (JsStr.trim s)
                    /\ Forall (fun c => JsStr.is_markup c = false)
                              (validateStationInput input))
                /\ ((100 < List.length (JsStr.trim s))%nat ->
                    validateStationInput input = firstn 100 (JsStr.trim s))).
Proof.
  destruct input as [[|c s]|]; cbn [validateStationInput].
  - split; [simpl; lia|]. intros s Hs. inversion Hs; subst.
    split; [intros x []|]. split.
    + intros _. split; [reflexivity|constructor].
    + simpl. lia.
  - destruct (100 <? List.length (JsStr.trim (c :: s)))%nat eqn:E.
    + apply Nat.ltb_lt in E. split.
      * unfold JsStr.substring0. rewrite length_firstn. lia.
      * intros s' Hs. inversion Hs; subst. split; [|split].
        -- intros x Hx. apply JsStrFacts.trim_incl.
           unfold JsStr.substring0 in Hx.
           rewrite <- (firstn_skipn 100 (JsStr.trim (c :: s))).
           apply in_or_app. now left.
        -- lia.
        -- intros _. reflexivity.
    + apply Nat.ltb_ge in E. split.
      * pose proof (JsStrFacts.strip_markup_length (JsStr.trim (c :: s))). lia.
      * intros s' Hs. inversion Hs; subst. split; [|split].
        -- intros x Hx. apply JsStrFacts.trim_incl.
           now apply JsStrFacts.strip_markup_incl.
        -- intros _. split; [reflexivity|apply JsStrFacts.strip_markup_clean].
        -- lia.
  - split; [simpl; lia|]. intros s Hs. discriminate.
Qed.

(** * [src/data.js]: the station file *)

Section ParseCSVFacts.

Variable number : Type.
Variable parseFloat : JsStr.t -> number.
Variable NaN : number.
Variable isNaN : number -> bool.
Variable less : number -> number -> bool.
Variable literal : Z -> number.

Lemma in_map_filter {A B} (f : A -> option B) a y :
  In y (map_filter f a) <-> exists x, In x a /\ f x = Some y.
Proof.
  induction a as [|x a IH]; simpl.
  - split; [intros []|intros [x [[] _]]].
  - destruct (f x) as [z|] eqn:E; simpl; rewrite IH; split.
    + intros [<-|[x' [H1 H2]]]; [exists x; auto|exists x'; auto].
    + intros [x' [[<-|H1] H2]]; [left; congruence|right; exists x'; auto].
    + intros [x' [H1 H2]]. exists x'. auto.
    + intros [x' [[<-|H1] H2]]; [congruence|exists x'; auto].
Qed.

Lemma map_filter_length {A B} (f : A -> option B) a :
  (List.length (map_filter f a) <= List.length a)%nat.
Proof. induction a as [|x a IH]; simpl; [lia|]. destruct (f x); simpl; lia. Qed.

Lemma strip_or_empty_clean x :
  Forall (fun c => JsStr.is_markup c = false) (strip_or_empty x).
Proof.
  destruct x as [[|c s]|]; simpl; try constructor.
  apply (JsStrFacts.strip_markup_clean (c :: s)).
Qed.

Lemma parse_line_clean header idx line e :
  parse_line parseFloat NaN isNaN less literal header idx line = Some e ->
  Forall (fun c => JsStr.is_markup c = false) (entry_name e)
  /\ Forall (fun c => JsStr.is_markup c = false) (entry_code e)
  /\ Forall (fun c => JsStr.is_markup c = false) (entry_municipalitySk e)
  /\ (List.length (entry_name e) <= 100)%nat
  /\ isNaN (entry_lat e) = false /\ isNaN (entry_lon e) = false
  /\ less (entry_lat e) (literal 50) = false
  /\ less (literal 54) (entry_lat e) = false
  /\ less (entry_lon e) (literal 3) = false
  /\ less (literal 8) (entry_lon e) = false.
Proof.
  unfold parse_line.
  destruct (_ || _ || _ || _); [discriminate|].
  destruct (negb _); [discriminate|].
  set (name := option_map JsStr.trim _).
  set (lat := parseFloat_field _ _ (JsStr.at_index _ (idx_lat idx))).
  set (lon := parseFloat_field _ _ (JsStr.at_index _ (idx_lon idx))).
  destruct (falsy name || _ || isNaN lat || isNaN lon) eqn:E1; [discriminate|].
  destruct (less lat (literal 50) || _ || _ || _) eqn:E2; [discriminate|].
  intros H. inversion H; subst e; clear H. simpl.
  rewrite !orb_false_iff in E1, E2.
  destruct E1 as [[[_ Hlen] Hlat] Hlon]. destruct E2 as [[[B1 B2] B3] B4].
  repeat split; try assumption; try apply strip_or_empty_clean.
  - apply JsStrFacts.strip_markup_clean.
  - apply Nat.ltb_ge in Hlen.
    eapply Nat.le_trans; [apply JsStrFacts.strip_markup_length|exact Hlen].
Qed.

End ParseCSVFacts.

(** X9. Whatever [parseFloat] and the comparisons of numbers do: in every
    station [parseCSV] returns, the name, the code and the municipality
    hold none of the five markup characters, the name has at most 100
    characters, and neither coordinate is NaN, nor a latitude below 50 or
    above 54, nor a longitude below 3 or above 8. *)
Theorem parseCSV_stations_are_clean
        (number : Type) (parseFloat : JsStr.t -> number) (NaN : number)
        (isNaN : number -> bool) (less : number -> number -> bool)
        (literal : Z -> number) text stations :
  parseCSV parseFloat NaN isNaN less literal text = Js.Returned stations ->
  Forall
    (fun e =>
       Forall (fun c => JsStr.is_markup c = false) (entry_name e)
       /\ Forall (fun c => JsStr.is_markup c = false) (entry_code e)
       /\ Forall (fun c => JsStr.is_markup c = false) (entry_municipalitySk e)
       /\ (List.length (entry_name e) <= 100)%nat
       /\ isNaN (entry_lat e) = false /\ isNaN (entry_lon e) = false
       /\ less (entry_lat e) (literal 50) = false
       /\ less (literal 54) (entry_lat e) = false
       /\ less (entry_lon e) (literal 3) = false
       /\ less (literal 8) (entry_lon e) = false)
    stations.
Proof.
  unfold parseCSV. destruct text as [[|c s]|]; try discriminate.
  destruct (1000000 <? _); [discriminate|].
  destruct (csv_lines (c :: s)) as [|first [|l lines]]; try discriminate.
  destruct (negb _); [discriminate|].
  intros H. inversion H; subst stations; clear H.
  apply Forall_forall. intros e He.
  apply (@in_map_filter _ _ _ (l :: lines)) in He.
  destruct He as [line [_ He]]. eapply parse_line_clean. exact He.
Qed.

Lemma parseCSV_stations_are_clean_witness :
  Forall
    (fun e : station_entry (option Z) =>
       Forall (fun c => JsStr.is_markup c = false) (entry_name e)
       /\ Forall (fun c => JsStr.is_markup c = false) (entry_code e)
       /\ Forall (fun c => JsStr.is_markup c = false) (entry_municipalitySk e)
       /\ (List.length (entry_name e) <= 100)%nat
       /\ WholeNumbers.isNaN (entry_lat e) = false
       /\ WholeNumbers.isNaN (entry_lon e) = false
       /\ WholeNumbers.less (entry_lat e) (Some 50) = false
       /\ WholeNumbers.less (Some 54) (entry_lat e) = false
       /\ WholeNumbers.less (entry_lon e) (Some 3) = false
       /\ WholeNumbers.less (Some 8) (entry_lon e) = false)
    [utrecht].
Proof.
  apply (@parseCSV_stations_are_clean
           (option Z) WholeNumbers.parseFloat None WholeNumbers.isNaN
           WholeNumbers.less (fun z => Some z) (Some one_station_csv) [utrecht]).
  reflexivity.
Defined.

Section LineEnds.

Lemma split_lines_lf l rest :
  one_line l ->
  JsStr.split_lines (l ++ 10%N :: rest) = l :: JsStr.split_lines rest.
Proof.
  intros [Hcr Hlf]. induction l as [|c l IH]; [reflexivity|].
  assert (Hc10 : (c =? 10)%N = false) by (apply N.eqb_neq; intros ->; apply Hlf; now left).
  assert (Hc13 : (c =? 13)%N = false) by (apply N.eqb_neq; intros ->; apply Hcr; now left).
  assert (IH' : JsStr.split_lines (l ++ 10%N :: rest) = l :: JsStr.split_lines rest).
  { apply IH; intros H; [apply Hcr|apply Hlf]; now right. }
  change ((c :: l) ++ 10%N :: rest) with (c :: (l ++ 10%N :: rest)).
  cbn [JsStr.split_lines]. rewrite Hc10.
  destruct (l ++ 10%N :: rest) as [|c2 r'] eqn:E.
  - destruct l; discriminate.
  - rewrite Hc13. cbn [andb]. rewrite IH'. reflexivity.
Qed.

Lemma split_lines_crlf l rest :
  one_line l ->
  JsStr.split_lines (l ++ 13%N :: 10%N :: rest) = l :: JsStr.split_lines rest.
Proof.
  intros [Hcr Hlf]. induction l as [|c l IH]; [reflexivity|].
  assert (Hc10 : (c =? 10)%N = false) by (apply N.eqb_neq; intros ->; apply Hlf; now left).
  assert (Hc13 : (c =? 13)%N = false) by (apply N.eqb_neq; intros ->; apply Hcr; now left).
  assert (IH' : JsStr.split_lines (l ++ 13%N :: 10%N :: rest)
                = l :: JsStr.split_lines rest).
  { apply IH; intros H; [apply Hcr|apply Hlf]; now right. }
  change ((c :: l) ++ 13%N :: 10%N :: rest) with (c :: (l ++ 13%N :: 10%N :: rest)).
  cbn [JsStr.split_lines]. rewrite Hc10.
  destruct (l ++ 13%N :: 10%N :: rest) as [|c2 r'] eqn:E.
  - destruct l; discriminate.
  - rewrite Hc13. cbn [andb]. rewrite IH'. reflexivity.
Qed.

Lemma split_lines_last l : one_line l -> JsStr.split_lines l = [l].
Proof.
  intros [Hcr Hlf]. induction l as [|c l IH]; [reflexivity|].
  assert (Hc10 : (c =? 10)%N = false) by (apply N.eqb_neq; intros ->; apply Hlf; now left).
  assert (Hc13 : (c =? 13)%N = false) by (apply N.eqb_neq; intros ->; apply Hcr; now left).
  assert (IH' : JsStr.split_lines l = [l]).
  { apply IH; intros H; [apply Hcr|apply Hlf]; now right. }
  cbn [JsStr.split_lines]. rewrite Hc10.
  destruct l as [|c2 r']; [reflexivity|].
  rewrite Hc13. cbn [andb]. rewrite IH'. reflexivity.
Qed.

Lemma join_cons sep l l2 rest :
  join sep (l :: l2 :: rest) = l ++ sep ++ join sep (l2 :: rest).
Proof. reflexivity. Qed.

(** Splitting undoes joining, with either line end. *)
Lemma split_lines_join lines :
  lines <> [] -> Forall one_line lines ->
  JsStr.split_lines (join [10%N] lines) = lines
  /\ JsStr.split_lines (join [13%N; 10%N] lines) = lines.
Proof.
  intros Hne Hall. induction Hall as [|l rest Hl Hrest IH]; [congruence|].
  destruct rest as [|l2 rest].
  - simpl. split; now apply split_lines_last.
  - destruct IH as [IH1 IH2]; [discriminate|].
    rewrite !join_cons. cbn [app].
    rewrite split_lines_lf, split_lines_crlf by assumption.
    now rewrite IH1, IH2.
Qed.

End LineEnds.

(** X10. A station file gives the same stations, or the same error,
    written with DOS line ends as with Unix line ends, as long as the
    longer text is within the size limit. *)
Theorem parseCSV_reads_both_line_ends
        (number : Type) (parseFloat : JsStr.t -> number) (NaN : number)
        (isNaN : number -> bool) (less : number -> number -> bool)
        (literal : Z -> number) first lines :
  Forall one_line (first :: lines) ->
  first <> [] ->
  Z.of_nat (List.length (join [13%N; 10%N] (first :: lines))) <= 1000000 ->
  parseCSV parseFloat NaN isNaN less literal (Some (join [13%N; 10%N] (first :: lines)))
  = parseCSV parseFloat NaN isNaN less literal (Some (join [10%N] (first :: lines))).
Proof.
  intros Hall Hfirst Hsize.
  assert (Hlen : (List.length (join [10%N] (first :: lines))
                  <= List.length (join [13%N; 10%N] (first :: lines)))%nat).
  { clear. revert first. induction lines as [|l lines IH]; intros first; [simpl; lia|].
    specialize (IH l). rewrite !join_cons, !length_app. cbn [List.length]. lia. }
  destruct first as [|c first]; [congruence|].
  assert (Hhead : forall sep, exists r,
             join sep ((c :: first) :: lines) = c :: r
             /\ r = join sep (first :: lines)).
  { intros sep. destruct lines; simpl; eauto. }
  destruct (Hhead [10%N]) as (r1 & E1 & R1).
  destruct (Hhead [13%N; 10%N]) as (r2 & E2 & R2).
  assert (Htail : Forall one_line (first :: lines)).
  { inversion Hall as [|? ? [H1 H2] Hr]; subst. constructor; [|assumption].
    split; intros H; [apply H1|apply H2]; now right. }
  assert (Hlines : csv_lines (join [13%N; 10%N] ((c :: first) :: lines))
                   = csv_lines (join [10%N] ((c :: first) :: lines))).
  { unfold csv_lines. rewrite E1, E2. destruct (c =? 65279)%N.
    - subst r1 r2.
      destruct (@split_lines_join (first :: lines)) as [S1 S2];
        [discriminate|assumption|]. now rewrite S1, S2.
    - rewrite <- E1, <- E2.
      destruct (@split_lines_join ((c :: first) :: lines)) as [S1 S2];
        [discriminate|assumption|]. now rewrite S1, S2. }
  unfold JsStr.t in *.
  assert (Hlen' : (List.length (c :: r1) <= List.length (c :: r2))%nat)
    by (rewrite <- E1, <- E2; exact Hlen).
  assert (Hsize' : Z.of_nat (List.length (c :: r2)) <= 1000000)
    by (rewrite <- E2; exact Hsize).
  assert (Hlines' : csv_lines (c :: r2) = csv_lines (c :: r1))
    by (rewrite <- E1, <- E2; exact Hlines).
  rewrite E1, E2.
  unfold parseCSV. rewrite Hlines'.
  replace (1000000 <? Z.of_nat (List.length (c :: r2)))
    with false by (symmetry; apply Z.ltb_ge; lia).
  replace (1000000 <? Z.of_nat (List.length (c :: r1)))
    with false by (symmetry; apply Z.ltb_ge; lia).
  reflexivity.
Qed.

Lemma parseCSV_reads_both_line_ends_witness :
  WholeNumbers.parseCSV (Some (join [13%N; 10%N] one_station_lines))
  = WholeNumbers.parseCSV (Some (join [10%N] one_station_lines)).
Proof.
  apply (@parseCSV_reads_both_line_ends
           (option Z) WholeNumbers.parseFloat None WholeNumbers.isNaN
           WholeNumbers.less (fun z => Some z)
           (JsStr.lit "station_name,lon,lat,station_code,municipality_sk")
           [JsStr.lit "Utrecht <Centraal>,5,52,UT,m344"]).
  - repeat constructor; vm_compute; intuition discriminate.
  - discriminate.
  - vm_compute. discriminate.
Defined.

(** X11. A byte order mark in front of a station file that is not empty
    changes nothing: the file gives the same stations, or the same error,
    with and without it (the marked text being within the size limit, and
    the file not starting with a second mark).  In front of the empty
    text it changes the error: the empty text is an invalid input, the
    mark alone an invalid structure. *)
Theorem parseCSV_ignores_the_byte_order_mark
        (number : Type) (parseFloat : JsStr.t -> number) (NaN : number)
        (isNaN : number -> bool) (less : number -> number -> bool)
        (literal : Z -> number) (s : JsStr.t) :
  (s <> [] ->
   hd 0%N s <> 65279%N ->
   Z.of_nat (List.length s) < 1000000 ->
   parseCSV parseFloat NaN isNaN less literal (Some (65279%N :: s))
   = parseCSV parseFloat NaN isNaN less literal (Some s))
  /\ parseCSV parseFloat NaN isNaN less literal (Some [65279%N])
     = Js.Thrown "Invalid CSV structure"
  /\ parseCSV parseFloat NaN isNaN less literal (Some [])
     = Js.Thrown "Invalid CSV input".
Proof.
  split; [|split; reflexivity].
  destruct s as [|c s]; [congruence|]. intros _ Hc Hsize. simpl in Hc.
  unfold parseCSV.
  replace (1000000 <? Z.of_nat (List.length (65279%N :: c :: s))) with false
    by (symmetry; apply Z.ltb_ge; cbn [List.length] in *; lia).
  replace (1000000 <? Z.of_nat (List.length (c :: s))) with false
    by (symmetry; apply Z.ltb_ge; lia).
  assert (Hlines : csv_lines (65279%N :: c :: s) = csv_lines (c :: s)).
  { unfold csv_lines. rewrite N.eqb_refl.
    apply N.eqb_neq in Hc. now rewrite Hc. }
  now rewrite Hlines.
Qed.

Lemma parseCSV_ignores_the_byte_order_mark_witness :
  WholeNumbers.parseCSV (Some (65279%N :: one_station_csv))
  = WholeNumbers.parseCSV (Some one_station_csv).
Proof.
  apply (@parseCSV_ignores_the_byte_order_mark
           (option Z) WholeNumbers.parseFloat None WholeNumbers.isNaN
           WholeNumbers.less (fun z => Some z) one_station_csv).
  - discriminate.
  - vm_compute. discriminate.
  - vm_compute. reflexivity.
Defined.

(** * [src/data.js]: the inline call *)

(** X12. The quoting of the inline fallback cannot be broken out of:
    between the quotes the engine reads back exactly the string that was
    given, whatever quotes it holds; so the three quoted arguments of
    [sqlInline] are read as the station codes and the municipality of the
    call. *)
Theorem double_quotes_reads_back :
  (forall s, read_quoted (double_quotes s) = Some s)
  /\ (forall p, exists a b c d e f g h i,
         SqlText.arguments (sqlInline p)
         = [a; SqlText.Quoted b; c; d; SqlText.Quoted e; f; g; h; SqlText.Quoted i]
         /\ read_quoted b = Some (stationCode p)
         /\ read_quoted e = Some (toStationCode p)
         /\ read_quoted i = Some (toMunicipalitySk p)).
Proof.
  assert (H : forall s, read_quoted (double_quotes s) = Some s).
  { induction s as [|c s IH]; [reflexivity|]. cbn [double_quotes].
    destruct (Ascii.eqb c "'"%char) eqn:E; cbn [read_quoted]; rewrite !E, IH;
      reflexivity. }
  split; [exact H|]. intros p. unfold sqlInline. cbn [SqlText.arguments].
  do 9 eexists. split; [reflexivity|]. repeat split; apply H.
Qed.

Lemma executeQueryWithTimeout_returned (pr : Js.promise table) budget t :
  executeQueryWithTimeout pr budget = Js.Returned t ->
  exists elapsed, pr = Js.Fulfils elapsed t /\ elapsed < budget.
Proof.
  destruct pr as [e v|e m|]; simpl; try discriminate.
  - destruct (e <? budget) eqn:E; [|discriminate].
    intros H. inversion H; subst. exists e. split; [reflexivity|now apply Z.ltb_lt].
  - destruct (e <? budget); discriminate.
Qed.

(** X13. [executeTripQuery] returns a table only when the day of the week
    is between 1 and 7 and one of its two queries, the prepared statement
    or the inline call, was fulfilled with exactly that table in less than
    15000 ms; in every other case it throws. *)
Theorem executeTripQuery_is_all_or_nothing env conn p t :
  executeTripQuery env conn p = Js.Returned t ->
  1 <= dayOfWeek p <= 7
  /\ ((exists elapsed,
          stmt_query conn sqlQuery (bindings p) = Js.Fulfils elapsed t
          /\ elapsed < 15000)
      \/ (exists elapsed,
             conn_query conn (sqlInline p) = Js.Fulfils elapsed t
             /\ elapsed < 15000)).
Proof.
  unfold executeTripQuery, ensureDuckDB, ensureMacroExecuted,
    ensureServicesFileRegistered, Js.step.
  destruct (duckdb_failure env); [discriminate|].
  destruct (macro_failure env); [discriminate|]. cbn [Js.bind].
  destruct (negb ((1 <=? dayOfWeek p) && (dayOfWeek p <=? 7))) eqn:Edow;
    [discriminate|].
  apply negb_false_iff, andb_true_iff in Edow. rewrite !Z.leb_le in Edow.
  destruct (fetch_failure env (dayOfWeek p)); [discriminate|]. cbn [Js.bind].
  intros H. split; [lia|].
  destruct (prepare conn sqlQuery) as [[]|m]; cbn [Js.bind Js.try_catch] in H.
  - destruct (executeQueryWithTimeout (stmt_query conn sqlQuery (bindings p))
                                      default_timeout) as [r|m] eqn:E;
      cbn [Js.bind Js.try_catch] in H.
    + destruct (stmt_close conn) as [m|]; cbn [Js.bind Js.try_catch] in H.
      * destruct (m =? _)%string; [discriminate|].
        right. now apply executeQueryWithTimeout_returned.
      * inversion H; subst. left. now apply executeQueryWithTimeout_returned.
    + destruct (m =? _)%string; [discriminate|].
      right. now apply executeQueryWithTimeout_returned.
  - destruct (m =? _)%string; [discriminate|].
    right. now apply executeQueryWithTimeout_returned.
Qed.

Lemma executeTripQuery_is_all_or_nothing_witness :
  1 <= dayOfWeek monday <= 7
  /\ ((exists elapsed,
          stmt_query slow_then_fast sqlQuery (bindings monday)
          = Js.Fulfils elapsed one_trip
          /\ elapsed < 15000)
      \/ (exists elapsed,
             conn_query slow_then_fast (sqlInline monday) = Js.Fulfils elapsed one_trip
             /\ elapsed < 15000)).
Proof.
  apply (@executeTripQuery_is_all_or_nothing all_reachable slow_then_fast monday one_trip).
  reflexivity.
Defined.


(** * [src/data.js]: the state of the module *)

Section SessionFacts.

Import Session.
Variable w : world.

(** X14. [ensureMacroExecuted] runs the macro once: after it has returned
    it is done ([macroExecuted] is set) and a further call does nothing, no
    fetch and no query; and a non-empty text of the macro once fetched is
    kept and never fetched again, also when the engine refused it. *)
Theorem ensureMacroExecuted_runs_the_macro_once st :
  (macroExecuted st = true -> ensureMacroExecuted w st = (Js.Returned tt, st))
  /\ (fst (ensureMacroExecuted w st) = Js.Returned tt ->
      macroExecuted (snd (ensureMacroExecuted w st)) = true
      /\ ensureMacroExecuted w (snd (ensureMacroExecuted w st))
         = (Js.Returned tt, snd (ensureMacroExecuted w st)))
  /\ (exists done,
         effects (snd (ensureMacroExecuted w st)) = done ++ effects st
         /\ (no_cache st = false ->
             macroSqlCache (snd (ensureMacroExecuted w st)) = macroSqlCache st
             /\ ~ In (Fetched CreateMacroSql) done))
  /\ buffers (snd (ensureMacroExecuted w st)) = buffers st
  /\ servicesRegistered (snd (ensureMacroExecuted w st)) = servicesRegistered st.
Proof.
  unfold ensureMacroExecuted.
  destruct (macroExecuted st) eqn:Ex.
  - simpl. rewrite Ex. repeat split; try reflexivity.
    exists []. split; [reflexivity|]. intros _. split; [reflexivity|intros []].
  - split; [discriminate|].
    destruct (no_cache st) eqn:Enc.
    + destruct (fetch w CreateMacroSql) as [resp|m].
      * destruct (ok resp); cbn [negb].
        -- cbn [macroSqlCache set_cache].
           destruct (query_failure w (body resp)) as [m|]; cbn [fst snd].
           ++ split; [discriminate|]. split; [|split; reflexivity].
              eexists [_; _]. split; [reflexivity|discriminate].
           ++ split; [intros _; split; reflexivity|]. split; [|split; reflexivity].
              eexists [_; _]. split; [reflexivity|discriminate].
        -- cbn [fst snd]. split; [discriminate|]. split; [|split; reflexivity].
           eexists [_]. split; [reflexivity|discriminate].
      * cbn [fst snd]. split; [discriminate|]. split; [|split; reflexivity].
        eexists [_]. split; [reflexivity|discriminate].
    + destruct (query_failure w _) as [m|]; cbn [fst snd].
      * split; [discriminate|]. split; [|split; reflexivity].
        eexists [_]. split; [reflexivity|]. intros _. split; [reflexivity|].
        intros [H|[]]. discriminate.
      * split; [intros _; split; reflexivity|]. split; [|split; reflexivity].
        eexists [_]. split; [reflexivity|]. intros _. split; [reflexivity|].
        intros [H|[]]. discriminate.
Qed.

(** X15. [ensureServicesFileRegistered] refuses a day outside 1..7 and
    leaves everything as it was.  When it returns, the day is the
    registered one, a further call for the same day does nothing, and,
    unless the day was registered already, the engine holds the body of the
    day's file, which was served with [ok], and the body of the station
    file.  The status of the answer for the station file is not looked at:
    once the day's file is served with [ok] and the fetch of the station
    file resolves, the call returns.  When it throws, the registered day
    stays what it was. *)
Theorem ensureServicesFileRegistered_registers_the_day d st :
  (~ 1 <= d <= 7 ->
   ensureServicesFileRegistered w d st
   = (Js.Thrown "Invalid day of week parameter", st))
  /\ (fst (ensureServicesFileRegistered w d st) = Js.Returned tt ->
      1 <= d <= 7
      /\ servicesRegistered (snd (ensureServicesFileRegistered w d st)) = Some d
      /\ ensureServicesFileRegistered w d (snd (ensureServicesFileRegistered w d st))
         = (Js.Returned tt, snd (ensureServicesFileRegistered w d st))
      /\ (servicesRegistered st <> Some d ->
          exists resp res,
            fetch w (ParquetOfDay d) = Js.Returned resp /\ ok resp = true
            /\ fetch w StationsCsv = Js.Returned res
            /\ buffer_of (ParquetOfDay d)
                         (buffers (snd (ensureServicesFileRegistered w d st)))
               = Some (body resp)
            /\ buffer_of StationsCsv
                         (buffers (snd (ensureServicesFileRegistered w d st)))
               = Some (body res)))
  /\ (forall resp res,
         1 <= d <= 7 ->
         fetch w (ParquetOfDay d) = Js.Returned resp -> ok resp = true ->
         fetch w StationsCsv = Js.Returned res ->
         fst (ensureServicesFileRegistered w d st) = Js.Returned tt)
  /\ (fst (ensureServicesFileRegistered w d st) <> Js.Returned tt ->
      servicesRegistered (snd (ensureServicesFileRegistered w d st))
      = servicesRegistered st).
Proof.
  unfold ensureServicesFileRegistered.
  destruct (negb ((1 <=? d) && (d <=? 7))) eqn:Edow.
  - apply negb_true_iff, andb_false_iff in Edow. rewrite !Z.leb_gt in Edow.
    cbn [fst snd]. split; [reflexivity|]. split; [discriminate|].
    split; [intros; lia|reflexivity].
  - pose proof Edow as Hd.
    apply negb_false_iff, andb_true_iff in Hd. rewrite !Z.leb_le in Hd.
    split; [lia|].
    destruct (already_registered d st) eqn:Ea.
    + cbn [fst snd]. rewrite ?Edow, ?Ea.
      unfold already_registered in Ea.
      destruct (servicesRegistered st) as [key|] eqn:Ek; [|discriminate].
      apply Z.eqb_eq in Ea. subst key.
      split; [|split; [reflexivity|intros H; now destruct H]].
      intros _. repeat split; try lia. intros H. now destruct H.
    + destruct (fetch w (ParquetOfDay d)) as [resp|m] eqn:Ef.
      * destruct (ok resp) eqn:Eok; cbn [negb].
        -- destruct (fetch w StationsCsv) as [res|m] eqn:Es; cbn [fst snd].
           ++ split; [|split; [reflexivity|intros H; now destruct H]].
              intros _. split; [lia|]. split; [reflexivity|]. split.
              ** rewrite ?Edow. unfold already_registered. cbn [servicesRegistered set_registered].
                 now rewrite Z.eqb_refl.
              ** intros _. exists resp, res. repeat split; try assumption.
                 cbn. now rewrite Z.eqb_refl.
           ++ split; [discriminate|].
              split; [intros resp' res' _ _ _ H; discriminate|reflexivity].
        -- cbn [fst snd]. split; [discriminate|].
           split; [|reflexivity].
           intros resp' res' _ H1 H2 _. inversion H1; subst. congruence.
      * cbn [fst snd]. split; [discriminate|].
        split; [intros resp' res' _ H; discriminate|reflexivity].
Qed.

End SessionFacts.

(** * [src/data.js]: the check of a worker URL *)

Lemma prefix_spec part : forall host,
  String.prefix part host = true <-> exists rest, host = (part ++ rest)%string.
Proof.
  induction part as [|c part IH]; intros [|h host]; simpl.
  - split; [intros _; now exists EmptyString|reflexivity].
  - split; [intros _; now exists (String h host)|reflexivity].
  - split; [discriminate|intros [rest H]; discriminate].
  - destruct (ascii_dec c h) as [->|Hne].
    + rewrite IH. split; intros [rest H]; exists rest; congruence.
    + split; [discriminate|]. intros [rest H]. inversion H. congruence.
Qed.

Lemma includes_spec part : forall host,
  includes host part = true <->
  exists before rest, host = (before ++ part ++ rest)%string.
Proof.
  induction host as [|h host IH]; cbn [includes]; rewrite orb_true_iff, prefix_spec.
  - split.
    + intros [[rest H]|H]; [|discriminate]. now exists EmptyString, rest.
    + intros (before & rest & H). left.
      destruct before; [now exists rest|discriminate].
  - rewrite IH. split.
    + intros [[rest H]|(before & rest & H)].
      * now exists EmptyString, rest.
      * exists (String h before), rest. simpl. now rewrite H.
    + intros (before & rest & H). destruct before as [|b before].
      * left. now exists rest.
      * right. exists before, rest. simpl in H. congruence.
Qed.

(** X16. [validateWorkerUrl] accepts a URL exactly when it parses and its
    host name holds [cdn.jsdelivr.net] somewhere, not only when that is the
    host; and every refusal is thrown as "Invalid worker URL", the
    "Untrusted worker URL" of the inner throw never reaching the caller. *)
Theorem validateWorkerUrl_tests_a_substring (hostname : string -> option string) url :
  (validateWorkerUrl hostname url = Js.Returned true <->
   exists host before rest,
     hostname url = Some host
     /\ host = (before ++ "cdn.jsdelivr.net" ++ rest)%string)
  /\ (validateWorkerUrl hostname url = Js.Returned true
      \/ validateWorkerUrl hostname url
         = Js.Thrown ("Invalid worker URL: " ++ url)%string).
Proof.
  unfold validateWorkerUrl.
  destruct (hostname url) as [host|]; cbn [Js.try_catch].
  - destruct (includes host "cdn.jsdelivr.net") eqn:E; cbn [negb Js.try_catch].
    + split; [|now left]. split; [intros _|reflexivity].
      apply includes_spec in E. destruct E as (before & rest & E).
      exists host, before, rest. auto.
    + split; [|now right]. split; [discriminate|].
      intros (host' & before & rest & H1 & H2). inversion H1; subst host'.
      assert (includes host "cdn.jsdelivr.net" = true)
        by (apply includes_spec; now exists before, rest).
      congruence.
  - split; [|now right]. split; [discriminate|].
    intros (host & _ & _ & H & _). discriminate.
Qed.


(** * [etl/download_data.sql] *)

Module EtlFacts.

Import EtlSource.

Lemma isodow_range d : 1 <= isodow d <= 7.
Proof. unfold isodow. pose proof (Z.mod_pos_bound (d + 3) 7). lia. Qed.

Lemma isodow_within_a_week a b :
  -7 < a - b < 7 -> isodow a = isodow b -> a = b.
Proof.
  unfold isodow. intros Hab H.
  pose proof (Z.div_mod (a + 3) 7). pose proof (Z.div_mod (b + 3) 7).
  pose proof (Z.mod_pos_bound (a + 3) 7). pose proof (Z.mod_pos_bound (b + 3) 7).
  lia.
Qed.

Lemma in_calendar_dates x c :
  In c (calendar_dates x) <->
  exists k, 0 <= k <= 6 /\ c = (x - 12 + k, isodow (x - 12 + k)).
Proof.
  unfold calendar_dates. rewrite in_map_iff. split.
  - intros [k [<- Hk]]. exists k. split; [|reflexivity].
    simpl in Hk. intuition lia.
  - intros [k [Hk ->]]. exists k. split; [reflexivity|].
    simpl. assert (k = 0 \/ k = 1 \/ k = 2 \/ k = 3 \/ k = 4 \/ k = 5 \/ k = 6) by lia.
    intuition.
Qed.

Lemma calendar_injective x c1 c2 :
  In c1 (calendar_dates x) -> In c2 (calendar_dates x) ->
  snd c1 = snd c2 -> fst c1 = fst c2.
Proof.
  intros H1 H2. apply in_calendar_dates in H1, H2.
  destruct H1 as (k1 & Hk1 & ->). destruct H2 as (k2 & Hk2 & ->). simpl.
  apply isodow_within_a_week. lia.
Qed.

Lemma in_indexed {A} (l : list A) k r : In (k, r) (indexed l) -> In r l.
Proof. unfold indexed. apply in_combine_r. Qed.

Lemma in_raw_data x csv stations r :
  In r (raw_data x csv stations) ->
  exists s cal sm,
    In s csv /\ In cal (calendar_dates x) /\ In sm stations
    /\ service_date s = fst cal
    /\ station_code s = Stations.station_code sm
    /\ at_stop r = s
    /\ day_of_week r = snd cal
    /\ municipality_sk r = Stations.municipality_sk sm
    /\ province_sk r = Stations.province_sk sm.
Proof.
  unfold raw_data. intros H. apply in_map_iff in H.
  destruct H as [[k [[s cal] sm]] [<- Hin]]. apply in_indexed in Hin.
  unfold join_stops in Hin.
  apply SqlFacts.in_inner_join in Hin. destruct Hin as (Hj & Hsm & Hon).
  apply SqlFacts.in_inner_join in Hj. destruct Hj as (Hs & Hcal & Hdate).
  simpl in Hon. apply String.eqb_eq in Hon. apply Z.eqb_eq in Hdate.
  exists s, cal, sm. simpl. tauto.
Qed.

End EtlFacts.

(** X17. The seven dates the statement takes, from twelve to six days
    before the execution date, fall on seven different days of the week,
    every day of the week on one of them; so the rows it gives one day of
    the week, the content of one file, are stops of one and the same
    date. *)
Theorem each_weekday_is_one_date x :
  NoDup (map snd (EtlSource.calendar_dates x))
  /\ (forall d, 1 <= d <= 7 ->
                exists c, In c (EtlSource.calendar_dates x) /\ snd c = d)
  /\ (forall csv stations r1 r2,
         In r1 (EtlSource.raw_data x csv stations) ->
         In r2 (EtlSource.raw_data x csv stations) ->
         EtlSource.day_of_week r1 = EtlSource.day_of_week r2 ->
         EtlSource.service_date (EtlSource.at_stop r1)
         = EtlSource.service_date (EtlSource.at_stop r2)
         /\ x - 12 <= EtlSource.service_date (EtlSource.at_stop r1) <= x - 6
         /\ EtlSource.day_of_week r1
            = EtlSource.isodow (EtlSource.service_date (EtlSource.at_stop r1))).
Proof.
  split; [|split].
  - unfold EtlSource.calendar_dates. simpl.
    repeat (constructor;
            [simpl; intros H;
             repeat (destruct H as [H|H];
                     [apply EtlFacts.isodow_within_a_week in H; lia|]);
             exact H|]).
    constructor.
  - intros d Hd.
    exists (x - 12 + (d - 1 - (x - 9)) mod 7,
            EtlSource.isodow (x - 12 + (d - 1 - (x - 9)) mod 7)).
    pose proof (Z.mod_pos_bound (d - 1 - (x - 9)) 7).
    split.
    + apply EtlFacts.in_calendar_dates. exists ((d - 1 - (x - 9)) mod 7).
      split; [lia|reflexivity].
    + simpl. unfold EtlSource.isodow.
      replace (x - 12 + (d - 1 - (x - 9)) mod 7 + 3)
        with ((x - 9) + (d - 1 - (x - 9)) mod 7) by lia.
      rewrite Zplus_mod_idemp_r.
      replace (x - 9 + (d - 1 - (x - 9))) with (d - 1) by lia.
      rewrite Z.mod_small; lia.
  - intros csv stations r1 r2 H1 H2 Hday.
    apply EtlFacts.in_raw_data in H1, H2.
    destruct H1 as (s1 & c1 & sm1 & _ & Hc1 & _ & Hd1 & _ & -> & Hw1 & _).
    destruct H2 as (s2 & c2 & sm2 & _ & Hc2 & _ & Hd2 & _ & -> & Hw2 & _).
    rewrite Hd1, Hd2, Hw1.
    split; [apply (@EtlFacts.calendar_injective x); congruence|].
    apply EtlFacts.in_calendar_dates in Hc1. destruct Hc1 as (k & Hk & ->).
    simpl. split; [lia|reflexivity].
Qed.

Module EtlLegs.

Import EtlSource.

Lemma filter_length_lt {A} (P Q : A -> bool) l x0 :
  (forall x, In x l -> P x = true -> Q x = true) ->
  In x0 l -> Q x0 = true -> P x0 = false ->
  (List.length (filter P l) < List.length (filter Q l))%nat.
Proof.
  intros Himp. induction l as [|y l IH]; intros Hin HQ HP; [destruct Hin|].
  assert (Hle : (List.length (filter P l) <= List.length (filter Q l))%nat).
  { clear - Himp. induction l as [|z l IH]; simpl; [lia|].
    assert (IH' : (List.length (filter P l) <= List.length (filter Q l))%nat).
    { apply IH. intros x Hx. apply Himp. simpl in *. tauto. }
    destruct (P z) eqn:EP.
    - rewrite (Himp z (or_intror (or_introl eq_refl)) EP). simpl. lia.
    - destruct (Q z); simpl; lia. }
  simpl. destruct Hin as [->|Hin].
  - rewrite HP, HQ. simpl. lia.
  - assert (IH' : (List.length (filter P l) < List.length (filter Q l))%nat).
    { apply IH; try assumption. intros x Hx. apply Himp. now right. }
    destruct (P y) eqn:EP.
    + rewrite (Himp y (or_introl eq_refl) EP). simpl. lia.
    + destruct (Q y); simpl; lia.
Qed.

Lemma ahead_chain o t f :
  departs_before o t = true \/ departs_with o t = true ->
  departs_before t f = true ->
  departs_before o f = true.
Proof.
  destruct o, t, f; simpl; rewrite ?Z.ltb_lt, ?Z.eqb_eq;
    try discriminate; try reflexivity; intuition; try discriminate; lia.
Qed.

Lemma departs_before_irrefl t : departs_before t t = false.
Proof. destruct t; simpl; [apply Z.ltb_irrefl|reflexivity]. Qed.

(** The window order follows the departures: of two stops of a service,
    the one with the smaller number does not leave later. *)
Lemma row_number_order rows kf jf kt jt :
  In (kf, jf) (indexed rows) -> In (kt, jt) (indexed rows) ->
  service_id (stop_of jf) = service_id (stop_of jt) ->
  row_number rows kf jf < row_number rows kt jt ->
  departs_before (departure_time (stop_of jt)) (departure_time (stop_of jf)) = false.
Proof.
  intros Hf Ht Hs Hlt.
  destruct (departs_before (departure_time (stop_of jt)) (departure_time (stop_of jf)))
    eqn:E; [exfalso|reflexivity].
  unfold row_number, Sql.len in Hlt.
  assert (Hc : (List.length (filter (ahead_of kt jt) (indexed rows))
                < List.length (filter (ahead_of kf jf) (indexed rows)))%nat).
  { apply (filter_length_lt _ _ (indexed rows) (kt, jt)).
    - intros [ko jo] _ Ho. unfold ahead_of in *. simpl in *.
      apply andb_true_iff in Ho. destruct Ho as [Ho1 Ho2].
      apply Z.eqb_eq in Ho1. apply andb_true_iff. split; [apply Z.eqb_eq; congruence|].
      apply orb_true_iff. left.
      apply (ahead_chain _ (departure_time (stop_of jt))); [|assumption].
      apply orb_true_iff in Ho2. destruct Ho2 as [Ho2|Ho2]; [now left|].
      apply andb_true_iff in Ho2. right. tauto.
    - assumption.
    - unfold ahead_of. simpl. rewrite E. simpl. rewrite andb_true_r.
      apply Z.eqb_eq. congruence.
    - unfold ahead_of. simpl. rewrite departs_before_irrefl, Nat.ltb_irrefl.
      rewrite andb_false_r. simpl. apply andb_false_r. }
  lia.
Qed.

Lemma bucket_5_minutes_grid t : bucket_5_minutes t mod 5 = 0.
Proof.
  unfold bucket_5_minutes. rewrite Z.mul_comm. apply Z.mod_mul. lia.
Qed.

(** Where a leg of a day's file comes from. *)
Lemma in_download_data x csv stations d l :
  In l (download_data x csv stations d) ->
  exists f t smf smt dep arr,
    In f csv /\ In t csv /\ In smf stations /\ In smt stations
    /\ service_id f = service_id t
    /\ departs_before (departure_time t) (departure_time f) = false
    /\ isodow (service_date f) = d
    /\ x - 12 <= service_date f <= x - 6
    /\ station_code f = Stations.station_code smf
    /\ station_code t = Stations.station_code smt
    /\ departure_time f = Some dep /\ arrival_time t = Some arr
    /\ Etl.kept l = true
    /\ l = {| Services.service_id := service_id f;
              Services.departure_time_tb := bucket_5_minutes dep;
              Services.from_station_code := station_code f;
              Services.from_municipality_sk := Stations.municipality_sk smf;
              Services.from_province_sk := Stations.province_sk smf;
              Services.to_station_code := station_code t;
              Services.arrival_time_tb := bucket_5_minutes arr;
              Services.to_municipality_sk := Stations.municipality_sk smt;
              Services.to_province_sk := Stations.province_sk smt |}.
Proof.
  unfold download_data, Etl.partition. intros H. apply in_map_iff in H.
  destruct H as [e [<- He]]. apply filter_In in He. destruct He as [He Hk].
  apply andb_true_iff in Hk. destruct Hk as [Hday Hkept]. apply Z.eqb_eq in Hday.
  unfold exploded_raw_data in He. apply in_flat_map in He.
  destruct He as [[rf rt] [Hj He]].
  apply SqlFacts.in_inner_join in Hj. destruct Hj as (Hrf & Hrt & Hon).
  unfold exploded_on in Hon. apply andb_true_iff in Hon. destruct Hon as [Hsid Hnum].
  apply Z.eqb_eq in Hsid. apply Z.ltb_lt in Hnum.
  unfold exploded_row in He. simpl in He.
  destruct (departure_time (at_stop rf)) as [dep|] eqn:Edep; [|destruct He].
  destruct (arrival_time (at_stop rt)) as [arr|] eqn:Earr; [|destruct He].
  destruct He as [<-|[]]. simpl in Hday.
  (* the two rows of raw_data, with their places *)
  unfold raw_data in Hrf, Hrt.
  apply in_map_iff in Hrf. destruct Hrf as [[kf jf] [<- Hkf]].
  apply in_map_iff in Hrt. destruct Hrt as [[kt jt] [<- Hkt]].
  simpl in *.
  pose proof (row_number_order _ _ _ _ _ Hkf Hkt Hsid Hnum) as Horder.
  pose proof (EtlFacts.in_indexed _ _ _ Hkf) as Hjf.
  pose proof (EtlFacts.in_indexed _ _ _ Hkt) as Hjt.
  destruct jf as [[f calf] smf]. destruct jt as [[t calt] smt].
  unfold join_stops in Hjf, Hjt.
  apply SqlFacts.in_inner_join in Hjf. destruct Hjf as (Hjf & Hsmf & Honf).
  apply SqlFacts.in_inner_join in Hjf. destruct Hjf as (Hf & Hcalf & Hdatef).
  apply SqlFacts.in_inner_join in Hjt. destruct Hjt as (Hjt & Hsmt & Hont).
  apply SqlFacts.in_inner_join in Hjt. destruct Hjt as (Ht & _ & _).
  simpl in *. apply String.eqb_eq in Honf, Hont. apply Z.eqb_eq in Hdatef.
  apply EtlFacts.in_calendar_dates in Hcalf. destruct Hcalf as (k & Hk & ->).
  simpl in *.
  exists f, t, smf, smt, dep, arr. unfold stop_of in *. simpl in *.
  repeat split; try assumption; try lia.
  rewrite Hdatef. exact Hday.
Qed.

End EtlLegs.

(** X18. Every leg the statement writes to the file of a day runs from a
    stop of a service to a stop that the same service does not leave
    earlier, on the one of its seven dates that falls on that day of the
    week; its departure and arrival stand on the 5-minute grid; it changes
    municipality and takes at most 60 minutes. *)
Theorem download_data_writes_forward_legs x csv stations d :
  Forall
    (fun l =>
       Services.departure_time_tb l mod 5 = 0
       /\ Services.arrival_time_tb l mod 5 = 0
       /\ Services.from_municipality_sk l <> Services.to_municipality_sk l
       /\ Services.arrival_time_tb l - Services.departure_time_tb l <= 60
       /\ exists f t,
           In f csv /\ In t csv
           /\ EtlSource.service_id f = EtlSource.service_id t
           /\ EtlSource.station_code f = Services.from_station_code l
           /\ EtlSource.station_code t = Services.to_station_code l
           /\ EtlSource.departs_before (EtlSource.departure_time t)
                                       (EtlSource.departure_time f) = false
           /\ EtlSource.isodow (EtlSource.service_date f) = d
           /\ x - 12 <= EtlSource.service_date f <= x - 6)
    (EtlSource.download_data x csv stations d).
Proof.
  apply Forall_forall. intros l Hl. apply EtlLegs.in_download_data in Hl.
  destruct Hl as (f & t & smf & smt & dep & arr & Hf & Ht & _ & _ & Hs & Ho & Hd & Hw
                  & _ & _ & _ & _ & Hkept & ->).
  unfold Etl.kept in Hkept. simpl in *.
  apply andb_true_iff in Hkept. destruct Hkept as [Hm Hdur].
  apply negb_true_iff, String.eqb_neq in Hm. apply Z.leb_le in Hdur.
  unfold Sql.date_diff_minute in Hdur.
  repeat split; try apply EtlLegs.bucket_5_minutes_grid; try assumption.
  exists f, t. tauto.
Qed.

Lemma on_grid_steps a b lo hi :
  a mod 5 = 0 -> b mod 5 = 0 -> 5 * lo - 4 <= a - b <= 5 * hi + 4 ->
  exists k, lo <= k <= hi /\ a - b = 5 * k.
Proof.
  intros Ha Hb Hr.
  pose proof (Z.div_mod a 5 ltac:(lia)). pose proof (Z.div_mod b 5 ltac:(lia)).
  exists (a / 5 - b / 5). lia.
Qed.

Lemma waits_on_grid q legs :
  connected q legs ->
  Forall (fun l => Schedule.departure_time_tb l mod 5 = 0
                   /\ Schedule.arrival_time_tb l mod 5 = 0) legs ->
  Forall (fun w => In w [-10; -5; 0; 5; 10])
         (waits (input_layover_time q) (flat_map leg_times legs)).
Proof.
  induction legs as [|l1 legs IH]; [constructor|].
  destruct legs as [|l2 legs]; [constructor|].
  cbn [connected waits flat_map leg_times app] in *.
  intros (_ & Hq & Hc) Hall.
  inversion Hall as [|? ? [_ Ha1] Hrest]; subst.
  pose proof Hrest as Hrest'.
  inversion Hrest as [|? ? [Hd2 _] _]; subst.
  constructor; [|apply IH; assumption].
  apply quarter_close in Hq.
  destruct (@on_grid_steps (Schedule.departure_time_tb l2)
              (Schedule.arrival_time_tb l1 + 60 * input_layover_time q) (-2) 2)
    as (k & Hk & Hw).
  - assumption.
  - rewrite Z.add_mod, Ha1 by lia.
    replace (60 * input_layover_time q) with (input_layover_time q * 12 * 5) by lia.
    rewrite Z.mod_mul by lia. reflexivity.
  - lia.
  - rewrite Hw.
    assert (k = -2 \/ k = -1 \/ k = 0 \/ k = 1 \/ k = 2) by lia.
    simpl. intuition subst; auto.
Qed.

(** X19. On the files the statement writes, every leg of the Service Graph
    takes 15, 20, ..., or 60 minutes, every time of a returned trip stands
    on the 5-minute grid, and at a change of train the next train leaves
    10 or 5 minutes before the arrival plus the layover, at that moment, or
    5 or 10 minutes after it. *)
Theorem etl_legs_fit_the_quarters q x csv stations listed d :
  Forall
    (fun l => In (Schedule.travel_time l)
                 [15; 20; 25; 30; 35; 40; 45; 50; 55; 60])
    (train_schedule q (EtlSource.download_data x csv stations d))
  /\ Forall
       (fun t =>
          Forall (fun m => m mod 5 = 0) (Trips.time_schedule t)
          /\ Forall (fun w => In w [-10; -5; 0; 5; 10])
                    (waits (input_layover_time q) (Trips.time_schedule t)))
       (trips q (EtlSource.download_data x csv stations d) listed).
Proof.
  assert (Hgrid : forall l,
             In l (train_schedule q (EtlSource.download_data x csv stations d)) ->
             Schedule.departure_time_tb l mod 5 = 0
             /\ Schedule.arrival_time_tb l mod 5 = 0
             /\ Schedule.travel_time l
                = Schedule.arrival_time_tb l - Schedule.departure_time_tb l
             /\ 15 <= Schedule.travel_time l <= 60).
  { intros l Hl. apply in_train_schedule in Hl. destruct Hl as [[s [Hs ->]] Hlegal].
    apply legal_spec in Hlegal. destruct Hlegal as [Hb _].
    apply EtlLegs.in_download_data in Hs.
    destruct Hs as (f & t & smf & smt & dep & arr & _ & _ & _ & _ & _ & _ & _ & _
                    & _ & _ & _ & _ & _ & ->).
    unfold Schedule.departure_time_tb, Schedule.arrival_time_tb, Sql.date_diff_minute
      in *. simpl in *.
    repeat split; try apply EtlLegs.bucket_5_minutes_grid; lia. }
  split.
  - apply Forall_forall. intros l Hl. destruct (Hgrid l Hl) as (Hd & Ha & Ht & Hb).
    destruct (@on_grid_steps (Schedule.arrival_time_tb l)
                (Schedule.departure_time_tb l) 3 12) as (k & Hk & Hw);
      [assumption|assumption|lia|].
    rewrite Ht, Hw.
    assert (k = 3 \/ k = 4 \/ k = 5 \/ k = 6 \/ k = 7 \/ k = 8 \/ k = 9 \/ k = 10
            \/ k = 11 \/ k = 12) by lia.
    simpl. intuition subst; auto 12.
  - apply Forall_forall. intros t Ht. unfold trips in Ht. apply in_map_iff in Ht.
    destruct Ht as [o [<- Ho]]. apply in_ranking in Ho.
    destruct Ho as (preceding & p & n & Hp & _ & ->). simpl.
    apply layer_chain in Hp. destruct Hp as (c & Hc & _ & Hconn & _).
    destruct Hc as (_ & Hall & _ & _ & Htimes & _).
    assert (Hlegs : Forall (fun l => Schedule.departure_time_tb l mod 5 = 0
                                     /\ Schedule.arrival_time_tb l mod 5 = 0)
                           (map fst c)).
    { apply Forall_forall. intros l Hl. apply in_map_iff in Hl.
      destruct Hl as [j [<- Hj]]. rewrite Forall_forall in Hall.
      destruct (Hall j Hj) as [Hin _]. destruct (Hgrid _ Hin) as (H1 & H2 & _).
      auto. }
    rewrite Htimes. split; [|now apply waits_on_grid].
    clear - Hlegs. induction Hlegs as [|l legs [H1 H2] _ IH]; simpl;
      repeat constructor; assumption.
Qed.

(** X20. Every returned path follows legs of the Service Graph station by
    station: there is one leg for every two adjacent stations of the path,
    from the first to the second, with its departure and arrival at their
    place in the [time_schedule]. *)
Theorem trips_follow_legs q parquet stations :
  Forall
    (fun t =>
       exists legs,
         Forall (fun l => In l (train_schedule q parquet)) legs
         /\ map Schedule.from_station_code legs = removelast (Trips.path t)
         /\ map Schedule.to_station_code legs = tl (Trips.path t)
         /\ Trips.time_schedule t = flat_map leg_times legs)
    (trips q parquet stations).
Proof.
  apply Forall_forall. intros t Ht. unfold trips in Ht. apply in_map_iff in Ht.
  destruct Ht as [o [<- Ho]]. apply in_ranking in Ho.
  destruct Ho as (preceding & p & n & Hp & _ & ->). simpl.
  apply layer_built in Hp. destruct Hp as [c [Hc _]].
  destruct Hc as (_ & Hall & Hpath & Hfrom & Htimes & _).
  exists (map fst c). repeat split; try assumption.
  - apply Forall_forall. intros l Hl. apply in_map_iff in Hl.
    destruct Hl as [j [<- Hj]]. rewrite Forall_forall in Hall.
    now destruct (Hall j Hj).
  - rewrite Hpath. reflexivity.
Qed.

(** * Examples *)

(** The service of three stops, as written for Thursday: the direct leg
    from A to C is there as well. *)
Example three_stops_give_three_legs :
  map (fun l => (Services.from_station_code l, Services.to_station_code l,
                 Services.departure_time_tb l, Services.arrival_time_tb l))
      (EtlSource.download_data 12 EtlSource.three_stops Fixture.stations_abc 4)
  = [("A", "B", 480, 510); ("A", "C", 480, 540); ("B", "C", 510, 540)]%string
  /\ EtlSource.download_data 12 EtlSource.three_stops Fixture.stations_abc 5 = []
  /\ trips Fixture.query_a
           (EtlSource.download_data 12 EtlSource.three_stops Fixture.stations_abc 4)
           Fixture.stations_abc
     = [{| Trips.path := ["A"; "B"; "C"]%string;
           Trips.time_schedule := [480; 510; 510; 540];
           Trips.no_overlaps := 0 |}].
Proof. repeat split; reflexivity. Qed.

Example day_names :
  map dayNameToIsoDow
      [JsStr.lit "Monday"; JsStr.lit "  Sunday "; JsStr.lit "sunday"; JsStr.lit ""]
  = [1; 7; 1; 1].
Proof. reflexivity. Qed.

Example worker_urls :
  validateWorkerUrl host_of_https "https://cdn.jsdelivr.net/npm/w.js" = Js.Returned true
  /\ validateWorkerUrl host_of_https "https://cdn.jsdelivr.net.evil.example/w.js"
     = Js.Returned true
  /\ validateWorkerUrl host_of_https "https://evil.example/cdn.jsdelivr.net/w.js"
     = Js.Thrown "Invalid worker URL: https://evil.example/cdn.jsdelivr.net/w.js".
Proof. repeat split; reflexivity. Qed.

(** Two calls for Wednesday, then one for Friday: two fetches each for the
    first and the last, none for the second. *)
Example three_registrations :
  let st1 := snd (Session.ensureServicesFileRegistered served 3 Session.initial) in
  let st2 := snd (Session.ensureServicesFileRegistered served 3 st1) in
  let st3 := snd (Session.ensureServicesFileRegistered served 5 st2) in
  List.length (Session.effects st1) = 4%nat
  /\ st2 = st1
  /\ List.length (Session.effects st3) = 8%nat
  /\ Session.servicesRegistered st3 = Some 5
  /\ Session.buffer_of (Session.ParquetOfDay 3) (Session.buffers st3)
     = Some (JsStr.lit "bytes").
Proof. repeat split; reflexivity. Qed.

Example station_input :
  validateStationInput (Some (JsStr.lit " <b>Utrecht</b> ")) = JsStr.lit "bUtrecht/b"
  /\ validateStationInput None = [].
Proof. split; reflexivity. Qed.
